(** * Strategy bootstrap tool: registry reconciliation engine

    A shallow embedding of [strategies/bootstrap_strategies.py] (and of its
    interactive twin [strategies/bootstrape.py], whose core functions are
    textually the same) together with the properties of the registry it
    builds.

    Conventions of the embedding.
    - A Python [str] is a [string]; a character stands for the code point
      of the same number, so the text handled here ranges over the code
      points below 256.  [str.lower], [str.strip] and the ordering of
      strings are the interpreter's on that range.
    - [bytes] are [list byte].
    - A Python [dict] is an insertion-ordered association list with
      distinct keys: the source iterates over dictionaries
      ([next(iter(tags.values()))], [json.dumps], the usage report), so the
      order is part of the behaviour.
    - Effects are threaded through a state-and-exception monad over a
      [world]: the file tree, the two output streams and a ghost trace of
      the calls to [materialize_module].
    - What the interpreter and the machine supply (the [node] process, the
      JSON reader, texts of operating-system errors, ...) is gathered in
      the class [Runtime]. *)

From Stdlib Require Import String Ascii List ZArith NArith Lia Bool.
From Stdlib Require Import Strings.Byte.
From Stdlib Require Import QArith_base DecimalString.
From Stdlib Require Import Sorting.Sorted Sorting.Permutation.
Import ListNotations.

Local Open Scope string_scope.
Local Open Scope list_scope.

(* ------------------------------------------------------------------ *)
(** ** Text *)

Module Text.

Definition code (c : ascii) : N := N_of_ascii c.

(** [str.isspace] on one character. *)
Definition isspace (c : ascii) : bool :=
  let n := code c in
  (((9 <=? n) && (n <=? 13)) || ((28 <=? n) && (n <=? 32))
   || (n =? 133) || (n =? 160))%N.

(** [str.lower] on one character: the letters A-Z and the accented
    capitals 192-222 (the multiplication sign 215 apart). *)
Definition lower_char (c : ascii) : ascii :=
  let n := code c in
  if (((65 <=? n) && (n <=? 90))
      || ((192 <=? n) && (n <=? 222) && negb (n =? 215)))%N
  then ascii_of_N (n + 32) else c.

Fixpoint lower (s : string) : string :=
  match s with
  | EmptyString => EmptyString
  | String c s' => String (lower_char c) (lower s')
  end.

Fixpoint lstrip (s : string) : string :=
  match s with
  | EmptyString => EmptyString
  | String c s' => if isspace c then lstrip s' else s
  end.

(** Drops the white space at the end: a character is kept when it is not
    a space or when something is kept after it. *)
Fixpoint rstrip (s : string) : string :=
  match s with
  | EmptyString => EmptyString
  | String c s' =>
      match rstrip s' with
      | EmptyString => if isspace c then EmptyString else String c EmptyString
      | r => String c r
      end
  end.

(** [str.strip()]. *)
Definition strip (s : string) : string := rstrip (lstrip s).

(** A string is true in a condition when it is not empty. *)
Definition truthy (s : string) : bool :=
  match s with EmptyString => false | _ => true end.

(** [a or b] on strings. *)
Definition or_else (a b : string) : string := if truthy a then a else b.

(** [str.endswith] and [str.startswith]. *)
Fixpoint startswith (s p : string) : bool :=
  match p, s with
  | EmptyString, _ => true
  | String _ _, EmptyString => false
  | String a p', String b s' => Ascii.eqb a b && startswith s' p'
  end.

Fixpoint rev_string (s acc : string) : string :=
  match s with
  | EmptyString => acc
  | String c s' => rev_string s' (String c acc)
  end.

Definition endswith (s p : string) : bool :=
  startswith (rev_string s EmptyString) (rev_string p EmptyString).

(** [sep.join(parts)]. *)
Definition join (sep : string) (l : list string) : string :=
  String.concat sep l.

(** [s.split(sep)] for a one-character separator. *)
Fixpoint split_on (sep : ascii) (s : string) : list string :=
  match s with
  | EmptyString => [EmptyString]
  | String c s' =>
      if Ascii.eqb c sep then EmptyString :: split_on sep s'
      else match split_on sep s' with
           | [] => [String c EmptyString]
           | w :: ws => String c w :: ws
           end
  end.

(** [str(n)] for an integer. *)
Definition of_Z (z : Z) : string := NilZero.string_of_int (Z.to_int z).

(** [str(n)] for a length. *)
Definition of_nat (n : nat) : string := of_Z (Z.of_nat n).

(** One character in UTF-8: one byte below 128, two from there on. *)
Definition encode_char (c : ascii) : list byte :=
  let n := code c in
  if (n <? 128)%N then [byte_of_ascii c]
  else
    match Byte.of_N (192 + n / 64), Byte.of_N (128 + n mod 64) with
    | Some hi, Some lo => [hi; lo]
    | _, _ => []
    end.

(** [s.encode("utf-8")]. *)
Fixpoint encode_utf8 (s : string) : list byte :=
  match s with
  | EmptyString => []
  | String c s' => encode_char c ++ encode_utf8 s'
  end.

End Text.

(* ------------------------------------------------------------------ *)
(** ** Ordering and sorting *)

Module Order.

(** [a <= b] on strings: by code points, a prefix first. *)
Definition str_le (a b : string) : bool := String.leb a b.

(** Lists of strings in lexicographic order: how path objects, that is
    their tuples of parts, compare. *)
Fixpoint list_le (a b : list string) : bool :=
  match a, b with
  | [], _ => true
  | _ :: _, [] => false
  | x :: a', y :: b' =>
      match String.compare x y with
      | Lt => true
      | Gt => false
      | Eq => list_le a' b'
      end
  end.

(** Triples of strings, as the tuples of the usage report compare. *)
Definition triple_le (a b : string * string * string) : bool :=
  let '(a1, a2, a3) := a in
  let '(b1, b2, b3) := b in
  list_le [a1; a2; a3] [b1; b2; b3].

Section Sort.
Variable A : Type.
Variable le : A -> A -> bool.

(** Stable insertion: [x] goes before the first element that is
    strictly greater. *)
Fixpoint insert (x : A) (l : list A) : list A :=
  match l with
  | [] => [x]
  | y :: l' => if le y x then y :: insert x l' else x :: l
  end.

(** [sorted(l)]: a stable sort. *)
Definition sorted (l : list A) : list A :=
  fold_left (fun acc x => insert x acc) l [].

(** [l[-1]], when there is one. *)
Definition last_item (l : list A) : option A :=
  match rev l with
  | [] => None
  | x :: _ => Some x
  end.
End Sort.

Arguments insert {A} le x l.
Arguments sorted {A} le l.
Arguments last_item {A} l.

End Order.

(* ------------------------------------------------------------------ *)
(** ** Insertion-ordered dictionaries *)

Module Dict.

Section WithKey.
Variables K V : Type.
Variable eqb : K -> K -> bool.

Definition t := list (K * V).

(** [d.get(k)]. *)
Fixpoint get (d : t) (k : K) : option V :=
  match d with
  | [] => None
  | (k', v) :: d' => if eqb k' k then Some v else get d' k
  end.

(** [d[k] = v]: a key already present keeps its place. *)
Fixpoint set (d : t) (k : K) (v : V) : t :=
  match d with
  | [] => [(k, v)]
  | (k', v') :: d' =>
      if eqb k' k then (k', v) :: d' else (k', v') :: set d' k v
  end.

(** [d.pop(k, None)]: no item under [k] afterwards. *)
Fixpoint remove (d : t) (k : K) : t :=
  match d with
  | [] => []
  | (k', v') :: d' =>
      if eqb k' k then remove d' k else (k', v') :: remove d' k
  end.

Definition keys (d : t) : list K := map fst d.
Definition values (d : t) : list V := map snd d.

(** [k in d]. *)
Definition mem (d : t) (k : K) : bool :=
  match get d k with Some _ => true | None => false end.

(** A dictionary is true in a condition when it has an item. *)
Definition truthy (d : t) : bool :=
  match d with [] => false | _ => true end.

(** The same keys in the same places, every value through [f]. *)
Definition map_values (f : V -> V) (d : t) : t :=
  map (fun kv => (fst kv, f (snd kv))) d.
End WithKey.

Arguments get {K V} eqb d k.
Arguments set {K V} eqb d k v.
Arguments remove {K V} eqb d k.
Arguments keys {K V} d.
Arguments values {K V} d.
Arguments mem {K V} eqb d k.
Arguments truthy {K V} d.
Arguments map_values {K V} f d.

End Dict.

(** Dictionaries keyed by strings. *)
Definition sdict (V : Type) : Type := Dict.t string V.
Definition sget {V} (d : sdict V) (k : string) : option V := Dict.get String.eqb d k.
Definition sset {V} (d : sdict V) (k : string) (v : V) : sdict V := Dict.set String.eqb d k v.

(* ------------------------------------------------------------------ *)
(** ** Paths *)

(** A [pathlib] path of a POSIX system: its anchor (empty, one slash or
    two) and its components.  Empty components and single dots never
    occur among [segs]; double dots are kept as written. *)
Record Path := mkPath { anchor : string; segs : list string }.

Module Paths.

Fixpoint count_slashes (s : string) : nat :=
  match s with
  | String "/" s' => S (count_slashes s')
  | _ => 0%nat
  end.

(** The root of a path string: two slashes exactly stay two, any other
    positive number is one. *)
Definition splitroot (s : string) : string :=
  match count_slashes s with
  | O => ""
  | 2%nat => "//"
  | _ => "/"
  end.

Definition keep_seg (x : string) : bool :=
  Text.truthy x && negb (String.eqb x ".").

(** [Path(s)]. *)
Definition parse (s : string) : Path :=
  mkPath (splitroot s) (filter keep_seg (Text.split_on "/" s)).

(** [p / s]: an absolute right operand replaces the left one. *)
Definition join (p : Path) (s : string) : Path :=
  let q := parse s in
  if Text.truthy (anchor q) then q
  else mkPath (anchor p) (segs p ++ segs q).

(** [str(p)], which is also [p.as_posix()]. *)
Definition to_string (p : Path) : string :=
  Text.or_else (anchor p ++ Text.join "/" (segs p))%string ".".

(** [p.parts]: the anchor counts as the first part. *)
Definition parts (p : Path) : list string :=
  if Text.truthy (anchor p) then anchor p :: segs p else segs p.

(** [p.name]. *)
Definition name (p : Path) : string :=
  match Order.last_item (segs p) with
  | Some x => x
  | None => ""
  end.

Definition seg_eqb (a b : list string) : bool :=
  if list_eq_dec string_dec a b then true else false.

Definition eqb (p q : Path) : bool :=
  String.eqb (anchor p) (anchor q) && seg_eqb (segs p) (segs q).

(** [l] without the prefix [pre], when it starts with it. *)
Fixpoint strip_prefix (pre l : list string) : option (list string) :=
  match pre, l with
  | [], _ => Some l
  | _ :: _, [] => None
  | x :: pre', y :: l' =>
      if String.eqb x y then strip_prefix pre' l' else None
  end.

(** [p.relative_to(other)]; [None] is the [ValueError] of a path that
    is not below [other]. *)
Definition relative_to (p other : Path) : option Path :=
  if String.eqb (anchor p) (anchor other) then
    match strip_prefix (segs other) (segs p) with
    | Some rest => Some (mkPath "" rest)
    | None => None
    end
  else None.

(** Double dots resolved against what precedes them; at the top they
    stay at the top. *)
Definition normalize (l : list string) : list string :=
  rev (fold_left
         (fun acc x => if String.eqb x ".." then tl acc else x :: acc)
         l []).

(** The components of a path from the top, as they are written, for a
    process whose working directory is [cwd]: double dots are still
    there. *)
Definition components (cwd : list string) (p : Path) : list string :=
  if Text.truthy (anchor p) then segs p else cwd ++ segs p.

(** The place in the file tree a path denotes for a process whose
    working directory is [cwd]: the components from the top, without
    double dots.  There are no symbolic links in the model. *)
Definition locate (cwd : list string) (p : Path) : list string :=
  normalize (if Text.truthy (anchor p) then segs p else cwd ++ segs p).

End Paths.

(* ------------------------------------------------------------------ *)
(** ** Python values, exceptions *)

(** A float by its exact value. *)
Inductive pyfloat :=
| FNan
| FInf (negative : bool)
| FFinite (q : Q).

(** What [json.loads] can return. *)
#[local] Unset Elimination Schemes.
Inductive pyobj :=
| PNone
| PBool (b : bool)
| PInt (z : Z)
| PFloat (f : pyfloat)
| PStr (s : string)
| PList (l : list pyobj)
| PDict (d : list (string * pyobj)).
#[local] Set Elimination Schemes.

Inductive exn :=
| BootstrapError (msg : string)
| OSError (text : string)
| ValueError
| TypeError
| AttributeError
| KeyError (key : string)
| IndexError
| OverflowError
| RuntimeError
| SystemExit (status : Z).

Inductive result (A : Type) :=
| Ok (a : A)
| Raise (e : exn).
Arguments Ok {A} a.
Arguments Raise {A} e.

(* ------------------------------------------------------------------ *)
(** ** The world: file tree, output, ghost trace *)

Inductive node :=
| File (content : list byte)
| Dir.

(** The operations on the file tree, by the place they act on. *)
Inductive fs_op :=
| OpRead (p : list string)
| OpWrite (p : list string)
| OpUnlink (p : list string)
| OpMkdir (p : list string)
| OpReplace (src dst : list string).

(** What the machine decides about an operation that the file tree itself
    would allow: it goes through, it is refused, or (a write) it breaks
    off after [written] has reached the file. *)
Inductive verdict :=
| Allow
| Deny
| Torn (written : list byte).

(** Ghost events: entering [materialize_module]. *)
Inductive event :=
| CallMaterialize (name version : string) (path : Path).

Definition tree := Dict.t (list string) node.

Record world := mkWorld {
  fs : tree;
  stdout : list string;
  stderr : list string;
  trace : list event
}.

(** The result of running the [node] binary. *)
Inductive process :=
| NoSuchBinary
| Completed (returncode : Z) (out err : string).

(** What the interpreter and the machine supply. *)
Class Runtime := {
  (** the working directory of the process *)
  cwd : list string;
  (** [os.path.expanduser] on a first component that starts with a tilde *)
  os_expanduser : string -> string;
  (** faults of the machine *)
  judge : fs_op -> verdict;
  (** the text of the [OSError] raised by a failed operation *)
  strerror : fs_op -> string;
  (** [node -e NODE_METADATA_SCRIPT file] on the current file tree *)
  run_node : tree -> string -> process;
  (** [json.loads]: the value, or the text of the [JSONDecodeError] *)
  json_loads : string -> pyobj + string;
  (** [str(x)] for a float, a list or a dictionary *)
  str_other : pyobj -> string;
  (** [int(s)] for a string: [None] is the [ValueError] *)
  int_of_str : string -> option Z;
  (** the usage source behind a URL: the bytes of the response, or the
      text of the [URLError] *)
  urlopen : string -> list byte + string;
  (** decoding UTF-8 into text: [None] is the [UnicodeDecodeError] *)
  decode_utf8 : list byte -> option string;
  (** [argparse] on the command line: the four values, or the exit
      status *)
  parse_argv : list string -> (string * bool * option string * string) + Z
}.

(* ------------------------------------------------------------------ *)
(** ** The monad of effects *)

Definition M (A : Type) : Type := world -> result A * world.

Definition ret {A} (a : A) : M A := fun w => (Ok a, w).

Definition bind {A B} (m : M A) (k : A -> M B) : M B :=
  fun w =>
    match m w with
    | (Ok a, w') => k a w'
    | (Raise e, w') => (Raise e, w')
    end.

Definition raise {A} (e : exn) : M A := fun w => (Raise e, w).

(** [try: m  except ...: h e]; the handler answers [None] for an
    exception its clause does not name. *)
Definition try_except {A} (m : M A) (h : exn -> option (M A)) : M A :=
  fun w =>
    match m w with
    | (Ok a, w') => (Ok a, w')
    | (Raise e, w') =>
        match h e with
        | Some k => k w'
        | None => (Raise e, w')
        end
    end.

Declare Scope monad_scope.
Delimit Scope monad_scope with monad.
Notation "x <- m ;; k" := (bind m (fun x => k))
  (at level 61, m at next level, right associativity) : monad_scope.
Notation "m ;;; k" := (bind m (fun _ => k))
  (at level 61, right associativity) : monad_scope.
Local Open Scope monad_scope.

(** [except OSError as exc: raise BootstrapError(msg(exc))]. *)
Definition wrap_oserror {A} (m : M A) (msg : string -> string) : M A :=
  try_except m
    (fun e => match e with
              | OSError text => Some (raise (BootstrapError (msg text)))
              | _ => None
              end).

(** [print(line)] and [print(line, file=sys.stderr)]. *)
Definition print (line : string) : M unit :=
  fun w => (Ok tt, mkWorld (fs w) (stdout w ++ [line]) (stderr w) (trace w)).

Definition eprint (line : string) : M unit :=
  fun w => (Ok tt, mkWorld (fs w) (stdout w) (stderr w ++ [line]) (trace w)).

Definition log (ev : event) : M unit :=
  fun w => (Ok tt, mkWorld (fs w) (stdout w) (stderr w) (trace w ++ [ev])).

Definition with_fs (t : tree) (w : world) : world :=
  mkWorld t (stdout w) (stderr w) (trace w).

(* ------------------------------------------------------------------ *)
(** ** The file tree *)

Module Fs.

Definition lookup (t : tree) (k : list string) : option node :=
  Dict.get Paths.seg_eqb t k.

Definition store (t : tree) (k : list string) (n : node) : tree :=
  Dict.set Paths.seg_eqb t k n.

Definition erase (t : tree) (k : list string) : tree :=
  Dict.remove Paths.seg_eqb t k.

(** The top of the tree is a directory that is always there. *)
Definition is_dir (t : tree) (k : list string) : bool :=
  match k with
  | [] => true
  | _ => match lookup t k with Some Dir => true | _ => false end
  end.

Definition is_file (t : tree) (k : list string) : bool :=
  match k with
  | [] => false
  | _ => match lookup t k with Some (File _) => true | _ => false end
  end.

(** The prefixes of a place, the shortest first, the place itself
    last; the top is left out. *)
Fixpoint prefixes (k : list string) : list (list string) :=
  match k with
  | [] => []
  | x :: k' => [x] :: map (cons x) (prefixes k')
  end.

Definition parent (k : list string) : list string := removelast k.

(** Every directory on the way down to [k] is there. *)
Definition reachable (t : tree) (k : list string) : bool :=
  forallb (is_dir t) (prefixes (parent k)).

(** Something lies strictly below [k]. *)
Definition has_child (t : tree) (k : list string) : bool :=
  existsb (fun kv => match Paths.strip_prefix k (fst kv) with
                     | Some (_ :: _) => true
                     | _ => false
                     end) t.

(** The subtree at [src] moved to [dst]. *)
Definition move_subtree (t : tree) (src dst : list string) : tree :=
  map (fun kv => match Paths.strip_prefix src (fst kv) with
                 | Some rest => (dst ++ rest, snd kv)
                 | None => kv
                 end) t.

Section Ops.
Context {rt : Runtime}.

Definition os_error {A} (op : fs_op) : M A := raise (OSError (strerror op)).

(** [p.read_bytes()]. *)
Definition read_bytes (p : Path) : M (list byte) :=
  fun w =>
    let k := Paths.locate cwd p in
    match reachable (fs w) k && is_file (fs w) k,
          lookup (fs w) k, judge (OpRead k) with
    | true, Some (File c), Allow => (Ok c, w)
    | _, _, _ => os_error (OpRead k) w
    end.

(** [p.write_bytes(data)]: the file is opened for writing, which
    creates or empties it, then filled. *)
Definition write_bytes (p : Path) (data : list byte) : M unit :=
  fun w =>
    let k := Paths.locate cwd p in
    match k with
    | [] => os_error (OpWrite k) w
    | _ =>
        if reachable (fs w) k && negb (is_dir (fs w) k) then
          match judge (OpWrite k) with
          | Allow => (Ok tt, with_fs (store (fs w) k (File data)) w)
          | Deny => os_error (OpWrite k) w
          | Torn written =>
              os_error (OpWrite k) (with_fs (store (fs w) k (File written)) w)
          end
        else os_error (OpWrite k) w
    end.

(** [p.write_text(text, encoding="utf-8")]. *)
Definition write_text (p : Path) (text : string) : M unit :=
  write_bytes p (Text.encode_utf8 text).

(** [p.unlink()]. *)
Definition unlink (p : Path) : M unit :=
  fun w =>
    let k := Paths.locate cwd p in
    match reachable (fs w) k && is_file (fs w) k, judge (OpUnlink k) with
    | true, Allow => (Ok tt, with_fs (erase (fs w) k) w)
    | _, _ => os_error (OpUnlink k) w
    end.

(** The directories [ks], outermost first, each created when it is
    missing. *)
Fixpoint make_dirs (ks : list (list string)) : M unit :=
  match ks with
  | [] => ret tt
  | k :: ks' =>
      fun w =>
        match lookup (fs w) k with
        | Some Dir => make_dirs ks' w
        | Some (File _) => os_error (OpMkdir k) w
        | None =>
            match judge (OpMkdir k) with
            | Allow => make_dirs ks' (with_fs (store (fs w) k Dir) w)
            | _ => os_error (OpMkdir k) w
            end
        end
  end.

(** The places that [p.mkdir(parents=True, exist_ok=True)] goes through,
    outermost first: one for each component of the path as it is written,
    a double dot leading back to the place above; the top is always
    there.  For [root/name/..] these are the places down to [root], then
    [root/name], then [root] again. *)
Definition mkdir_places (p : Path) : list (list string) :=
  filter (fun k => match k with [] => false | _ :: _ => true end)
         (map Paths.normalize (prefixes (Paths.components cwd p))).

(** [p.mkdir(parents=True, exist_ok=True)]: every component on the way is
    made when it is missing, and a regular file on the way is an error. *)
Definition mkdir (p : Path) : M unit :=
  make_dirs (mkdir_places p).

(** [src.replace(dst)]: the rename of the operating system. *)
Definition replace (src dst : Path) : M unit :=
  fun w =>
    let s := Paths.locate cwd src in
    let d := Paths.locate cwd dst in
    let t := fs w in
    let op := OpReplace s d in
    match s, d with
    | [], _ | _, [] => os_error op w
    | _, _ =>
        if negb (reachable t s && reachable t d) then os_error op w
        else
          match lookup t s, judge op with
          | Some (File c), Allow =>
              if is_dir t d then os_error op w
              else if Paths.seg_eqb s d then (Ok tt, w)
              else (Ok tt, with_fs (store (erase t s) d (File c)) w)
          | Some Dir, Allow =>
              if Paths.seg_eqb s d then (Ok tt, w)
              else if is_file t d || has_child t d then os_error op w
              else
                match Paths.strip_prefix s d with
                | Some _ => os_error op w
                | None => (Ok tt, with_fs (move_subtree (erase t d) s d) w)
                end
          | _, _ => os_error op w
          end
    end.

(** [p.expanduser()]. *)
Definition expanduser (p : Path) : M Path :=
  match anchor p, segs p with
  | EmptyString, String "~" user :: rest =>
      let home := os_expanduser (String "~" user) in
      match home with
      | String "~" _ => raise RuntimeError
      | _ =>
          let h := Paths.parse home in
          ret (mkPath (anchor h) (segs h ++ rest))
      end
  | _, _ => ret p
  end.

(** [p.resolve()]: the absolute path without dots; two leading slashes
    become one. *)
Definition resolve (p : Path) : Path :=
  mkPath "/" (Paths.locate cwd p).

(** [root.rglob("*.js")]: what lies below [root], at any depth, under
    a name that ends with [.js]; nothing when [root] is not a
    directory. *)
Definition rglob_js (root : Path) : M (list Path) :=
  fun w =>
    let r := Paths.locate cwd root in
    let t := fs w in
    if reachable t r && is_dir t r then
      (Ok (flat_map
             (fun kv =>
                match Paths.strip_prefix r (fst kv) with
                | Some (x :: rest) =>
                    if reachable t (fst kv)
                       && Text.endswith (last (x :: rest) "") ".js"
                    then [mkPath (anchor root) (segs root ++ x :: rest)]
                    else []
                | _ => []
                end) t), w)
    else (Ok [], w).
End Ops.

End Fs.

(* ------------------------------------------------------------------ *)
(** ** SHA-256, as [hashlib.sha256(data).hexdigest()] computes it *)

Module Sha256.
Local Open Scope N_scope.

Definition modulus : N := 4294967296.

Definition add32 (a b : N) : N := (a + b) mod modulus.

Definition rotr (n x : N) : N :=
  N.lor (N.shiftr x n) (N.shiftl x (32 - n) mod modulus).

Definition shr (n x : N) : N := N.shiftr x n.

Definition not32 (x : N) : N := N.lxor x (modulus - 1).

Definition Ch (x y z : N) : N :=
  N.lxor (N.land x y) (N.land (not32 x) z).

Definition Maj (x y z : N) : N :=
  N.lxor (N.lxor (N.land x y) (N.land x z)) (N.land y z).

Definition Sigma0 (x : N) : N :=
  N.lxor (N.lxor (rotr 2 x) (rotr 13 x)) (rotr 22 x).

Definition Sigma1 (x : N) : N :=
  N.lxor (N.lxor (rotr 6 x) (rotr 11 x)) (rotr 25 x).

Definition sigma0 (x : N) : N :=
  N.lxor (N.lxor (rotr 7 x) (rotr 18 x)) (shr 3 x).

Definition sigma1 (x : N) : N :=
  N.lxor (N.lxor (rotr 17 x) (rotr 19 x)) (shr 10 x).

Definition K : list N :=
  [ 1116352408; 1899447441; 3049323471; 3921009573;
    961987163; 1508970993; 2453635748; 2870763221;
    3624381080; 310598401; 607225278; 1426881987;
    1925078388; 2162078206; 2614888103; 3248222580;
    3835390401; 4022224774; 264347078; 604807628;
    770255983; 1249150122; 1555081692; 1996064986;
    2554220882; 2821834349; 2952996808; 3210313671;
    3336571891; 3584528711; 113926993; 338241895;
    666307205; 773529912; 1294757372; 1396182291;
    1695183700; 1986661051; 2177026350; 2456956037;
    2730485921; 2820302411; 3259730800; 3345764771;
    3516065817; 3600352804; 4094571909; 275423344;
    430227734; 506948616; 659060556; 883997877;
    958139571; 1322822218; 1537002063; 1747873779;
    1955562222; 2024104815; 2227730452; 2361852424;
    2428436474; 2756734187; 3204031479; 3329325298 ].

Definition H0 : list N :=
  [ 1779033703; 3144134277; 1013904242; 2773480762;
    1359893119; 2600822924; 528734635; 1541459225 ].

(** The length in bits on eight bytes, the high one first. *)
Fixpoint be_bytes (count : nat) (x : N) (acc : list N) : list N :=
  match count with
  | O => acc
  | S c => be_bytes c (x / 256) (x mod 256 :: acc)
  end.

(** The message, the byte 128, zeros up to 56 modulo 64, the length. *)
Definition pad (msg : list byte) : list N :=
  let len := N.of_nat (length msg) in
  let zeros := N.to_nat ((119 - len mod 64) mod 64) in
  map Byte.to_N msg ++ 128 :: repeat 0 zeros ++ be_bytes 8%nat (8 * len) [].

(** Words of four bytes, the high one first. *)
Fixpoint words (fuel : nat) (bs : list N) : list N :=
  match fuel, bs with
  | S f, a :: b :: c :: d :: rest =>
      (((a * 256 + b) * 256 + c) * 256 + d) :: words f rest
  | _, _ => []
  end.

(** The schedule, latest word first, grown by [n] words. *)
Fixpoint extend (n : nat) (w : list N) : list N :=
  match n with
  | O => w
  | S n' =>
      let x := add32 (add32 (sigma1 (nth 1%nat w 0)) (nth 6%nat w 0))
                     (add32 (sigma0 (nth 14%nat w 0)) (nth 15%nat w 0)) in
      extend n' (x :: w)
  end.

Definition schedule (block : list N) : list N :=
  rev (extend 48 (rev block)).

Definition state : Type := N * N * N * N * N * N * N * N.

Definition round (s : state) (kw : N * N) : state :=
  let '(a, b, c, d, e, f, g, h) := s in
  let t1 := add32 (add32 (add32 h (Sigma1 e)) (add32 (Ch e f g) (fst kw)))
                  (snd kw) in
  let t2 := add32 (Sigma0 a) (Maj a b c) in
  (add32 t1 t2, a, b, c, add32 d t1, e, f, g).

Definition compress (s : state) (block : list N) : state :=
  let '(a, b, c, d, e, f, g, h) :=
    fold_left round (combine K (schedule block)) s in
  let '(a0, b0, c0, d0, e0, f0, g0, h0) := s in
  (add32 a0 a, add32 b0 b, add32 c0 c, add32 d0 d,
   add32 e0 e, add32 f0 f, add32 g0 g, add32 h0 h).

Fixpoint blocks (fuel : nat) (ws : list N) (s : state) : state :=
  match fuel, ws with
  | S f, _ :: _ => blocks f (skipn 16 ws) (compress s (firstn 16 ws))
  | _, _ => s
  end.

Definition initial : state :=
  match H0 with
  | [a; b; c; d; e; f; g; h] => (a, b, c, d, e, f, g, h)
  | _ => (0, 0, 0, 0, 0, 0, 0, 0)
  end.

(** The digest as eight words. *)
Definition digest (msg : list byte) : list N :=
  let bs := pad msg in
  let ws := words (length bs) bs in
  let '(a, b, c, d, e, f, g, h) := blocks (length ws) ws initial in
  [a; b; c; d; e; f; g; h].

Definition hex_digit (n : N) : ascii :=
  if n <? 10 then ascii_of_N (48 + n) else ascii_of_N (87 + n).

(** [count] hexadecimal digits of [x], the high one first. *)
Fixpoint hex (count : nat) (x : N) (acc : string) : string :=
  match count with
  | O => acc
  | S c => hex c (x / 16) (String (hex_digit (x mod 16)) acc)
  end.

Definition hexdigest (msg : list byte) : string :=
  fold_right (fun w acc => hex 8%nat w acc) EmptyString (digest msg).

End Sha256.

(* ------------------------------------------------------------------ *)
(** ** The bootstrap tool *)

Local Open Scope string_scope.

Definition DEFAULT_ROOT : string := "strategies".
Definition DEFAULT_VERSION : string := "v1.0.0".
Definition DEFAULT_USAGE_OUTPUT : string := "usage.json".

Record ModuleInfo := mkModuleInfo {
  name : string;
  version : string;
  path : Path;
  source : list byte;
  metadata : pyobj;
  sha256 : string;
  versioned : bool
}.

(** One record of the [hashes] table: the keys [tag] and [path]. *)
Record location := mkLocation { tag : string; rel_path : string }.

(** One entry of the registry: the keys [tags] and [hashes]. *)
Record entry := mkEntry { tags : sdict string; hashes : sdict location }.

Definition registry : Type := sdict entry.

Definition lift {A} (r : result A) : M A := fun w => (r, w).

(** [o.get(k, default)]: only a dictionary has the method. *)
Definition py_get (o : pyobj) (k : string) (default : pyobj) : result pyobj :=
  match o with
  | PDict d => Ok (match sget d k with Some v => v | None => default end)
  | _ => Raise AttributeError
  end.

(** [d[k]]. *)
Definition subscript {V} (d : sdict V) (k : string) : result V :=
  match sget d k with
  | Some v => Ok v
  | None => Raise (KeyError k)
  end.

Definition newline : string := String "010" EmptyString.
Definition quote : string := String "034" EmptyString.

(** [json.dumps(registry, indent=2)]. *)
Module Json.

Definition hex4 (n : N) : string := Sha256.hex 4 n EmptyString.

(** One character between the quotes, non-ASCII escaped. *)
Definition escape_char (c : ascii) : string :=
  let n := Text.code c in
  if (n =? 34)%N then "\" ++ quote
  else if (n =? 92)%N then "\\"
  else if (n =? 10)%N then "\n"
  else if (n =? 13)%N then "\r"
  else if (n =? 9)%N then "\t"
  else if (n =? 12)%N then "\f"
  else if (n =? 8)%N then "\b"
  else if ((32 <=? n) && (n <=? 126))%N then String c EmptyString
  else "\u" ++ hex4 n.

Fixpoint escape (s : string) : string :=
  match s with
  | EmptyString => EmptyString
  | String c s' => escape_char c ++ escape s'
  end.

Definition str (s : string) : string := quote ++ escape s ++ quote.

Fixpoint pad (n : nat) : string :=
  match n with
  | O => EmptyString
  | S n' => String " " (pad n')
  end.

(** An object whose values are rendered already, its braces at the
    column [indent]. *)
Definition object (indent : nat) (items : list (string * string)) : string :=
  match items with
  | [] => "{}"
  | _ =>
      "{" ++ newline
      ++ Text.join ("," ++ newline)
           (map (fun kv => pad (indent + 2)%nat ++ str (fst kv) ++ ": " ++ snd kv)
                items)
      ++ newline ++ pad indent ++ "}"
  end.

Definition dumps_location (indent : nat) (l : location) : string :=
  object indent [("tag", str (tag l)); ("path", str (rel_path l))].

Definition dumps_entry (indent : nat) (e : entry) : string :=
  object indent
    [("tags", object (indent + 2)%nat
                (map (fun kv => (fst kv, str (snd kv))) (tags e)));
     ("hashes", object (indent + 2)%nat
                  (map (fun kv => (fst kv, dumps_location (indent + 4)%nat (snd kv)))
                       (hashes e)))].

Definition dumps (reg : registry) : string :=
  object 0 (map (fun kv => (fst kv, dumps_entry 2 (snd kv))) reg).

End Json.

(** [str(x)]. *)
Definition py_str {rt : Runtime} (o : pyobj) : string :=
  match o with
  | PStr s => s
  | PNone => "None"
  | PBool true => "True"
  | PBool false => "False"
  | PInt z => Text.of_Z z
  | _ => str_other o
  end.

(** [int(x)]: a float is cut towards zero. *)
Definition py_int {rt : Runtime} (o : pyobj) : result Z :=
  match o with
  | PInt z => Ok z
  | PBool b => Ok (if b then 1 else 0)%Z
  | PFloat FNan => Raise ValueError
  | PFloat (FInf _) => Raise OverflowError
  | PFloat (FFinite q) => Ok (Z.quot (Qnum q) (Zpos (Qden q)))
  | PStr s => match int_of_str s with Some z => Ok z | None => Raise ValueError end
  | PNone | PList _ | PDict _ => Raise TypeError
  end.

(** [parts[-1]] and [parts[-2]]. *)
Definition from_end (i : nat) (l : list string) : string := nth i (rev l) "".

Definition is_versioned_path (relative_path : Path) (name version : string) : bool :=
  let parts := Paths.parts relative_path in
  if (length parts <? 3)%nat then false
  else
    let filename := Text.lower (from_end 0 parts) in
    let expected := (name ++ ".js")%string in
    if negb (String.eqb filename expected) then false
    else
      let version_component := from_end 1 parts in
      String.eqb (Text.lower version_component) (Text.lower version).

(** [pick_latest_tag(tags)]. *)
Definition pick_latest_tag (tags : sdict string) : result string :=
  let candidates :=
    filter (fun tag => negb (String.eqb tag "latest")) (Dict.keys tags) in
  match candidates with
  | [] => Ok (match Dict.values tags with v :: _ => v | [] => "" end)
  | _ =>
      match Order.last_item (Order.sorted Order.str_le candidates) with
      | Some t => subscript tags t
      | None => Raise IndexError
      end
  end.

(** The body of the first loop of [build_registry], once the path to
    record is known: [setdefault], then the two assignments. *)
Definition record_module (reg : registry) (module : ModuleInfo) (rel : Path)
  : registry :=
  let current :=
    match sget reg (name module) with
    | Some e => e
    | None => mkEntry [] []
    end in
  sset reg (name module)
       (mkEntry (sset (tags current) (version module) (sha256 module))
                (sset (hashes current) (sha256 module)
                      (mkLocation (version module) (Paths.to_string rel)))).

(** The second loop of [build_registry], over [registry.values()]. *)
Fixpoint set_latest (reg : registry) : result registry :=
  match reg with
  | [] => Ok []
  | (n, e) :: reg' =>
      if Dict.truthy (tags e) then
        match pick_latest_tag (tags e) with
        | Ok h =>
            match set_latest reg' with
            | Ok r => Ok ((n, mkEntry (sset (tags e) "latest" h) (hashes e)) :: r)
            | Raise x => Raise x
            end
        | Raise x => Raise x
        end
      else
        match set_latest reg' with
        | Ok r => Ok ((n, e) :: r)
        | Raise x => Raise x
        end
  end.

Section Tool.
Context {rt : Runtime}.

Definition ensure_dir (path : string) : M Path :=
  let trimmed := Text.strip path in
  if negb (Text.truthy trimmed) then raise (BootstrapError "directory required")
  else
    expanded <- Fs.expanduser (Paths.parse trimmed) ;;
    let target := Fs.resolve expanded in
    Fs.mkdir target ;;;
    ret target.

Definition extract_metadata (path : Path) : M pyobj :=
  fun w =>
    match run_node (fs w) (Paths.to_string (Fs.resolve path)) with
    | NoSuchBinary =>
        raise (BootstrapError
                 "node binary not found (required to load metadata exports)") w
    | Completed returncode out err =>
        if negb (returncode =? 0)%Z then
          raise (BootstrapError
                   (Text.or_else (Text.strip err)
                      ("metadata extraction failed for " ++ Paths.to_string path))) w
        else
          match json_loads out with
          | inl v => ret v w
          | inr exc =>
              raise (BootstrapError
                       ("metadata export invalid for " ++ Paths.to_string path
                        ++ ": " ++ exc)) w
          end
    end.

Definition load_module (root path : Path) : M ModuleInfo :=
  source <- wrap_oserror (Fs.read_bytes path)
              (fun exc => "read " ++ Paths.to_string path ++ ": " ++ exc) ;;
  metadata <- extract_metadata path ;;
  name_field <- lift (py_get metadata "name" (PStr "")) ;;
  let name := Text.lower (Text.strip (py_str name_field)) in
  if negb (Text.truthy name) then
    raise (BootstrapError (Paths.to_string path ++ ": metadata.name required"))
  else
    version_field <- lift (py_get metadata "version" (PStr "")) ;;
    let version := Text.or_else (Text.strip (py_str version_field)) DEFAULT_VERSION in
    let sha := Sha256.hexdigest source in
    match Paths.relative_to path root with
    | None => raise ValueError
    | Some rel =>
        let versioned := is_versioned_path rel name version in
        ret (mkModuleInfo name version path source metadata
                          ("sha256:" ++ sha) versioned)
    end.

Fixpoint load_each (root : Path) (files : list Path) (modules : list ModuleInfo)
  : M (list ModuleInfo) :=
  match files with
  | [] => ret modules
  | js_file :: rest =>
      if String.eqb (Paths.name js_file) "registry.json" then
        load_each root rest modules
      else
        m <- load_module root js_file ;;
        load_each root rest (modules ++ [m])%list
  end.

Definition path_le (p q : Path) : bool :=
  Order.list_le (Paths.parts p) (Paths.parts q).

Definition discover_modules (root : Path) : M (list ModuleInfo) :=
  files <- Fs.rglob_js root ;;
  load_each root (Order.sorted path_le files) [].

Definition materialize_module (root : Path) (module : ModuleInfo) : M Path :=
  log (CallMaterialize (name module) (version module) (path module)) ;;;
  if versioned module then ret (path module)
  else
    let target_dir := Paths.join (Paths.join root (name module)) (version module) in
    Fs.mkdir target_dir ;;;
    let target_path := Paths.join target_dir (name module ++ ".js") in
    wrap_oserror
      (Fs.write_bytes target_path (source module) ;;;
       Fs.unlink (path module))
      (fun exc => "move module " ++ Paths.to_string (path module) ++ " -> "
                  ++ Paths.to_string target_path ++ ": " ++ exc) ;;;
    ret target_path.

(** The first loop of [build_registry]. *)
Fixpoint fold_modules (modules : list ModuleInfo) (root : Path) (write : bool)
         (reg : registry) : M registry :=
  match modules with
  | [] => ret reg
  | module :: rest =>
      module_path <- (if write then materialize_module root module
                      else ret (path module)) ;;
      match Paths.relative_to module_path root with
      | None => raise ValueError
      | Some rel => fold_modules rest root write (record_module reg module rel)
      end
  end.

Definition build_registry (modules : list ModuleInfo) (root : Path) (write : bool)
  : M registry :=
  reg <- fold_modules modules root write [] ;;
  lift (set_latest reg).

Definition write_registry (root : Path) (reg : registry) : M unit :=
  let tmp := Paths.join root "registry.json.tmp" in
  let target := Paths.join root "registry.json" in
  wrap_oserror
    (Fs.write_text tmp (Json.dumps reg ++ newline) ;;;
     Fs.replace tmp target)
    (fun exc => "write registry: " ++ exc).

Definition extract_usage_from_payload (payload source : string)
  : M (option (list pyobj)) :=
  match json_loads payload with
  | inr exc =>
      raise (BootstrapError ("usage export " ++ source ++ " invalid JSON: " ++ exc))
  | inl data =>
      let usage :=
        match data with
        | PDict d => match sget d "usage" with Some u => u | None => data end
        | _ => data
        end in
      match usage with
      | PList l => ret (Some l)
      | _ => raise (BootstrapError ("usage export " ++ source ++ " missing usage array"))
      end
  end.

Definition decode (bs : list byte) : M string :=
  match decode_utf8 bs with
  | Some s => ret s
  | None => raise ValueError
  end.

Definition read_usage (source output_path : option string)
  : M (option (list pyobj)) :=
  match source with
  | None | Some EmptyString => ret None
  | Some src =>
      if Text.startswith src "http://" || Text.startswith src "https://" then
        match urlopen src with
        | inr exc =>
            raise (BootstrapError ("fetch usage from " ++ src ++ ": " ++ exc))
        | inl body =>
            payload <- decode body ;;
            match output_path with
            | None | Some EmptyString => ret tt
            | Some out => Fs.write_text (Paths.parse out) payload
            end ;;;
            extract_usage_from_payload payload src
        end
      else
        let path := Paths.parse src in
        body <- wrap_oserror (Fs.read_bytes path)
                  (fun exc => "read usage export " ++ Paths.to_string path
                              ++ ": " ++ exc) ;;
        payload <- decode body ;;
        extract_usage_from_payload payload (Paths.to_string path)
  end.
End Tool.

(** Sequencing in [result]. *)
Definition and_then {A B} (r : result A) (k : A -> result B) : result B :=
  match r with
  | Ok a => k a
  | Raise e => Raise e
  end.

Notation "x <~ r ;; k" := (and_then r (fun x => k))
  (at level 61, r at next level, right associativity) : monad_scope.

Definition triple : Type := string * string * string.

Section Usage.
Context {rt : Runtime}.

(** The first loop of [report_usage]: the index of the usage records by
    name, then by hash. *)
Fixpoint index_usage (usage : list pyobj) (usage_index : sdict (sdict pyobj))
  : result (sdict (sdict pyobj)) :=
  match usage with
  | [] => Ok usage_index
  | entry :: rest =>
      strategy <~ py_get entry "strategy" (PStr "") ;;
      let name := Text.lower (Text.strip (py_str strategy)) in
      hash_field <~ py_get entry "hash" (PStr "") ;;
      let hash_value := Text.strip (py_str hash_field) in
      if negb (Text.truthy name) || negb (Text.truthy hash_value) then
        index_usage rest usage_index
      else
        let inner :=
          match sget usage_index name with Some d => d | None => [] end in
        index_usage rest (sset usage_index name (sset inner hash_value entry))
  end.

(** [count], after the [try] around [int(...)]. *)
Definition usage_count (usage_entry : option pyobj) : result Z :=
  match usage_entry with
  | None => Ok 0%Z
  | Some u =>
      field <~ py_get u "count" (PInt 0) ;;
      match py_int field with
      | Ok z => Ok z
      | Raise TypeError | Raise ValueError => Ok 0%Z
      | Raise e => Raise e
      end
  end.

(** The inner loop of [report_usage], over the [hashes] of one name. *)
Fixpoint scan_hashes (name : string) (records : sdict pyobj)
         (items : list (string * location)) (unused : list triple)
  : result (list triple) :=
  match items with
  | [] => Ok unused
  | (hash_value, location) :: rest =>
      let usage_entry := sget records hash_value in
      count <~ usage_count usage_entry ;;
      if match usage_entry with None => true | Some _ => false end
         || (count =? 0)%Z
      then
        let tag := Text.or_else (tag location) "(untagged)" in
        scan_hashes name records rest (unused ++ [(name, tag, hash_value)])%list
      else scan_hashes name records rest unused
  end.

(** The outer loop of [report_usage], over [registry.items()]. *)
Fixpoint scan_registry (usage_index : sdict (sdict pyobj)) (reg : registry)
         (unused : list triple) : result (list triple) :=
  match reg with
  | [] => Ok unused
  | (name, entry) :: rest =>
      let normalized := Text.lower name in
      let records :=
        match sget usage_index normalized with Some d => d | None => [] end in
      found <~ scan_hashes name records (hashes entry) unused ;;
      scan_registry usage_index rest found
  end.

(** The list [unused] of [report_usage] when the printing starts. *)
Definition unused_revisions (usage : list pyobj) (reg : registry)
  : result (list triple) :=
  usage_index <~ index_usage usage [] ;;
  scan_registry usage_index reg [].

Definition report_line (t : triple) : string :=
  let '(name, tag, hash_value) := t in
  "  - " ++ name ++ " " ++ tag ++ " [" ++ hash_value ++ "]".

Fixpoint print_all (lines : list string) : M unit :=
  match lines with
  | [] => ret tt
  | l :: rest => print l ;;; print_all rest
  end.

Definition report_usage (usage : list pyobj) (reg : registry) : M unit :=
  unused <- lift (unused_revisions usage reg) ;;
  print "" ;;;
  match unused with
  | [] =>
      print "usage report: no unused revisions detected (all tracked hashes have usage)."
  | _ =>
      print "usage report: revisions with zero running instances:" ;;;
      print_all (map report_line (Order.sorted Order.triple_le unused))
  end.

(** [rebuild_registry_once(root, write)] of [bootstrape.py]. *)
Definition rebuild_registry_once (root : Path) (write : bool) : M registry :=
  modules <- discover_modules root ;;
  match modules with
  | [] =>
      raise (BootstrapError
               ("no JavaScript strategies found under " ++ Paths.to_string root))
  | _ =>
      reg <- build_registry modules root write ;;
      write_registry root reg ;;;
      print ("registry.json generated for " ++ Text.of_nat (length reg)
             ++ " strategies under " ++ Paths.to_string root) ;;;
      (if negb write then
         print "filesystem left untouched (pass --write to reorganize)"
       else ret tt) ;;;
      ret reg
  end.

(** [main(argv)] of [bootstrap_strategies.py]. *)
Definition main (argv : list string) : M Z :=
  try_except
    (match parse_argv argv with
     | inr status => raise (SystemExit status)
     | inl (root_arg, write, usage, usage_output) =>
         root <- ensure_dir root_arg ;;
         modules <- discover_modules root ;;
         match modules with
         | [] =>
             raise (BootstrapError
                      ("no JavaScript strategies found under "
                       ++ Paths.to_string root))
         | _ =>
             reg <- build_registry modules root write ;;
             write_registry root reg ;;;
             print ("registry.json generated for " ++ Text.of_nat (length reg)
                    ++ " strategies under " ++ Paths.to_string root) ;;;
             (if negb write then
                print "filesystem left untouched (pass --write to reorganize)"
              else ret tt) ;;;
             usage_entries <- read_usage usage (Some usage_output) ;;
             match usage_entries with
             | Some (u :: us) => report_usage (u :: us) reg
             | _ => ret tt
             end ;;;
             ret 0%Z
         end
     end)
    (fun e =>
       match e with
       | BootstrapError msg => Some (eprint ("bootstrap: " ++ msg) ;;; ret 1%Z)
       | _ => None
       end).
End Usage.

(* ------------------------------------------------------------------ *)
(** ** The interactive tool of [bootstrape.py] *)

(** The console of the operator: the lines still to be read on the
    standard input, and the prompts that [input] has written.  A prompt
    is written without a newline, which is why the prompts are kept
    apart from the lines of [print]. *)
Record console := mkConsole { pending : list string; prompted : list string }.

Module Onboard.

Definition DEFAULT_ROOT : string := ".".

(** [input(prompt)]: [None] is the [EOFError] of an input that has
    ended. *)
Definition input (prompt : string) (con : console) : option string * console :=
  match pending con with
  | [] => (None, mkConsole [] (prompted con ++ [prompt])%list)
  | line :: rest => (Some line, mkConsole rest (prompted con ++ [prompt])%list)
  end.

(** [default or ""]. *)
Definition or_empty (default : option string) : string :=
  match default with
  | Some d => d
  | None => ""
  end.

(** [prompt_with_default(label, default)]. *)
Definition prompt_with_default (label : string) (default : option string)
           (con : console) : M (string * console) :=
  let suffix :=
    match default with
    | Some d => if Text.truthy d then " [" ++ d ++ "]" else ""
    | None => ""
    end in
  match input (label ++ suffix ++ ": ") con with
  | (None, con') => print "" ;;; ret (or_empty default, con')
  | (Some line, con') =>
      let value := Text.strip line in
      ret (Text.or_else value (or_empty default), con')
  end.

(** [prompt_bool(label, default)]. *)
Definition prompt_bool (label : string) (default : bool) (con : console)
  : M (bool * console) :=
  let default_label := if default then "Y/n" else "y/N" in
  match input (label ++ " (" ++ default_label ++ "): ") con with
  | (None, con') => print "" ;;; ret (default, con')
  | (Some line, con') =>
      let value := Text.lower (Text.strip line) in
      if negb (Text.truthy value) then ret (default, con')
      else ret (String.eqb value "y" || String.eqb value "yes", con')
  end.

Section Main.
Context {rt : Runtime}.

(** [main()] of [bootstrape.py]; only [rebuild_registry_once] is inside
    the [try]. *)
Definition main (con : console) : M (Z * console) :=
  print "=== Onboard Strategies ===" ;;;
  answer <- prompt_with_default "Strategies root" (Some DEFAULT_ROOT) con ;;
  let '(root_input, con1) := answer in
  root <- ensure_dir (Text.or_else root_input DEFAULT_ROOT) ;;
  answer <- prompt_bool "Normalize layout before writing registry?" true con1 ;;
  let '(normalize, con2) := answer in
  answer <- prompt_bool "Proceed with onboarding?" true con2 ;;
  let '(proceed, con3) := answer in
  if negb proceed then
    print "Aborted by operator." ;;;
    ret (0%Z, con3)
  else
    failed <- try_except
                (rebuild_registry_once root normalize ;;; ret false)
                (fun e =>
                   match e with
                   | BootstrapError msg =>
                       Some (print ("bootstrap: " ++ msg) ;;; ret true)
                   | _ => None
                   end) ;;
    if failed then ret (1%Z, con3)
    else
      (if negb normalize then
         print "(Layout left untouched; rerun and answer 'y' to reorganize if needed.)"
       else ret tt) ;;;
      print "Done." ;;;
      ret (0%Z, con3).
End Main.

End Onboard.

(* ------------------------------------------------------------------ *)
(** ** Notions used to state the properties *)

(** Where [build_registry] finds a module when it records it: where
    [materialize_module] puts it when the layout is rewritten, where it
    was discovered otherwise. *)
Definition final_path (root : Path) (write : bool) (module : ModuleInfo) : Path :=
  if write && negb (versioned module) then
    Paths.join (Paths.join (Paths.join root (name module)) (version module))
               (name module ++ ".js")
  else path module.

(** The record that [build_registry] stores for a module. *)
Definition recorded_location (root : Path) (write : bool) (module : ModuleInfo)
  : location :=
  mkLocation (version module)
    (match Paths.relative_to (final_path root write module) root with
     | Some rel => Paths.to_string rel
     | None => ""
     end).

(** The first loop of [build_registry] without its effects: [None] when a
    recorded path is not below the root. *)
Fixpoint record_all (modules : list ModuleInfo) (root : Path) (write : bool)
         (reg : registry) : option registry :=
  match modules with
  | [] => Some reg
  | module :: rest =>
      match Paths.relative_to (final_path root write module) root with
      | Some rel => record_all rest root write (record_module reg module rel)
      | None => None
      end
  end.

Definition tags_of (reg : registry) (n : string) : sdict string :=
  match sget reg n with Some e => tags e | None => [] end.

Definition hashes_of (reg : registry) (n : string) : sdict location :=
  match sget reg n with Some e => hashes e | None => [] end.

(** The last item of a list that passes a test. *)
Definition last_with {A} (test : A -> bool) (l : list A) : option A :=
  find test (rev l).

(** The module is named [n] and declares the version [v]. *)
Definition declares (n v : string) (m : ModuleInfo) : bool :=
  String.eqb (name m) n && String.eqb (version m) v.

(** The module is named [n] and has the content hash [h]. *)
Definition carries (n h : string) (m : ModuleInfo) : bool :=
  String.eqb (name m) n && String.eqb (sha256 m) h.

(** The content hash is the one [load_module] computes from the bytes. *)
Definition hashed (m : ModuleInfo) : Prop :=
  sha256 m = "sha256:" ++ Sha256.hexdigest (source m).

(** Equal when the case of the letters is left aside. *)
Definition ci_equal (a b : string) : Prop := Text.lower a = Text.lower b.

(** The canonical layout in the words of the specification: three
    segments exactly, the last one the name with its extension, the one
    before it the version, both compared without case. *)
Definition canonical_layout (rel : Path) (name version : string) : Prop :=
  length (Paths.parts rel) = 3%nat
  /\ ci_equal (from_end 0 (Paths.parts rel)) (name ++ ".js")
  /\ ci_equal (from_end 1 (Paths.parts rel)) version.

(** The layout that [is_versioned_path] accepts: three segments or more. *)
Definition versioned_layout (rel : Path) (name version : string) : Prop :=
  (3 <= length (Paths.parts rel))%nat
  /\ ci_equal (from_end 0 (Paths.parts rel)) (name ++ ".js")
  /\ ci_equal (from_end 1 (Paths.parts rel)) version.

(** A digit or one of the letters a to f. *)
Definition is_lower_hex (c : ascii) : bool :=
  let n := Text.code c in
  (((48 <=? n) && (n <=? 57)) || ((97 <=? n) && (n <=? 102)))%N.

Fixpoint all_chars (test : ascii -> bool) (s : string) : bool :=
  match s with
  | EmptyString => true
  | String c s' => test c && all_chars test s'
  end.

(** A place can be made a directory: it is one, or it is free and the
    machine lets it be created. *)
Definition creatable {rt : Runtime} (t : tree) (a : list string) : Prop :=
  Fs.lookup t a = Some Dir
  \/ (Fs.lookup t a = None /\ judge (OpMkdir a) = Allow).

(** The name and the hash under which [report_usage] indexes a usage
    record; [None] for a record it skips, the name or the hash being
    blank, and for a value that is no record. *)
Definition usage_key {rt : Runtime} (u : pyobj) : option (string * string) :=
  match u with
  | PDict d =>
      let name :=
        Text.lower (Text.strip (py_str (match sget d "strategy" with
                                        | Some v => v
                                        | None => PStr ""
                                        end))) in
      let hash_value :=
        Text.strip (py_str (match sget d "hash" with
                            | Some v => v
                            | None => PStr ""
                            end)) in
      if negb (Text.truthy name) || negb (Text.truthy hash_value) then None
      else Some (name, hash_value)
  | _ => None
  end.

(** The record is indexed under the name [k] and the hash [h]. *)
Definition indexed_at {rt : Runtime} (k h : string) (u : pyobj) : bool :=
  match usage_key u with
  | Some (k', h') => String.eqb k' k && String.eqb h' h
  | None => false
  end.

(** The usage record that matches a hash of the registry: the last one
    whose name, trimmed and in lower case, is the name in lower case and
    whose hash, trimmed, is the hash. *)
Definition matching_record {rt : Runtime} (usage : list pyobj) (n h : string)
  : option pyobj :=
  last_with (indexed_at (Text.lower n) h) usage.

(** The records of a name in the index. *)
Definition records_of (usage_index : sdict (sdict pyobj)) (k : string)
  : sdict pyobj :=
  match sget usage_index k with Some d => d | None => [] end.

(** The count of a usage record: what it holds under the key [count],
    and 0 when it has no such key; [None] for a value that is no
    record. *)
Definition count_field (u : pyobj) : option pyobj :=
  match u with
  | PDict d => Some (match sget d "count" with Some v => v | None => PInt 0 end)
  | _ => None
  end.

(** The count of the record stands for zero: [int] turns it into 0, or
    refuses it with a [TypeError] or a [ValueError]. *)
Definition counts_zero {rt : Runtime} (u : pyobj) : Prop :=
  exists f,
    count_field u = Some f
    /\ (py_int f = Ok 0%Z \/ py_int f = Raise TypeError
        \/ py_int f = Raise ValueError).

(** Unused, as amended: no matching record, or a matching record whose
    count is zero once converted, a count that does not convert being
    taken for zero. *)
Definition counted_unused {rt : Runtime} (usage : list pyobj) (n h : string) : Prop :=
  match matching_record usage n h with
  | None => True
  | Some u => counts_zero u
  end.

(** The lines that [report_usage] prints for a list of unused
    revisions. *)
Definition report_lines (unused : list triple) : list string :=
  "" :: match unused with
        | [] =>
            ["usage report: no unused revisions detected (all tracked hashes have usage)."]
        | _ :: _ =>
            "usage report: revisions with zero running instances:"
            :: map report_line (Order.sorted Order.triple_le unused)
        end.

(** Unused in the words of the specification: no matching record, or a
    count that is not positive or does not convert. *)
Definition claimed_unused {rt : Runtime} (usage : list pyobj) (n h : string) : Prop :=
  match matching_record usage n h with
  | None => True
  | Some u =>
      exists f,
        count_field u = Some f
        /\ ((exists z, py_int f = Ok z /\ (z <= 0)%Z)
            \/ py_int f = Raise TypeError \/ py_int f = Raise ValueError)
  end.

(** The line of the report for a record of the registry. *)
Definition report_entry (n h : string) (loc : location) : triple :=
  (n, Text.or_else (tag loc) "(untagged)", h).

(** Every hash of every entry is the value of one of its tags. *)
Definition hashes_are_tagged (reg : registry) : Prop :=
  forall n e h,
    sget reg n = Some e -> In h (Dict.keys (hashes e)) ->
    exists t, sget (tags e) t = Some h.

(** Every module has its discovery-time path, relative to the root, in the
    record of its hash. *)
Definition records_original_paths (root : Path) (ms : list ModuleInfo)
           (reg : registry) : Prop :=
  forall m, In m ms ->
    exists e loc rel,
      sget reg (name m) = Some e
      /\ sget (hashes e) (sha256 m) = Some loc
      /\ Paths.relative_to (path m) root = Some rel
      /\ rel_path loc = Paths.to_string rel.

(** The two versions are tags of the hash of [m2], which has one record,
    the one of [m2]. *)
Definition aliased (root : Path) (write : bool) (reg : registry)
           (m1 m2 : ModuleInfo) : Prop :=
  exists e,
    sget reg (name m2) = Some e
    /\ sget (tags e) (version m1) = Some (sha256 m2)
    /\ sget (tags e) (version m2) = Some (sha256 m2)
    /\ count_occ string_dec (Dict.keys (hashes e)) (sha256 m2) = 1%nat
    /\ sget (hashes e) (sha256 m2) = Some (recorded_location root write m2).

(* ------------------------------------------------------------------ *)
(** ** Notions used to state further properties *)

(** The items of a list in the order in which they are first seen. *)
Definition seen_step (acc : list string) (x : string) : list string :=
  if existsb (String.eqb x) acc then acc else acc ++ [x].

Definition first_seen (l : list string) : list string := fold_left seen_step l [].

(** The ghost event of a call to [materialize_module]. *)
Definition call_of (m : ModuleInfo) : event :=
  CallMaterialize (name m) (version m) (path m).

(** A string that is the name of one place below a directory: without a
    slash, not empty, and neither a dot nor a double dot. *)
Fixpoint has_slash (s : string) : bool :=
  match s with
  | EmptyString => false
  | String c s' => Ascii.eqb c "/" || has_slash s'
  end.

Definition plain (s : string) : bool :=
  negb (has_slash s) && Paths.keep_seg s && negb (String.eqb s "..").

(** The value is a JSON object. *)
Definition is_record (u : pyobj) : bool :=
  match u with PDict _ => true | _ => false end.

(** The places of the manifest and of its temporary file. *)
Definition manifest_key {rt : Runtime} (root : Path) : list string :=
  Paths.locate cwd (Paths.join root "registry.json").

Definition manifest_tmp_key {rt : Runtime} (root : Path) : list string :=
  Paths.locate cwd (Paths.join root "registry.json.tmp").

(** The canonical place of a module: [root/name/version/name.js]. *)
Definition canonical_path (root : Path) (m : ModuleInfo) : Path :=
  Paths.join (Paths.join (Paths.join root (name m)) (version m))
             (name m ++ ".js").

(** An answer that [prompt_bool] takes for a no: not blank, and neither
    [y] nor [yes] once the spaces around it and the capitals are gone. *)
Definition declines (line : string) : bool :=
  let value := Text.lower (Text.strip line) in
  Text.truthy value && negb (String.eqb value "y") && negb (String.eqb value "yes").


(** The world with one more line on the standard output. *)
Definition with_line (line : string) (w : world) : world :=
  mkWorld (fs w) (stdout w ++ [line])%list (stderr w) (trace w).

(* ------------------------------------------------------------------ *)
(** ** Sample inputs *)

Module Sample.

Definition bytes (s : string) : list byte := list_byte_of_string s.

Definition root : Path := mkPath "/" ["srv"; "strategies"].

(** What the sample modules export, by the file that holds them. *)
Definition exports (file : string) : pyobj + string :=
  if String.eqb file "/srv/strategies/foo.js" then
    inl (PDict [("name", PStr "Foo"); ("version", PStr " v2 ")])
  else if String.eqb file "/srv/strategies/bar/v1/bar.js" then
    inl (PDict [("name", PStr "bar"); ("version", PStr "v1")])
  else if String.eqb file "/srv/strategies/x/bar.js" then
    inl (PDict [("name", PStr "bar"); ("version", PStr "v10")])
  else if String.eqb file "/srv/strategies/old/bar/v1/bar.js" then
    inl (PDict [("name", PStr "bar"); ("version", PStr "v1")])
  else if String.eqb file "/srv/strategies/anon.js" then
    inl (PDict [("version", PStr "v3")])
  else inr "Expecting value: line 1 column 1 (char 0)".

(** A machine that refuses nothing; [node] prints the name of the file,
    which [json.loads] turns into the exports above. *)
Definition runtime : Runtime := {|
  cwd := ["home"; "operator"];
  os_expanduser := fun _ => "/home/operator";
  judge := fun _ => Allow;
  strerror := fun _ => "[Errno] operation failed";
  run_node := fun _ file => Completed 0 file "";
  json_loads := exports;
  str_other := fun _ => "{}";
  int_of_str := fun _ => None;
  urlopen := fun _ => inr "<urlopen error>";
  decode_utf8 := fun bs => Some (string_of_list_byte bs);
  parse_argv := fun argv =>
    inl ("/srv/strategies",
         match argv with [] => false | _ => true end, None, "usage.json")
|}.

(** The same machine with a disk that takes no new file. *)
Definition full_disk : Runtime := {|
  cwd := ["home"; "operator"];
  os_expanduser := fun _ => "/home/operator";
  judge := fun op => match op with OpWrite _ => Deny | _ => Allow end;
  strerror := fun _ => "[Errno 28] No space left on device";
  run_node := fun _ file => Completed 0 file "";
  json_loads := exports;
  str_other := fun _ => "{}";
  int_of_str := fun _ => None;
  urlopen := fun _ => inr "<urlopen error>";
  decode_utf8 := fun bs => Some (string_of_list_byte bs);
  parse_argv := fun argv =>
    inl ("/srv/strategies",
         match argv with [] => false | _ => true end, None, "usage.json")
|}.

Definition tree0 : tree :=
  [ (["srv"], Dir);
    (["srv"; "strategies"], Dir);
    (["srv"; "strategies"; "foo.js"], File (bytes "exports.metadata = 1"));
    (["srv"; "strategies"; "x"], Dir);
    (["srv"; "strategies"; "x"; "bar.js"], File (bytes "exports.metadata = 2"));
    (["srv"; "strategies"; "bar"], Dir);
    (["srv"; "strategies"; "bar"; "v1"], Dir);
    (["srv"; "strategies"; "bar"; "v1"; "bar.js"],
     File (bytes "exports.metadata = 3"));
    (["srv"; "strategies"; "registry.json"], File (bytes "{}")) ].

Definition world0 : world := mkWorld tree0 [] [] [].

(** A machine where nothing has been created yet. *)
Definition world_bare : world := mkWorld [] [] [] [].

(** The tree with one more copy of a module, one level down. *)
Definition tree_nested : tree :=
  (tree0 ++ [ (["srv"; "strategies"; "old"], Dir);
              (["srv"; "strategies"; "old"; "bar"], Dir);
              (["srv"; "strategies"; "old"; "bar"; "v1"], Dir);
              (["srv"; "strategies"; "old"; "bar"; "v1"; "bar.js"],
               File (bytes "exports.metadata = 3")) ])%list.

Definition world_nested : world := mkWorld tree_nested [] [] [].

Definition nested_file : Path :=
  mkPath "/" ["srv"; "strategies"; "old"; "bar"; "v1"; "bar.js"].

(** The tree with a module that exports no name. *)
Definition tree_anon : tree :=
  (tree0 ++ [ (["srv"; "strategies"; "anon.js"],
               File (bytes "exports.metadata = {version: 3}")) ])%list.

Definition world_anon : world := mkWorld tree_anon [] [] [].

Definition anon_file : Path := mkPath "/" ["srv"; "strategies"; "anon.js"].

(** What the discovery finds in that tree, before sorting. *)
Definition anon_files : list Path :=
  [ mkPath "/" ["srv"; "strategies"; "foo.js"];
    mkPath "/" ["srv"; "strategies"; "x"; "bar.js"];
    mkPath "/" ["srv"; "strategies"; "bar"; "v1"; "bar.js"];
    anon_file ].

(** A module as [load_module] makes it. *)
Definition module (n v : string) (file : list string) (content : string)
  : ModuleInfo :=
  mkModuleInfo n v (mkPath "/" (segs root ++ file)) (bytes content)
               (PDict [("name", PStr n); ("version", PStr v)])
               ("sha256:" ++ Sha256.hexdigest (bytes content))
               (is_versioned_path (mkPath "" file) n v).

Definition foo_v1_a : ModuleInfo := module "foo" "v1" ["a.js"] "aaa".
Definition foo_v1_b : ModuleInfo := module "foo" "v1" ["b.js"] "bbb".
Definition foo_v2_a : ModuleInfo := module "foo" "v2" ["c.js"] "aaa".
Definition foo_v1_copy : ModuleInfo := module "foo" "v1" ["copy"; "a.js"] "aaa".
Definition bar_v1 : ModuleInfo := module "bar" "v1" ["bar"; "v1"; "bar.js"] "one".
Definition bar_v10 : ModuleInfo := module "bar" "v10" ["x"; "bar.js"] "ten".

(** What [load_module] returns on a file, a module without a name when it
    raises. *)
Definition loaded (file : Path) (w : world) : ModuleInfo :=
  match fst (@load_module runtime root file w) with
  | Ok m => m
  | Raise _ => mkModuleInfo "" "" file [] PNone "" false
  end.

Definition bar_file : Path := mkPath "/" ["srv"; "strategies"; "bar"; "v1"; "bar.js"].

Definition foo_file : Path := mkPath "/" ["srv"; "strategies"; "foo.js"].

Definition loaded_bar : ModuleInfo := Eval vm_compute in loaded bar_file world0.

Definition loaded_foo : ModuleInfo := Eval vm_compute in loaded foo_file world0.

Definition loaded_nested : ModuleInfo :=
  Eval vm_compute in loaded nested_file world_nested.

(** What [build_registry] returns on a list, the empty registry when it
    raises. *)
Definition built (ms : list ModuleInfo) (write : bool) (w : world) : registry :=
  match fst (@build_registry runtime ms root write w) with
  | Ok reg => reg
  | Raise _ => []
  end.

Definition registry_bar : registry :=
  Eval vm_compute in built [bar_v1; bar_v10] false world0.

Definition registry_clash : registry :=
  Eval vm_compute in built [foo_v1_a; foo_v1_b] false world0.

Definition registry_copy : registry :=
  Eval vm_compute in built [foo_v1_a; foo_v1_copy] false world0.

Definition registry_alias : registry :=
  Eval vm_compute in built [foo_v1_a; foo_v2_a] false world0.

Definition registry_override : registry :=
  Eval vm_compute in built [foo_v1_a; foo_v2_a; foo_v1_b] false world0.

(** A usage export: [bar] at [v1] has no running instance, [bar] at [v10]
    has three. *)
Definition usage_record (n h : string) (count : Z) : pyobj :=
  PDict [("strategy", PStr n); ("hash", PStr h); ("count", PInt count)].

Definition usage_idle : list pyobj :=
  [ usage_record "bar" (sha256 bar_v1) 0; usage_record "Bar " (sha256 bar_v10) 3 ].

(** A usage export where the count of the first version is a word. *)
Definition usage_words : list pyobj :=
  [ PDict [("strategy", PStr "bar"); ("hash", PStr (sha256 bar_v1));
           ("count", PStr "many")];
    usage_record "bar" (sha256 bar_v10) 3 ].

(** A usage export with a count below zero. *)
Definition usage_negative : list pyobj :=
  [ usage_record "bar" (sha256 bar_v1) (-1); usage_record "bar" (sha256 bar_v10) 3 ].

(** The entry of [bar] in the sample registry and the record of its first
    version. *)
Definition entry_bar : entry :=
  Eval vm_compute in
    match sget registry_bar "bar" with
    | Some e => e
    | None => mkEntry [] []
    end.

Definition location_bar_v1 : location := mkLocation "v1" "bar/v1/bar.js".

(** Modules of two names, interleaved. *)
Definition mixed : list ModuleInfo := [bar_v1; foo_v1_a; bar_v10; foo_v1_b].

Definition registry_mixed : registry :=
  Eval vm_compute in built mixed false world0.

(** A module found outside the root. *)
Definition stray : ModuleInfo :=
  mkModuleInfo "stray" "v1" (mkPath "/" ["tmp"; "stray.js"]) (bytes "s")
               (PDict [("name", PStr "stray")])
               ("sha256:" ++ Sha256.hexdigest (bytes "s")) false.

(** A machine that is on line: every URL answers with a page that is no
    JSON. *)
Definition online : Runtime := {|
  cwd := ["home"; "operator"];
  os_expanduser := fun _ => "/home/operator";
  judge := fun _ => Allow;
  strerror := fun _ => "[Errno] operation failed";
  run_node := fun _ file => Completed 0 file "";
  json_loads := exports;
  str_other := fun _ => "{}";
  int_of_str := fun _ => None;
  urlopen := fun _ => inl (bytes "<html>busy</html>");
  decode_utf8 := fun bs => Some (string_of_list_byte bs);
  parse_argv := fun argv =>
    inl ("/srv/strategies", false, Some "http://localhost:8880/strategies/registry",
         "usage.json")
|}.

(** A tree with the working directory of the process. *)
Definition world_home : world :=
  mkWorld [ (["home"], Dir); (["home"; "operator"], Dir) ] [] [] [].

(** A usage export where a count is infinite: [json.loads] reads the
    literal [Infinity]. *)
Definition usage_infinite : list pyobj :=
  [ PDict [("strategy", PStr "bar"); ("hash", PStr (sha256 bar_v1));
           ("count", PFloat (FInf false))] ].

(** A usage export with two records for one hash, a blank one and a value
    that is no record. *)
Definition usage_twice : list pyobj :=
  [ usage_record "bar" (sha256 bar_v1) 5;
    usage_record "" (sha256 bar_v1) 9;
    usage_record " BAR" (sha256 bar_v1) 0 ].

(** A module that declares the version [latest], and the registry of
    that module followed by another version of the same name. *)
Definition foo_latest : ModuleInfo := module "foo" "latest" ["a.js"] "aaa".

Definition registry_latest : registry :=
  Eval vm_compute in built [foo_latest; foo_v1_b] false world0.

(** A machine whose modules all export the name [foo] and a dot as
    version. *)
Definition dotted : Runtime := {|
  cwd := ["home"; "operator"];
  os_expanduser := fun _ => "/home/operator";
  judge := fun _ => Allow;
  strerror := fun _ => "[Errno] operation failed";
  run_node := fun _ file => Completed 0 file "";
  json_loads := fun _ => inl (PDict [("name", PStr "foo"); ("version", PStr ".")]);
  str_other := fun _ => "{}";
  int_of_str := fun _ => None;
  urlopen := fun _ => inr "<urlopen error>";
  decode_utf8 := fun bs => Some (string_of_list_byte bs);
  parse_argv := fun argv => inl ("/srv/strategies", true, None, "usage.json")
|}.

(** A machine whose modules all export the number 1 as metadata. *)
Definition scalar : Runtime := {|
  cwd := ["home"; "operator"];
  os_expanduser := fun _ => "/home/operator";
  judge := fun _ => Allow;
  strerror := fun _ => "[Errno] operation failed";
  run_node := fun _ file => Completed 0 file "";
  json_loads := fun _ => inl (PInt 1);
  str_other := fun _ => "{}";
  int_of_str := fun _ => None;
  urlopen := fun _ => inr "<urlopen error>";
  decode_utf8 := fun bs => Some (string_of_list_byte bs);
  parse_argv := fun argv => inl ("/srv/strategies", false, None, "usage.json")
|}.

(** A tree with one module, in a directory of its name. *)
Definition tree_dotted : tree :=
  [ (["srv"], Dir);
    (["srv"; "strategies"], Dir);
    (["srv"; "strategies"; "foo"], Dir);
    (["srv"; "strategies"; "foo"; "foo.js"], File (bytes "exports.metadata = 4")) ].

Definition world_dotted : world := mkWorld tree_dotted [] [] [].

Definition dotted_file : Path := mkPath "/" ["srv"; "strategies"; "foo"; "foo.js"].

Definition loaded_dotted : ModuleInfo :=
  Eval vm_compute in
    match fst (@load_module dotted root dotted_file world_dotted) with
    | Ok m => m
    | Raise _ => mkModuleInfo "" "" dotted_file [] PNone "" false
    end.

(** A machine that is given a usage export in a file, which holds the
    empty list. *)
Definition idle : Runtime := {|
  cwd := ["home"; "operator"];
  os_expanduser := fun _ => "/home/operator";
  judge := fun _ => Allow;
  strerror := fun _ => "[Errno] operation failed";
  run_node := fun _ file => Completed 0 file "";
  json_loads := fun s => if String.eqb s "[]" then inl (PList []) else exports s;
  str_other := fun _ => "{}";
  int_of_str := fun _ => None;
  urlopen := fun _ => inr "<urlopen error>";
  decode_utf8 := fun bs => Some (string_of_list_byte bs);
  parse_argv := fun argv =>
    inl ("/srv/strategies", false, Some "/srv/usage.json", "usage.json")
|}.

Definition world_idle : world :=
  mkWorld (tree0 ++ [ (["srv"; "usage.json"], File (bytes "[]")) ])%list [] [] [].

End Sample.

(* ================================================================== *)
(** * Properties *)

Local Open Scope list_scope.

(* ------------------------------------------------------------------ *)
(** ** Order on strings, sorting *)

Lemma ascii_compare_refl (c : ascii) : Ascii.compare c c = Eq.
Proof. unfold Ascii.compare. apply N.compare_refl. Qed.

Lemma ascii_compare_lt_trans (a b c : ascii) :
  Ascii.compare a b = Lt -> Ascii.compare b c = Lt -> Ascii.compare a c = Lt.
Proof.
  unfold Ascii.compare. rewrite !N.compare_lt_iff. apply N.lt_trans.
Qed.

Lemma string_compare_refl (s : string) : String.compare s s = Eq.
Proof.
  induction s as [|c s IH]; simpl; [reflexivity|].
  now rewrite ascii_compare_refl.
Qed.

Lemma string_compare_trans (a : string) : forall b c,
  String.compare a b <> Gt -> String.compare b c <> Gt ->
  String.compare a c <> Gt.
Proof.
  induction a as [|x a IH]; intros [|y b] [|z c]; simpl; try congruence.
  destruct (Ascii.compare x y) eqn:Exy; try congruence;
    destruct (Ascii.compare y z) eqn:Eyz; try congruence; intros Hab Hbc.
  - apply Ascii.compare_eq_iff in Exy, Eyz. subst.
    rewrite ascii_compare_refl. now apply IH with b.
  - apply Ascii.compare_eq_iff in Exy. subst. now rewrite Eyz.
  - apply Ascii.compare_eq_iff in Eyz. subst. now rewrite Exy.
  - now rewrite (ascii_compare_lt_trans _ _ _ Exy Eyz).
Qed.

Lemma str_le_refl (a : string) : Order.str_le a a = true.
Proof. unfold Order.str_le, String.leb. now rewrite string_compare_refl. Qed.

Lemma str_le_trans (a b c : string) :
  Order.str_le a b = true -> Order.str_le b c = true -> Order.str_le a c = true.
Proof.
  unfold Order.str_le, String.leb. intros Hab Hbc.
  assert (H : String.compare a c <> Gt).
  { apply string_compare_trans with b.
    - destruct (String.compare a b); congruence.
    - destruct (String.compare b c); congruence. }
  destruct (String.compare a c); congruence.
Qed.

Lemma str_le_total (a b : string) :
  Order.str_le a b = true \/ Order.str_le b a = true.
Proof. apply String.leb_total. Qed.

Section SortFacts.
Variable A : Type.
Variable le : A -> A -> bool.
Hypothesis le_total : forall a b, le a b = true \/ le b a = true.
Hypothesis le_trans : forall a b c, le a b = true -> le b c = true -> le a c = true.

Let lep (a b : A) : Prop := le a b = true.

Lemma insert_perm (x : A) (l : list A) :
  Permutation (Order.insert le x l) (x :: l).
Proof.
  induction l as [|y l IH]; simpl; [reflexivity|].
  destruct (le y x); [|reflexivity].
  rewrite IH. apply perm_swap.
Qed.

Lemma insert_sorted (x : A) (l : list A) :
  StronglySorted lep l -> StronglySorted lep (Order.insert le x l).
Proof.
  induction 1 as [|y l Hs IH Hy]; simpl.
  - constructor; [constructor|constructor].
  - destruct (le y x) eqn:E.
    + constructor; [exact IH|].
      rewrite Forall_forall in *. intros z Hz.
      apply (Permutation_in _ (insert_perm x l)) in Hz.
      destruct Hz as [<-|Hz]; [exact E|now apply Hy].
    + assert (Hxy : lep x y).
      { destruct (le_total x y) as [H|H]; [exact H|congruence]. }
      constructor; [constructor; assumption|].
      constructor; [exact Hxy|].
      rewrite Forall_forall in *. intros z Hz.
      apply le_trans with y; [exact Hxy|now apply Hy].
Qed.

Lemma sorted_from (l acc : list A) :
  StronglySorted lep acc ->
  StronglySorted lep (fold_left (fun a x => Order.insert le x a) l acc)
  /\ Permutation (fold_left (fun a x => Order.insert le x a) l acc) (l ++ acc).
Proof.
  revert acc. induction l as [|x l IH]; intros acc Hacc; simpl.
  - split; [exact Hacc|reflexivity].
  - destruct (IH (Order.insert le x acc) (insert_sorted x acc Hacc)) as [Hs Hp].
    split; [exact Hs|].
    rewrite Hp. rewrite (insert_perm x acc).
    symmetry. apply Permutation_middle.
Qed.

Lemma sorted_sorted (l : list A) : StronglySorted lep (Order.sorted le l).
Proof. apply sorted_from. constructor. Qed.

Lemma sorted_perm (l : list A) : Permutation (Order.sorted le l) l.
Proof.
  destruct (sorted_from l []) as [_ Hp]; [constructor|].
  unfold Order.sorted. rewrite Hp. now rewrite app_nil_r.
Qed.

Lemma last_item_spec (l : list A) (m : A) :
  Order.last_item l = Some m -> exists l', l = l' ++ [m].
Proof.
  unfold Order.last_item. destruct (rev l) as [|x r] eqn:E; [discriminate|].
  intros [= ->]. exists (rev r).
  rewrite <- (rev_involutive l), E. reflexivity.
Qed.

Lemma last_item_some (l : list A) :
  l <> [] -> exists m, Order.last_item l = Some m.
Proof.
  intros Hl. unfold Order.last_item.
  destruct (rev l) as [|x r] eqn:E; [|eauto].
  apply (f_equal (@rev A)) in E. rewrite rev_involutive in E. now subst.
Qed.

Lemma sorted_last_greatest (l' : list A) (m : A) :
  (forall a, le a a = true) ->
  StronglySorted lep (l' ++ [m]) -> forall x, In x (l' ++ [m]) -> le x m = true.
Proof.
  intros Hrefl. induction l' as [|y l' IH]; simpl; intros Hs x Hx.
  - destruct Hx as [<-|[]]. apply Hrefl.
  - inversion Hs as [|? ? Hs' Hy]; subst.
    destruct Hx as [<-|Hx]; [|now apply IH].
    rewrite Forall_forall in Hy. apply Hy.
    apply in_or_app. right. now left.
Qed.

(** The last item of a sorted list is one of its items and is above all
    of them. *)
Lemma sorted_last_max (l : list A) (m : A) :
  (forall a, le a a = true) ->
  Order.last_item (Order.sorted le l) = Some m ->
  In m l /\ forall x, In x l -> le x m = true.
Proof.
  intros Hrefl Hm.
  destruct (last_item_spec _ _ Hm) as [l' El].
  pose proof (sorted_sorted l) as Hs. pose proof (sorted_perm l) as Hp.
  rewrite El in Hs, Hp. split.
  - apply (Permutation_in _ Hp). apply in_or_app. right. now left.
  - intros x Hx. apply (sorted_last_greatest l' m Hrefl Hs).
    apply (Permutation_in _ (Permutation_sym Hp) Hx).
Qed.
End SortFacts.

(* ------------------------------------------------------------------ *)
(** ** Dictionaries *)

Section DictFacts.
Variables K V : Type.
Variable eqb : K -> K -> bool.
Hypothesis eqb_eq : forall a b, eqb a b = true <-> a = b.

Lemma eqb_same (a : K) : eqb a a = true.
Proof. now apply eqb_eq. Qed.

Lemma eqb_diff (a b : K) : a <> b -> eqb a b = false.
Proof.
  intros H. destruct (eqb a b) eqn:E; [|reflexivity].
  apply eqb_eq in E. contradiction.
Qed.

Lemma get_set_same (d : Dict.t K V) k v :
  Dict.get eqb (Dict.set eqb d k v) k = Some v.
Proof.
  induction d as [|[k' v'] d IH]; simpl.
  - now rewrite eqb_same.
  - destruct (eqb k' k) eqn:E; simpl; rewrite E; [reflexivity|exact IH].
Qed.

Lemma get_set_other (d : Dict.t K V) k k' v :
  k <> k' -> Dict.get eqb (Dict.set eqb d k v) k' = Dict.get eqb d k'.
Proof.
  intros Hk. induction d as [|[k0 v0] d IH]; simpl.
  - now rewrite eqb_diff.
  - destruct (eqb k0 k) eqn:E; simpl.
    + apply eqb_eq in E. subst k0. now rewrite eqb_diff.
    + now rewrite IH.
Qed.

Lemma get_in (d : Dict.t K V) k v :
  Dict.get eqb d k = Some v -> In (k, v) d.
Proof.
  induction d as [|[k' v'] d IH]; simpl; [discriminate|].
  destruct (eqb k' k) eqn:E.
  - apply eqb_eq in E. intros [= ->]. subst. now left.
  - intros H. right. now apply IH.
Qed.

Lemma get_in_keys (d : Dict.t K V) k v :
  Dict.get eqb d k = Some v -> In k (Dict.keys d).
Proof.
  intros H. apply get_in in H. apply (in_map fst) in H. exact H.
Qed.

Lemma get_in_values (d : Dict.t K V) k v :
  Dict.get eqb d k = Some v -> In v (Dict.values d).
Proof.
  intros H. apply get_in in H. apply (in_map snd) in H. exact H.
Qed.

Lemma in_keys_get (d : Dict.t K V) k :
  In k (Dict.keys d) -> exists v, Dict.get eqb d k = Some v.
Proof.
  induction d as [|[k' v'] d IH]; simpl; [intros []|].
  destruct (eqb k' k) eqn:E; [eauto|].
  intros [H|H]; [|now apply IH].
  subst. now rewrite eqb_same in E.
Qed.

Lemma get_none_not_in (d : Dict.t K V) k :
  Dict.get eqb d k = None -> ~ In k (Dict.keys d).
Proof.
  intros H Hin. apply in_keys_get in Hin. destruct Hin as [v Hv]. congruence.
Qed.

Lemma in_get_nodup (d : Dict.t K V) k v :
  NoDup (Dict.keys d) -> In (k, v) d -> Dict.get eqb d k = Some v.
Proof.
  induction d as [|[k' v'] d IH]; simpl; [intros _ []|].
  intros Hnd Hin. inversion Hnd as [|? ? Hk' Hnd']; subst.
  destruct Hin as [[= -> ->]|Hin].
  - now rewrite eqb_same.
  - destruct (eqb k' k) eqn:E; [|now apply IH].
    apply eqb_eq in E. subst. exfalso. apply Hk'.
    apply (in_map fst) in Hin. exact Hin.
Qed.

Lemma keys_set (d : Dict.t K V) k v x :
  In x (Dict.keys (Dict.set eqb d k v)) <-> x = k \/ In x (Dict.keys d).
Proof.
  induction d as [|[k' v'] d IH]; simpl.
  - intuition.
  - destruct (eqb k' k) eqn:E; simpl.
    + apply eqb_eq in E. subst. intuition.
    + rewrite IH. intuition.
Qed.

Lemma nodup_set (d : Dict.t K V) k v :
  NoDup (Dict.keys d) -> NoDup (Dict.keys (Dict.set eqb d k v)).
Proof.
  induction d as [|[k' v'] d IH]; simpl; intros Hnd.
  - constructor; [intros []|constructor].
  - inversion Hnd as [|? ? Hk' Hnd']; subst.
    destruct (eqb k' k) eqn:E; simpl.
    + constructor; assumption.
    + constructor; [|now apply IH].
      intros Hin. apply keys_set in Hin. destruct Hin as [->|Hin].
      * now rewrite eqb_same in E.
      * contradiction.
Qed.

Lemma get_remove_same (d : Dict.t K V) k :
  Dict.get eqb (Dict.remove eqb d k) k = None.
Proof.
  induction d as [|[k' v'] d IH]; simpl; [reflexivity|].
  destruct (eqb k' k) eqn:E; simpl; [exact IH|]. now rewrite E.
Qed.

Lemma get_remove_other (d : Dict.t K V) k k' :
  k <> k' -> Dict.get eqb (Dict.remove eqb d k) k' = Dict.get eqb d k'.
Proof.
  intros Hk. induction d as [|[k0 v0] d IH]; simpl; [reflexivity|].
  destruct (eqb k0 k) eqn:E; simpl.
  - apply eqb_eq in E. subst k0. now rewrite eqb_diff.
  - now rewrite IH.
Qed.

Lemma truthy_set (d : Dict.t K V) k v : Dict.truthy (Dict.set eqb d k v) = true.
Proof.
  destruct d as [|[k' v'] d]; simpl; [reflexivity|].
  now destruct (eqb k' k).
Qed.
End DictFacts.

Lemma seg_eqb_eq (a b : list string) : Paths.seg_eqb a b = true <-> a = b.
Proof.
  unfold Paths.seg_eqb. destruct (list_eq_dec string_dec a b); split; congruence.
Qed.

Lemma sget_set_same {V} (d : sdict V) k v : sget (sset d k v) k = Some v.
Proof. apply get_set_same, String.eqb_eq. Qed.

Lemma sget_set_other {V} (d : sdict V) k k' v :
  k <> k' -> sget (sset d k v) k' = sget d k'.
Proof. apply get_set_other, String.eqb_eq. Qed.

Lemma sget_in {V} (d : sdict V) k v : sget d k = Some v -> In (k, v) d.
Proof. apply get_in, String.eqb_eq. Qed.

Lemma sget_in_keys {V} (d : sdict V) k v : sget d k = Some v -> In k (Dict.keys d).
Proof. apply get_in_keys, String.eqb_eq. Qed.

Lemma sget_in_values {V} (d : sdict V) k v :
  sget d k = Some v -> In v (Dict.values d).
Proof. apply get_in_values, String.eqb_eq. Qed.

Lemma sin_keys_get {V} (d : sdict V) k :
  In k (Dict.keys d) -> exists v, sget d k = Some v.
Proof. apply in_keys_get, String.eqb_eq. Qed.

Lemma sin_get_nodup {V} (d : sdict V) k v :
  NoDup (Dict.keys d) -> In (k, v) d -> sget d k = Some v.
Proof. apply in_get_nodup, String.eqb_eq. Qed.

Lemma skeys_set {V} (d : sdict V) k v x :
  In x (Dict.keys (sset d k v)) <-> x = k \/ In x (Dict.keys d).
Proof. apply keys_set, String.eqb_eq. Qed.

Lemma snodup_set {V} (d : sdict V) k v :
  NoDup (Dict.keys d) -> NoDup (Dict.keys (sset d k v)).
Proof. apply nodup_set, String.eqb_eq. Qed.

(* ------------------------------------------------------------------ *)
(** ** The monad *)

Lemma bind_ok {A B} (m : M A) (k : A -> M B) w b w' :
  bind m k w = (Ok b, w') ->
  exists a w1, m w = (Ok a, w1) /\ k a w1 = (Ok b, w').
Proof.
  unfold bind. destruct (m w) as [[a|e] w1]; [eauto|discriminate].
Qed.

(* ------------------------------------------------------------------ *)
(** ** The latest tag *)

Lemma candidates_spec (tags : sdict string) (t : string) :
  In t (filter (fun tag => negb (String.eqb tag "latest")) (Dict.keys tags))
  <-> In t (Dict.keys tags) /\ t <> "latest".
Proof.
  rewrite filter_In. rewrite negb_true_iff, String.eqb_neq. reflexivity.
Qed.

(** [pick_latest_tag] never raises. *)
Lemma pick_latest_tag_total (tags : sdict string) :
  exists h, pick_latest_tag tags = Ok h.
Proof.
  unfold pick_latest_tag.
  destruct (filter _ (Dict.keys tags)) as [|c cs] eqn:Ec; [eauto|].
  destruct (Order.last_item (Order.sorted Order.str_le (c :: cs))) as [t|] eqn:El.
  - apply (sorted_last_max _ _ str_le_total str_le_trans _ _ str_le_refl) in El.
    destruct El as [Hin _]. rewrite <- Ec in Hin.
    apply candidates_spec in Hin. destruct Hin as [Hin _].
    apply sin_keys_get in Hin. destruct Hin as [h Hh].
    exists h. unfold subscript. now rewrite Hh.
  - exfalso.
    destruct (last_item_some _ (Order.sorted Order.str_le (c :: cs))) as [m Hm];
      [|congruence].
    intros E.
    pose proof (sorted_perm _ _ str_le_total str_le_trans (c :: cs)) as Hp.
    rewrite E in Hp. apply Permutation_nil in Hp. discriminate.
Qed.

(** What [pick_latest_tag] returns: the hash under the greatest tag other
    than [latest], or, without such a tag, the first value. *)
Lemma pick_latest_tag_spec (tags : sdict string) (h : string) :
  pick_latest_tag tags = Ok h ->
  (exists t, In t (Dict.keys tags) /\ t <> "latest"
             /\ (forall t', In t' (Dict.keys tags) -> t' <> "latest" ->
                            Order.str_le t' t = true)
             /\ sget tags t = Some h)
  \/ ((forall t, In t (Dict.keys tags) -> t = "latest")
      /\ h = match Dict.values tags with v :: _ => v | [] => "" end).
Proof.
  unfold pick_latest_tag.
  destruct (filter _ (Dict.keys tags)) as [|c cs] eqn:Ec.
  - intros [= <-]. right. split; [|reflexivity].
    intros t Ht. destruct (string_dec t "latest") as [|Hne]; [assumption|].
    assert (Hin : In t []) by (rewrite <- Ec; now apply candidates_spec).
    destruct Hin.
  - destruct (Order.last_item _) as [t|] eqn:El; [|discriminate].
    apply (sorted_last_max _ _ str_le_total str_le_trans _ _ str_le_refl) in El.
    destruct El as [Hin Hmax]. rewrite <- Ec in Hin, Hmax.
    apply candidates_spec in Hin. destruct Hin as [Hin Hne].
    unfold subscript. destruct (sget tags t) as [h'|] eqn:Eh; [|discriminate].
    intros [= <-]. left. exists t. repeat split; try assumption.
    intros t' Ht' Hne'. apply Hmax. now apply candidates_spec.
Qed.

(* ------------------------------------------------------------------ *)
(** ** The first loop of [build_registry] *)

Lemma find_append {A} (f : A -> bool) (l1 l2 : list A) :
  find f (l1 ++ l2) = match find f l1 with Some x => Some x | None => find f l2 end.
Proof.
  induction l1 as [|x l1 IH]; simpl; [reflexivity|].
  destruct (f x); [reflexivity|exact IH].
Qed.

Lemma last_with_cons {A} (f : A -> bool) (x : A) (l : list A) :
  last_with f (x :: l)
  = match last_with f l with
    | Some y => Some y
    | None => if f x then Some x else None
    end.
Proof.
  unfold last_with. simpl. rewrite find_append. simpl.
  destruct (find f (rev l)); [reflexivity|]. now destruct (f x).
Qed.

Lemma last_with_some {A} (f : A -> bool) (l : list A) (x : A) :
  last_with f l = Some x -> In x l /\ f x = true.
Proof.
  unfold last_with. intros H. apply find_some in H.
  destruct H as [Hin Hf]. split; [now apply in_rev|exact Hf].
Qed.

Lemma last_with_none {A} (f : A -> bool) (l : list A) :
  last_with f l = None -> forall x, In x l -> f x = false.
Proof.
  unfold last_with. intros H x Hx.
  apply (find_none _ _ H). now apply in_rev in Hx.
Qed.

(** The last item that passes the test, with what comes after it. *)
Lemma last_with_split {A} (f : A -> bool) (l : list A) (x : A) :
  last_with f l = Some x ->
  exists l1 l2, l = l1 ++ x :: l2 /\ f x = true
                /\ forall y, In y l2 -> f y = false.
Proof.
  induction l as [|a l IH]; [discriminate|].
  rewrite last_with_cons.
  destruct (last_with f l) as [y|] eqn:E.
  - intros [= ->]. destruct (IH eq_refl) as (l1 & l2 & -> & Hf & Hl2).
    exists (a :: l1), l2. auto.
  - destruct (f a) eqn:Ea; [|discriminate].
    intros [= ->]. exists [], l. repeat split; try assumption.
    now apply last_with_none.
Qed.

Lemma last_with_app_last {A} (f : A -> bool) (l1 l2 : list A) (x : A) :
  f x = true -> (forall y, In y l2 -> f y = false) ->
  last_with f (l1 ++ x :: l2) = Some x.
Proof.
  intros Hx Hl2. unfold last_with.
  rewrite rev_app_distr. simpl. rewrite <- app_assoc. rewrite !find_append.
  destruct (find f (rev l2)) as [y|] eqn:E.
  - apply find_some in E. destruct E as [Hin Hy].
    apply in_rev in Hin. rewrite (Hl2 y Hin) in Hy. discriminate.
  - simpl. now rewrite Hx.
Qed.

Lemma tags_of_record (reg : registry) (m : ModuleInfo) (rel : Path) (n : string) :
  tags_of (record_module reg m rel) n
  = if String.eqb (name m) n
    then sset (tags_of reg n) (version m) (sha256 m)
    else tags_of reg n.
Proof.
  unfold tags_of, record_module.
  destruct (String.eqb (name m) n) eqn:E.
  - apply String.eqb_eq in E. subst n. rewrite sget_set_same. simpl.
    now destruct (sget reg (name m)).
  - apply String.eqb_neq in E. now rewrite sget_set_other.
Qed.

Lemma hashes_of_record (reg : registry) (m : ModuleInfo) (rel : Path) (n : string) :
  hashes_of (record_module reg m rel) n
  = if String.eqb (name m) n
    then sset (hashes_of reg n) (sha256 m)
              (mkLocation (version m) (Paths.to_string rel))
    else hashes_of reg n.
Proof.
  unfold hashes_of, record_module.
  destruct (String.eqb (name m) n) eqn:E.
  - apply String.eqb_eq in E. subst n. rewrite sget_set_same. simpl.
    now destruct (sget reg (name m)).
  - apply String.eqb_neq in E. now rewrite sget_set_other.
Qed.

(** After the loop, a tag of a name is bound to the hash of the last
    module that declared it under that name. *)
Lemma record_all_tags (ms : list ModuleInfo) root write : forall reg reg' n v,
  record_all ms root write reg = Some reg' ->
  sget (tags_of reg' n) v
  = match last_with (declares n v) ms with
    | Some m => Some (sha256 m)
    | None => sget (tags_of reg n) v
    end.
Proof.
  induction ms as [|m ms IH]; intros reg reg' n v; simpl.
  - intros [= <-]. reflexivity.
  - destruct (Paths.relative_to _ root) as [rel|]; [|discriminate].
    intros H. rewrite (IH _ _ n v H), last_with_cons.
    destruct (last_with (declares n v) ms); [reflexivity|].
    rewrite tags_of_record. unfold declares.
    destruct (String.eqb (name m) n); simpl; [|reflexivity].
    destruct (String.eqb (version m) v) eqn:Ev.
    + apply String.eqb_eq in Ev. subst v. now rewrite sget_set_same.
    + apply String.eqb_neq in Ev. now rewrite sget_set_other.
Qed.

(** After the loop, a hash of a name has the record of the last module
    that has this hash under that name. *)
Lemma record_all_hashes (ms : list ModuleInfo) root write : forall reg reg' n h,
  record_all ms root write reg = Some reg' ->
  sget (hashes_of reg' n) h
  = match last_with (carries n h) ms with
    | Some m => Some (recorded_location root write m)
    | None => sget (hashes_of reg n) h
    end.
Proof.
  induction ms as [|m ms IH]; intros reg reg' n h; simpl.
  - intros [= <-]. reflexivity.
  - destruct (Paths.relative_to _ root) as [rel|] eqn:Erel; [|discriminate].
    intros H. rewrite (IH _ _ n h H), last_with_cons.
    destruct (last_with (carries n h) ms); [reflexivity|].
    rewrite hashes_of_record. unfold carries.
    destruct (String.eqb (name m) n); simpl; [|reflexivity].
    destruct (String.eqb (sha256 m) h) eqn:Eh.
    + apply String.eqb_eq in Eh. subst h. rewrite sget_set_same.
      unfold recorded_location. now rewrite Erel.
    + apply String.eqb_neq in Eh. now rewrite sget_set_other.
Qed.

(** The names of the registry after the loop are the names it had and the
    names of the modules. *)
Lemma record_all_names (ms : list ModuleInfo) root write : forall reg reg' n,
  record_all ms root write reg = Some reg' ->
  (In n (Dict.keys reg') <-> In n (Dict.keys reg) \/ In n (map name ms)).
Proof.
  induction ms as [|m ms IH]; intros reg reg' n; simpl.
  - intros [= <-]. tauto.
  - destruct (Paths.relative_to _ root) as [rel|]; [|discriminate].
    intros H. rewrite (IH _ _ n H). unfold record_module.
    rewrite skeys_set. intuition.
Qed.

Lemma nodup_hashes_record (reg : registry) (m : ModuleInfo) (rel : Path) :
  (forall n, NoDup (Dict.keys (hashes_of reg n))) ->
  forall n, NoDup (Dict.keys (hashes_of (record_module reg m rel) n)).
Proof.
  intros H n. rewrite hashes_of_record.
  destruct (String.eqb (name m) n); [|apply H]. apply snodup_set, H.
Qed.

(** Each hash has one record. *)
Lemma record_all_nodup (ms : list ModuleInfo) root write : forall reg reg',
  record_all ms root write reg = Some reg' ->
  (forall n, NoDup (Dict.keys (hashes_of reg n))) ->
  forall n, NoDup (Dict.keys (hashes_of reg' n)).
Proof.
  induction ms as [|m ms IH]; intros reg reg'; simpl.
  - intros [= <-]. auto.
  - destruct (Paths.relative_to _ root) as [rel|]; [|discriminate].
    intros H Hnd. apply (IH _ _ H). now apply nodup_hashes_record.
Qed.

(** Every entry has a tag after the loop. *)
Lemma record_all_tagged (ms : list ModuleInfo) root write : forall reg reg',
  record_all ms root write reg = Some reg' ->
  (forall n e, sget reg n = Some e -> Dict.truthy (tags e) = true) ->
  forall n e, sget reg' n = Some e -> Dict.truthy (tags e) = true.
Proof.
  induction ms as [|m ms IH]; intros reg reg'; simpl.
  - intros [= <-]. auto.
  - destruct (Paths.relative_to _ root) as [rel|]; [|discriminate].
    intros H Ht. apply (IH _ _ H). intros n e. unfold record_module.
    destruct (string_dec (name m) n) as [<-|Hn].
    + rewrite sget_set_same. intros [= <-]. simpl.
      apply (truthy_set _ _ String.eqb).
    + rewrite sget_set_other by assumption. apply Ht.
Qed.

(* ------------------------------------------------------------------ *)
(** ** The second loop of [build_registry] *)

(** [set_latest] never raises. *)
Lemma set_latest_total (reg : registry) : exists reg', set_latest reg = Ok reg'.
Proof.
  induction reg as [|[n e] reg [r IH]]; simpl; [eauto|].
  rewrite IH. destruct (Dict.truthy (tags e)); [|eauto].
  destruct (pick_latest_tag_total (tags e)) as [h ->]. eauto.
Qed.

(** An entry after the second loop: the entry before it, with [latest]
    set from its own tags when it has one. *)
Lemma set_latest_get (reg : registry) : forall reg' n e',
  set_latest reg = Ok reg' -> sget reg' n = Some e' ->
  exists e, sget reg n = Some e /\ hashes e' = hashes e
            /\ ((Dict.truthy (tags e) = true
                 /\ exists h, pick_latest_tag (tags e) = Ok h
                              /\ tags e' = sset (tags e) "latest" h)
                \/ (Dict.truthy (tags e) = false /\ e' = e)).
Proof.
  induction reg as [|[k e] reg IH]; intros reg' n e'; simpl.
  - intros [= <-]. discriminate.
  - destruct (Dict.truthy (tags e)) eqn:Et.
    + destruct (pick_latest_tag (tags e)) as [h|] eqn:Eh; [|discriminate].
      destruct (set_latest reg) as [r|]; [|discriminate].
      intros [= <-]. unfold sget. simpl. destruct (String.eqb k n).
      * intros [= <-]. exists e. simpl. split; [reflexivity|].
        split; [reflexivity|]. left. eauto.
      * apply (IH r n e' eq_refl).
    + destruct (set_latest reg) as [r|]; [|discriminate].
      intros [= <-]. unfold sget. simpl. destruct (String.eqb k n).
      * intros [= <-]. exists e. auto.
      * apply (IH r n e' eq_refl).
Qed.

(* ------------------------------------------------------------------ *)
(** ** The effects of [build_registry] *)

Section BuildFacts.
Context {rt : Runtime}.

(** [materialize_module] returns the canonical place, or the place of a
    module that is there already. *)
Lemma materialize_module_path root m w p w' :
  materialize_module root m w = (Ok p, w') -> p = final_path root true m.
Proof.
  unfold materialize_module, final_path. intros H.
  apply bind_ok in H. destruct H as (_ & w1 & _ & H).
  destruct (versioned m); simpl.
  - unfold ret in H. now injection H as <- _.
  - apply bind_ok in H. destruct H as (_ & w2 & _ & H).
    apply bind_ok in H. destruct H as (_ & w3 & _ & H).
    unfold ret in H. now injection H as <- _.
Qed.

Lemma fold_modules_record_all ms root write : forall reg w reg' w',
  fold_modules ms root write reg w = (Ok reg', w') ->
  record_all ms root write reg = Some reg'.
Proof.
  induction ms as [|m ms IH]; intros reg w reg' w'; simpl.
  - unfold ret. now intros [= <- _].
  - intros H. apply bind_ok in H. destruct H as (p & w1 & Hp & H).
    assert (Ep : p = final_path root write m).
    { destruct write.
      - now apply materialize_module_path in Hp.
      - unfold ret in Hp. now injection Hp as <- _. }
    subst p. destruct (Paths.relative_to _ root) as [rel|]; [|discriminate].
    now apply IH in H.
Qed.

(** Without the write flag the loop leaves the world as it is, whatever
    its outcome. *)
Lemma fold_modules_dry ms root : forall reg w,
  snd (fold_modules ms root false reg w) = w.
Proof.
  induction ms as [|m ms IH]; intros reg w; simpl; [reflexivity|].
  unfold bind, ret. destruct (Paths.relative_to (path m) root); [apply IH|].
  reflexivity.
Qed.

Lemma build_registry_dry ms root w :
  snd (build_registry ms root false w) = w.
Proof.
  unfold build_registry, bind, lift.
  pose proof (fold_modules_dry ms root [] w) as H.
  destruct (fold_modules ms root false [] w) as [[reg|e] w1]; simpl in *;
    now subst.
Qed.

(** [build_registry] returns a registry: the one of the two loops. *)
Lemma build_registry_ok ms root write w reg w' :
  build_registry ms root write w = (Ok reg, w') ->
  exists reg0, fold_modules ms root write [] w = (Ok reg0, w')
               /\ record_all ms root write [] = Some reg0
               /\ set_latest reg0 = Ok reg.
Proof.
  unfold build_registry. intros H. apply bind_ok in H.
  destruct H as (reg0 & w1 & Hf & Hl). unfold lift in Hl.
  injection Hl as Hl <-. exists reg0. split; [exact Hf|].
  split; [|exact Hl]. now apply fold_modules_record_all in Hf.
Qed.

(** It returns whenever its first loop does. *)
Lemma build_registry_returns ms root write w reg0 w' :
  fold_modules ms root write [] w = (Ok reg0, w') ->
  exists reg, build_registry ms root write w = (Ok reg, w').
Proof.
  intros H. unfold build_registry, bind, lift. rewrite H.
  destruct (set_latest_total reg0) as [reg ->]. eauto.
Qed.
End BuildFacts.

(* ------------------------------------------------------------------ *)
(** ** The registry that [build_registry] returns *)

Lemma hashes_of_entry (reg : registry) n e : sget reg n = Some e -> hashes_of reg n = hashes e.
Proof. unfold hashes_of. now intros ->. Qed.

Lemma tags_of_entry (reg : registry) n e : sget reg n = Some e -> tags_of reg n = tags e.
Proof. unfold tags_of. now intros ->. Qed.

Lemma declares_true n v m : declares n v m = true <-> name m = n /\ version m = v.
Proof. unfold declares. now rewrite andb_true_iff, !String.eqb_eq. Qed.

Lemma carries_true n h m : carries n h m = true <-> name m = n /\ sha256 m = h.
Proof. unfold carries. now rewrite andb_true_iff, !String.eqb_eq. Qed.

Lemma declares_false n v m : declares n v m = false <-> ~ (name m = n /\ version m = v).
Proof. rewrite <- declares_true. now destruct (declares n v m). Qed.

Lemma carries_false n h m : carries n h m = false <-> ~ (name m = n /\ sha256 m = h).
Proof. rewrite <- carries_true. now destruct (carries n h m). Qed.

(** The second loop keeps the names and the hashes. *)
Lemma set_latest_entry (reg : registry) : forall reg' n e,
  set_latest reg = Ok reg' -> sget reg n = Some e ->
  exists e', sget reg' n = Some e' /\ hashes e' = hashes e.
Proof.
  induction reg as [|[k x] reg IH]; intros reg' n e; simpl; [discriminate 2|].
  unfold sget. simpl. destruct (Dict.truthy (tags x)).
  - destruct (pick_latest_tag (tags x)) as [h|]; [|discriminate].
    destruct (set_latest reg) as [r|]; [|discriminate].
    intros [= <-]. simpl. destruct (String.eqb k n).
    + intros [= <-]. eauto.
    + now apply IH.
  - destruct (set_latest reg) as [r|]; [|discriminate].
    intros [= <-]. simpl. destruct (String.eqb k n).
    + intros [= <-]. eauto.
    + now apply IH.
Qed.

(** When the first loop is through, every module was found below the
    root. *)
Lemma record_all_below (ms : list ModuleInfo) root write : forall reg reg' m,
  record_all ms root write reg = Some reg' -> In m ms ->
  exists rel, Paths.relative_to (final_path root write m) root = Some rel.
Proof.
  induction ms as [|a ms IH]; intros reg reg' m; simpl; [intros _ []|].
  destruct (Paths.relative_to (final_path root write a) root) as [rel|] eqn:E;
    [|discriminate].
  intros H [->|Hin]; [eauto|]. now apply (IH _ _ m H).
Qed.

(** A tag other than [latest] is bound after the second loop as it was
    bound before. *)
Lemma set_latest_tag (reg reg' : registry) n e e' v :
  set_latest reg = Ok reg' -> sget reg n = Some e -> sget reg' n = Some e' ->
  v <> "latest" -> sget (tags e') v = sget (tags e) v.
Proof.
  intros Hl He He' Hv.
  destruct (set_latest_get _ _ n _ Hl He') as (e0 & He0 & _ & [(_ & h & _ & Ht)|(_ & ->)]).
  - rewrite He in He0. injection He0 as <-. rewrite Ht.
    apply sget_set_other. congruence.
  - congruence.
Qed.

(** C1, as amended.  In a registry that [build_registry] returns, the
    hash of every module of the list is a key of the [hashes] of its name,
    and a version other than [latest] is bound, in the [tags] of the name,
    to the hash of the last module of the list that declares that name
    and that version: the hash of an earlier one stays in [hashes] while
    the tag goes to the later one.  When no module declares the version
    [latest] and the modules of one name that declare the same version
    have the same content hash, every hash of every entry is the value of
    a tag of that entry. *)
Theorem build_registry_hashes_tagged {rt : Runtime}
        (ms : list ModuleInfo) (root : Path) (write : bool) (w w' : world)
        (reg : registry) :
  build_registry ms root write w = (Ok reg, w') ->
  (forall m, In m ms ->
     exists e,
       sget reg (name m) = Some e
       /\ In (sha256 m) (Dict.keys (hashes e))
       /\ (version m <> "latest" ->
           exists m',
             last_with (declares (name m) (version m)) ms = Some m'
             /\ sget (tags e) (version m) = Some (sha256 m')))
  /\ ((forall m, In m ms -> version m <> "latest") ->
      (forall m m', In m ms -> In m' ms -> name m = name m' ->
                    version m = version m' -> sha256 m = sha256 m') ->
      hashes_are_tagged reg).
Proof.
  intros Hb. apply build_registry_ok in Hb as (reg0 & _ & Hrec & Hl). split.
  - intros m Hm.
    assert (Hk : In (name m) (Dict.keys reg0)).
    { apply (record_all_names _ _ _ _ _ (name m) Hrec). right. now apply in_map. }
    apply sin_keys_get in Hk. destruct Hk as [e0 He0].
    destruct (set_latest_entry _ _ _ _ Hl He0) as (e & He & Hh).
    exists e. split; [exact He|]. split.
    + rewrite Hh.
      pose proof (record_all_hashes _ _ _ _ _ (name m) (sha256 m) Hrec) as Hs.
      rewrite (hashes_of_entry _ _ _ He0) in Hs.
      destruct (last_with (carries (name m) (sha256 m)) ms) as [m1|] eqn:E1.
      * now apply sget_in_keys in Hs.
      * apply (last_with_none _ _ E1) in Hm. apply carries_false in Hm.
        exfalso. apply Hm. now split.
    + intros Hv.
      pose proof (record_all_tags _ _ _ _ _ (name m) (version m) Hrec) as Ht.
      rewrite (tags_of_entry _ _ _ He0) in Ht.
      destruct (last_with (declares (name m) (version m)) ms) as [m'|] eqn:E2.
      * exists m'. split; [reflexivity|].
        now rewrite (set_latest_tag _ _ _ _ _ _ Hl He0 He Hv).
      * apply (last_with_none _ _ E2) in Hm. apply declares_false in Hm.
        exfalso. apply Hm. now split.
  - intros Hlatest Hsame n e h He Hin.
    destruct (set_latest_get _ _ n _ Hl He) as (e0 & He0 & Hh & _).
    rewrite Hh in Hin. apply sin_keys_get in Hin. destruct Hin as [loc Hloc].
    rewrite <- (hashes_of_entry _ _ _ He0) in Hloc.
    rewrite (record_all_hashes _ _ _ _ _ n h Hrec) in Hloc.
    destruct (last_with (carries n h) ms) as [m|] eqn:Em; [|discriminate].
    apply last_with_some in Em. destruct Em as [Hm Hc].
    apply carries_true in Hc. destruct Hc as [Hn Hs].
    exists (version m).
    rewrite (set_latest_tag _ _ _ _ _ _ Hl He0 He) by now apply Hlatest.
    rewrite <- (tags_of_entry _ _ _ He0).
    rewrite (record_all_tags _ _ _ _ _ n (version m) Hrec).
    destruct (last_with (declares n (version m)) ms) as [m'|] eqn:Em'.
    + apply last_with_some in Em'. destruct Em' as [Hm' Hd].
      apply declares_true in Hd. destruct Hd as [Hn' Hv'].
      f_equal. rewrite <- Hs. apply Hsame; congruence.
    + apply (last_with_none _ _ Em') in Hm.
      apply declares_false in Hm. exfalso. apply Hm. now split.
Qed.

(** The theorem at two modules that are far from each other. *)
Lemma build_registry_hashes_tagged_witness :
  @build_registry Sample.runtime [Sample.bar_v1; Sample.bar_v10] Sample.root false
                  Sample.world0 = (Ok Sample.registry_bar, Sample.world0)
  /\ hashes_are_tagged Sample.registry_bar.
Proof.
  assert (H : @build_registry Sample.runtime [Sample.bar_v1; Sample.bar_v10]
                Sample.root false Sample.world0
              = (Ok Sample.registry_bar, Sample.world0))
    by (vm_compute; reflexivity).
  split; [exact H|].
  apply (proj2 (@build_registry_hashes_tagged Sample.runtime
                  [Sample.bar_v1; Sample.bar_v10] Sample.root false
                  Sample.world0 Sample.world0 Sample.registry_bar H)).
  - intros m [<-|[<-|[]]]; vm_compute; discriminate.
  - intros m m' [<-|[<-|[]]] [<-|[<-|[]]]; vm_compute; congruence.
Defined.

(** C1, as stated, fails: of two modules with one name and one version and
    different bytes, the first leaves a hash that no tag has. *)
Lemma build_registry_hashes_tagged_counterexample :
  @build_registry Sample.runtime [Sample.foo_v1_a; Sample.foo_v1_b] Sample.root
                  false Sample.world0 = (Ok Sample.registry_clash, Sample.world0)
  /\ name Sample.foo_v1_a = name Sample.foo_v1_b
  /\ version Sample.foo_v1_a = version Sample.foo_v1_b
  /\ source Sample.foo_v1_a <> source Sample.foo_v1_b
  /\ ~ hashes_are_tagged Sample.registry_clash.
Proof.
  split; [vm_compute; reflexivity|].
  split; [reflexivity|]. split; [reflexivity|].
  split; [vm_compute; discriminate|].
  intros H.
  destruct (H "foo" _ (sha256 Sample.foo_v1_a) eq_refl) as [t Ht].
  - vm_compute. now left.
  - apply sget_in_values in Ht. vm_compute in Ht.
    destruct Ht as [Ht|[Ht|[]]]; discriminate.
Qed.

(** The other condition is needed as well: a module that declares the
    version [latest] loses that tag when [latest] is set again, here to
    the hash of [v1], and its own hash is left without a tag. *)
Example build_registry_declared_latest :
  @build_registry Sample.runtime [Sample.foo_latest; Sample.foo_v1_b] Sample.root
                  false Sample.world0 = (Ok Sample.registry_latest, Sample.world0)
  /\ version Sample.foo_latest = "latest"
  /\ (forall m m', In m [Sample.foo_latest; Sample.foo_v1_b] ->
                   In m' [Sample.foo_latest; Sample.foo_v1_b] ->
                   name m = name m' -> version m = version m' ->
                   sha256 m = sha256 m')
  /\ ~ hashes_are_tagged Sample.registry_latest.
Proof.
  split; [vm_compute; reflexivity|]. split; [reflexivity|]. split.
  - intros m m' [<-|[<-|[]]] [<-|[<-|[]]] _ Hv; try reflexivity;
      vm_compute in Hv; discriminate Hv.
  - intros H.
    destruct (H "foo" _ (sha256 Sample.foo_latest) eq_refl) as [t Ht].
    + vm_compute. now left.
    + apply sget_in_values in Ht. vm_compute in Ht.
      destruct Ht as [Ht|[Ht|[]]]; discriminate.
Qed.

(** C2.  A registry that [build_registry] returns has an entry for the
    name of every module of the list, and no other; the tags of every
    entry have the key [latest]; its value is the hash bound to the
    greatest tag other than [latest] in the order of strings, and when
    there is no such tag it is a value that the tags of the entry had
    before [latest] was set. *)
Theorem build_registry_latest {rt : Runtime}
        (ms : list ModuleInfo) (root : Path) (write : bool) (w w' : world)
        (reg : registry) :
  build_registry ms root write w = (Ok reg, w') ->
  (forall m, In m ms ->
     exists e h, sget reg (name m) = Some e /\ sget (tags e) "latest" = Some h)
  /\ (forall n, In n (Dict.keys reg) -> In n (map name ms))
  /\ exists reg0,
    fold_modules ms root write [] w = (Ok reg0, w')
    /\ forall n e, sget reg n = Some e ->
       exists e0 h,
         sget reg0 n = Some e0
         /\ sget (tags e) "latest" = Some h
         /\ ((exists t,
                In t (Dict.keys (tags e)) /\ t <> "latest"
                /\ (forall t', In t' (Dict.keys (tags e)) -> t' <> "latest" ->
                               Order.str_le t' t = true)
                /\ sget (tags e) t = Some h)
             \/ ((forall t, In t (Dict.keys (tags e)) -> t = "latest")
                 /\ In h (Dict.values (tags e0)))).
Proof.
  intros Hb. apply build_registry_ok in Hb as (reg0 & Hf & Hrec & Hl).
  assert (Hall : forall n e, sget reg n = Some e ->
       exists e0 h,
         sget reg0 n = Some e0
         /\ sget (tags e) "latest" = Some h
         /\ ((exists t,
                In t (Dict.keys (tags e)) /\ t <> "latest"
                /\ (forall t', In t' (Dict.keys (tags e)) -> t' <> "latest" ->
                               Order.str_le t' t = true)
                /\ sget (tags e) t = Some h)
             \/ ((forall t, In t (Dict.keys (tags e)) -> t = "latest")
                 /\ In h (Dict.values (tags e0))))).
  { intros n e He.
    destruct (set_latest_get _ _ n _ Hl He) as (e0 & He0 & _ & Hcase).
    assert (Ht0 : Dict.truthy (tags e0) = true).
    { apply (record_all_tagged _ _ _ _ _ Hrec) with n; [discriminate|exact He0]. }
    destruct Hcase as [(_ & h & Hp & Ht)|(Hf0 & _)]; [|congruence].
    exists e0, h. split; [exact He0|].
    split; [rewrite Ht; apply sget_set_same|].
    destruct (pick_latest_tag_spec _ _ Hp) as [(t & Hin & Hne & Hmax & Hh)|(Hall & Hv)].
    - left. exists t. rewrite Ht. repeat split.
      + apply skeys_set. now right.
      + exact Hne.
      + intros t' Hin' Hne'. apply Hmax; [|exact Hne'].
        apply skeys_set in Hin'. destruct Hin' as [->|Hin']; [congruence|exact Hin'].
      + rewrite sget_set_other by congruence. exact Hh.
    - right. split.
      + intros t Hin. rewrite Ht in Hin. apply skeys_set in Hin.
        destruct Hin as [->|Hin]; [reflexivity|now apply Hall].
      + subst h. destruct (tags e0) as [|[k v] d]; [discriminate|]. now left. }
  split; [|split].
  - intros m Hm.
    assert (Hk : In (name m) (Dict.keys reg0)).
    { apply (record_all_names _ _ _ _ _ (name m) Hrec). right. now apply in_map. }
    apply sin_keys_get in Hk. destruct Hk as [e0 He0].
    destruct (set_latest_entry _ _ _ _ Hl He0) as (e & He & _).
    destruct (Hall _ _ He) as (_ & h & _ & Hh & _). eauto.
  - intros n Hn. apply sin_keys_get in Hn. destruct Hn as [e He].
    destruct (set_latest_get _ _ n _ Hl He) as (e0 & He0 & _).
    apply sget_in_keys in He0.
    apply (record_all_names _ _ _ _ _ n Hrec) in He0.
    destruct He0 as [[]|H]. exact H.
  - exists reg0. split; [exact Hf|exact Hall].
Qed.

(** The theorem at two versions of one name: [v10] is above [v1], and
    [latest] is the hash of the bytes of [v10]. *)
Lemma build_registry_latest_witness :
  @build_registry Sample.runtime [Sample.bar_v1; Sample.bar_v10] Sample.root false
                  Sample.world0 = (Ok Sample.registry_bar, Sample.world0)
  /\ Dict.keys Sample.registry_bar = ["bar"]
  /\ (exists e,
        sget Sample.registry_bar "bar" = Some e
        /\ sget (tags e) "latest"
           = Some ("sha256:" ++ Sha256.hexdigest (Sample.bytes "ten"))%string
        /\ sget (tags e) "v10"
           = Some ("sha256:" ++ Sha256.hexdigest (Sample.bytes "ten"))%string
        /\ sget (tags e) "v1"
           = Some ("sha256:" ++ Sha256.hexdigest (Sample.bytes "one"))%string)
  /\ (forall m, In m [Sample.bar_v1; Sample.bar_v10] ->
        exists e h, sget Sample.registry_bar (name m) = Some e
                    /\ sget (tags e) "latest" = Some h).
Proof.
  assert (H : @build_registry Sample.runtime [Sample.bar_v1; Sample.bar_v10]
                Sample.root false Sample.world0
              = (Ok Sample.registry_bar, Sample.world0))
    by (vm_compute; reflexivity).
  split; [exact H|]. split; [reflexivity|]. split.
  - eexists. split; [reflexivity|]. split; [|split]; vm_compute; reflexivity.
  - exact (proj1 (@build_registry_latest Sample.runtime
                    [Sample.bar_v1; Sample.bar_v10] Sample.root false
                    Sample.world0 Sample.world0 Sample.registry_bar H)).
Defined.

(** In the sample, [latest] is the hash of [v10]. *)
Example latest_of_bar :
  option_map (fun e => (sget (tags e) "latest", sget (tags e) "v10"))
             (sget Sample.registry_bar "bar")
  = Some (Some (sha256 Sample.bar_v10), Some (sha256 Sample.bar_v10))
  /\ Order.str_le "v1" "v10" = true /\ Order.str_le "v10" "v9" = true.
Proof. vm_compute. auto. Qed.

(** C8, as amended.  Without the write flag [build_registry] leaves the
    world as it found it, so it changes no file and does not enter
    [materialize_module]; and a module that is the last of the list with
    its name and its hash has its discovery-time path, relative to the
    root and with forward slashes, in the record of its hash. *)
Theorem build_registry_dry_run {rt : Runtime}
        (ms : list ModuleInfo) (root : Path) (w : world) (reg : registry)
        (m : ModuleInfo) :
  fst (build_registry ms root false w) = Ok reg ->
  last_with (carries (name m) (sha256 m)) ms = Some m ->
  snd (build_registry ms root false w) = w
  /\ fs (snd (build_registry ms root false w)) = fs w
  /\ trace (snd (build_registry ms root false w)) = trace w
  /\ exists e rel,
       sget reg (name m) = Some e
       /\ Paths.relative_to (path m) root = Some rel
       /\ sget (hashes e) (sha256 m)
          = Some (mkLocation (version m) (Paths.to_string rel)).
Proof.
  intros Hb Hlast. pose proof (build_registry_dry ms root w) as Hw.
  rewrite Hw. repeat split; try reflexivity.
  destruct (build_registry ms root false w) as [r w1] eqn:E. simpl in *. subst.
  apply build_registry_ok in E as (reg0 & _ & Hrec & Hl).
  pose proof (record_all_hashes _ _ _ _ _ (name m) (sha256 m) Hrec) as Hh.
  rewrite Hlast in Hh. apply last_with_some in Hlast. destruct Hlast as [Hm _].
  assert (Hin : In (name m) (Dict.keys reg0)).
  { apply (record_all_names _ _ _ _ _ (name m) Hrec). right. now apply in_map. }
  apply sin_keys_get in Hin. destruct Hin as [e0 He0].
  destruct (set_latest_entry _ _ _ _ Hl He0) as (e & He & Hhe).
  destruct (record_all_below _ _ _ _ _ m Hrec Hm) as [rel Hrel].
  rewrite (hashes_of_entry _ _ _ He0) in Hh.
  unfold recorded_location in Hh. rewrite Hrel in Hh.
  exists e, rel. rewrite Hhe. auto.
Qed.

(** The theorem at a module that is alone with its name and hash. *)
Lemma build_registry_dry_run_witness :
  fst (@build_registry Sample.runtime [Sample.bar_v1; Sample.bar_v10] Sample.root
                       false Sample.world0) = Ok Sample.registry_bar
  /\ last_with (carries (name Sample.bar_v10) (sha256 Sample.bar_v10))
               [Sample.bar_v1; Sample.bar_v10] = Some Sample.bar_v10
  /\ snd (@build_registry Sample.runtime [Sample.bar_v1; Sample.bar_v10]
                          Sample.root false Sample.world0) = Sample.world0
  /\ fs (snd (@build_registry Sample.runtime [Sample.bar_v1; Sample.bar_v10]
                              Sample.root false Sample.world0)) = fs Sample.world0
  /\ trace (snd (@build_registry Sample.runtime [Sample.bar_v1; Sample.bar_v10]
                                 Sample.root false Sample.world0))
     = trace Sample.world0
  /\ exists e rel,
       sget Sample.registry_bar (name Sample.bar_v10) = Some e
       /\ Paths.relative_to (path Sample.bar_v10) Sample.root = Some rel
       /\ sget (hashes e) (sha256 Sample.bar_v10)
          = Some (mkLocation (version Sample.bar_v10) (Paths.to_string rel)).
Proof.
  assert (H1 : fst (@build_registry Sample.runtime [Sample.bar_v1; Sample.bar_v10]
                      Sample.root false Sample.world0) = Ok Sample.registry_bar)
    by (vm_compute; reflexivity).
  assert (H2 : last_with (carries (name Sample.bar_v10) (sha256 Sample.bar_v10))
                 [Sample.bar_v1; Sample.bar_v10] = Some Sample.bar_v10)
    by (vm_compute; reflexivity).
  split; [exact H1|]. split; [exact H2|].
  exact (@build_registry_dry_run Sample.runtime [Sample.bar_v1; Sample.bar_v10]
           Sample.root Sample.world0 Sample.registry_bar Sample.bar_v10 H1 H2).
Defined.

(** C8, as stated, fails: of a module and its copy under the same name,
    only the copy has its path in the record of their hash. *)
Lemma build_registry_dry_run_counterexample :
  @build_registry Sample.runtime [Sample.foo_v1_a; Sample.foo_v1_copy] Sample.root
                  false Sample.world0 = (Ok Sample.registry_copy, Sample.world0)
  /\ ~ records_original_paths Sample.root [Sample.foo_v1_a; Sample.foo_v1_copy]
                              Sample.registry_copy.
Proof.
  split; [vm_compute; reflexivity|]. intros H.
  destruct (H Sample.foo_v1_a (or_introl eq_refl)) as (e & loc & rel & He & Hl & Hr & Hp).
  vm_compute in He. injection He as <-.
  vm_compute in Hl. injection Hl as <-.
  vm_compute in Hr. injection Hr as <-.
  vm_compute in Hp. discriminate Hp.
Qed.

(** C9, as amended.  Two modules of the list have one name and the same
    bytes and declare different versions, neither of them [latest]; no
    other module of that name after the first of them declares its
    version, and none after the second declares the version of the second
    or has their hash.  Then both versions are tags of the common hash,
    which has one record: the version of the second module and the path
    recorded for it. *)
Theorem build_registry_aliased {rt : Runtime}
        (l1 l2 l3 : list ModuleInfo) (m1 m2 : ModuleInfo)
        (root : Path) (write : bool) (w w' : world) (reg : registry) :
  name m1 = name m2 ->
  source m1 = source m2 -> hashed m1 -> hashed m2 ->
  version m1 <> version m2 ->
  version m1 <> "latest" -> version m2 <> "latest" ->
  (forall m, In m (l2 ++ l3) -> name m = name m2 -> version m <> version m1) ->
  (forall m, In m l3 -> name m = name m2 ->
             version m <> version m2 /\ sha256 m <> sha256 m2) ->
  build_registry (l1 ++ m1 :: l2 ++ m2 :: l3) root write w = (Ok reg, w') ->
  aliased root write reg m1 m2.
Proof.
  intros Hn Hsrc Hh1 Hh2 Hv Hl1 Hl2 Hlater1 Hlater2 Hb.
  assert (Hs : sha256 m1 = sha256 m2).
  { unfold hashed in *. congruence. }
  apply build_registry_ok in Hb as (reg0 & _ & Hrec & Hl).
  set (ms := l1 ++ m1 :: l2 ++ m2 :: l3) in *.
  assert (Hin : In (name m2) (Dict.keys reg0)).
  { apply (record_all_names _ _ _ _ _ (name m2) Hrec). right. apply in_map.
    unfold ms. apply in_or_app. right. right. apply in_or_app. right. now left. }
  apply sin_keys_get in Hin. destruct Hin as [e0 He0].
  destruct (set_latest_entry _ _ _ _ Hl He0) as (e & He & Hhe).
  assert (T1 : last_with (declares (name m2) (version m1)) ms = Some m1).
  { apply last_with_app_last; [now apply declares_true|].
    intros y Hy. apply declares_false. intros [Hyn Hyv].
    apply in_app_or in Hy. destruct Hy as [Hy|[<-|Hy]].
    - apply (Hlater1 y); [apply in_or_app; now left|assumption..].
    - congruence.
    - apply (Hlater1 y); [apply in_or_app; now right|assumption..]. }
  assert (T2 : last_with (declares (name m2) (version m2)) ms = Some m2).
  { unfold ms. change (l1 ++ m1 :: l2 ++ m2 :: l3)
      with (l1 ++ (m1 :: l2) ++ m2 :: l3).
    rewrite app_assoc.
    apply last_with_app_last; [now apply declares_true|].
    intros y Hy. apply declares_false. intros [Hyn Hyv].
    now destruct (Hlater2 y Hy Hyn). }
  assert (T3 : last_with (carries (name m2) (sha256 m2)) ms = Some m2).
  { unfold ms. change (l1 ++ m1 :: l2 ++ m2 :: l3)
      with (l1 ++ (m1 :: l2) ++ m2 :: l3).
    rewrite app_assoc.
    apply last_with_app_last; [now apply carries_true|].
    intros y Hy. apply carries_false. intros [Hyn Hyh].
    now destruct (Hlater2 y Hy Hyn). }
  exists e. split; [exact He|].
  rewrite !(set_latest_tag _ _ _ _ _ _ Hl He0 He) by assumption.
  rewrite <- (tags_of_entry _ _ _ He0), Hhe, <- (hashes_of_entry _ _ _ He0).
  rewrite !(record_all_tags _ _ _ _ _ _ _ Hrec), T1, T2.
  rewrite (record_all_hashes _ _ _ _ _ _ _ Hrec), T3.
  repeat split; try congruence.
  apply NoDup_count_occ'.
  - apply (record_all_nodup _ _ _ _ _ Hrec). intros n. constructor.
  - apply sget_in_keys with (recorded_location root write m2).
    now rewrite (record_all_hashes _ _ _ _ _ _ _ Hrec), T3.
Qed.

(** The theorem at two modules with the same bytes. *)
Lemma build_registry_aliased_witness :
  @build_registry Sample.runtime ([] ++ Sample.foo_v1_a :: [] ++ Sample.foo_v2_a :: [])
                  Sample.root false Sample.world0
  = (Ok Sample.registry_alias, Sample.world0)
  /\ aliased Sample.root false Sample.registry_alias Sample.foo_v1_a Sample.foo_v2_a.
Proof.
  assert (H : @build_registry Sample.runtime
                ([] ++ Sample.foo_v1_a :: [] ++ Sample.foo_v2_a :: [])
                Sample.root false Sample.world0
              = (Ok Sample.registry_alias, Sample.world0))
    by (vm_compute; reflexivity).
  split; [exact H|].
  apply (@build_registry_aliased Sample.runtime [] [] [] Sample.foo_v1_a
           Sample.foo_v2_a Sample.root false Sample.world0 Sample.world0
           Sample.registry_alias).
  - reflexivity.
  - reflexivity.
  - reflexivity.
  - reflexivity.
  - vm_compute. discriminate.
  - vm_compute. discriminate.
  - vm_compute. discriminate.
  - intros m [].
  - intros m [].
  - exact H.
Defined.

(** C9, as stated, fails: a third module of the same name that declares
    the first version again, with other bytes, takes the tag. *)
Lemma build_registry_aliased_counterexample :
  @build_registry Sample.runtime
                  [Sample.foo_v1_a; Sample.foo_v2_a; Sample.foo_v1_b]
                  Sample.root false Sample.world0
  = (Ok Sample.registry_override, Sample.world0)
  /\ name Sample.foo_v1_a = name Sample.foo_v2_a
  /\ source Sample.foo_v1_a = source Sample.foo_v2_a
  /\ version Sample.foo_v1_a <> version Sample.foo_v2_a
  /\ ~ aliased Sample.root false Sample.registry_override
               Sample.foo_v1_a Sample.foo_v2_a.
Proof.
  split; [vm_compute; reflexivity|].
  split; [reflexivity|]. split; [reflexivity|].
  split; [vm_compute; discriminate|].
  intros (e & He & Ht1 & _).
  vm_compute in He. injection He as <-.
  vm_compute in Ht1. discriminate Ht1.
Qed.

(* ------------------------------------------------------------------ *)
(** ** Loading a module *)

Lemma lift_ok {A} (r : result A) w a w' :
  lift r w = (Ok a, w') -> r = Ok a /\ w' = w.
Proof. unfold lift. now intros [= -> ->]. Qed.

Lemma wrap_oserror_ok {A} (m : M A) msg w a w' :
  wrap_oserror m msg w = (Ok a, w') -> m w = (Ok a, w').
Proof.
  unfold wrap_oserror, try_except, raise.
  destruct (m w) as [[x|e] w1]; [auto|]. destruct e; discriminate.
Qed.

Lemma wrap_oserror_world {A} (m : M A) msg w :
  snd (wrap_oserror m msg w) = snd (m w).
Proof.
  unfold wrap_oserror, try_except, raise.
  destruct (m w) as [[x|e] w1]; [reflexivity|]. now destruct e.
Qed.

Lemma bind_world {A B} (m : M A) (k : A -> M B) w :
  snd (m w) = w -> (forall a, snd (k a w) = w) -> snd (bind m k w) = w.
Proof.
  unfold bind. destruct (m w) as [[a|e] w1]; simpl; intros ->; auto.
Qed.

Section LoadFacts.
Context {rt : Runtime}.

Lemma read_bytes_world p w : snd (Fs.read_bytes p w) = w.
Proof.
  unfold Fs.read_bytes, Fs.os_error, raise.
  destruct (_ && _); [|reflexivity].
  destruct (Fs.lookup _ _) as [[c|]|]; try reflexivity.
  now destruct (judge _).
Qed.

(** A file that is read is a file of the tree, with these bytes. *)
Lemma read_bytes_ok p w c w' :
  Fs.read_bytes p w = (Ok c, w') ->
  Fs.lookup (fs w) (Paths.locate cwd p) = Some (File c).
Proof.
  unfold Fs.read_bytes, Fs.os_error, raise.
  destruct (_ && _); [|discriminate].
  destruct (Fs.lookup _ _) as [[c0|]|]; try discriminate.
  destruct (judge _); try discriminate. now intros [= -> _].
Qed.

Lemma extract_metadata_world p w : snd (extract_metadata p w) = w.
Proof.
  unfold extract_metadata, raise, ret.
  destruct (run_node _ _) as [|rc out err]; [reflexivity|].
  destruct (negb _); [reflexivity|]. now destruct (json_loads out).
Qed.

(** [load_module] reads and runs; it changes nothing. *)
Lemma load_module_world root p w : snd (load_module root p w) = w.
Proof.
  unfold load_module. apply bind_world.
  - rewrite wrap_oserror_world. apply read_bytes_world.
  - intros source. apply bind_world; [apply extract_metadata_world|].
    intros metadata. apply bind_world; [reflexivity|]. intros name_field.
    destruct (negb _); [reflexivity|].
    apply bind_world; [reflexivity|]. intros version_field.
    now destruct (Paths.relative_to p root).
Qed.

(** A module that [load_module] returns, field by field. *)
Lemma load_module_ok root p w m w' :
  load_module root p w = (Ok m, w') ->
  exists c md name_field version_field rel,
    Fs.read_bytes p w = (Ok c, w)
    /\ extract_metadata p w = (Ok md, w)
    /\ py_get md "name" (PStr "") = Ok name_field
    /\ py_get md "version" (PStr "") = Ok version_field
    /\ Paths.relative_to p root = Some rel
    /\ Text.lower (Text.strip (py_str name_field)) <> ""
    /\ m = mkModuleInfo
             (Text.lower (Text.strip (py_str name_field)))
             (Text.or_else (Text.strip (py_str version_field)) DEFAULT_VERSION)
             p c md
             ("sha256:" ++ Sha256.hexdigest c)%string
             (is_versioned_path rel
                (Text.lower (Text.strip (py_str name_field)))
                (Text.or_else (Text.strip (py_str version_field)) DEFAULT_VERSION)).
Proof.
  unfold load_module. intros H.
  apply bind_ok in H as (c & w1 & Hr & H).
  apply wrap_oserror_ok in Hr.
  assert (w1 = w) by (rewrite <- (read_bytes_world p w); now rewrite Hr). subst w1.
  apply bind_ok in H as (md & w1 & Hmd & H).
  assert (w1 = w) by (rewrite <- (extract_metadata_world p w); now rewrite Hmd).
  subst w1.
  apply bind_ok in H as (nf & w1 & Hn & H). apply lift_ok in Hn as [Hn ->].
  destruct (Text.lower (Text.strip (py_str nf))) as [|ch rest] eqn:En;
    [discriminate H|]. simpl in H.
  apply bind_ok in H as (vf & w1 & Hv & H). apply lift_ok in Hv as [Hv ->].
  destruct (Paths.relative_to p root) as [rel|] eqn:Erel; [|discriminate H].
  unfold ret in H. injection H as <- <-.
  exists c, md, nf, vf, rel. rewrite En. repeat split; try assumption.
  discriminate.
Qed.
End LoadFacts.

(* ------------------------------------------------------------------ *)
(** ** Lower case *)

Lemma lower_char_idem (c : ascii) :
  Text.lower_char (Text.lower_char c) = Text.lower_char c.
Proof. destruct c as [[] [] [] [] [] [] [] []]; reflexivity. Qed.

Lemma lower_idem (s : string) : Text.lower (Text.lower s) = Text.lower s.
Proof.
  induction s as [|c s IH]; simpl; [reflexivity|].
  now rewrite lower_char_idem, IH.
Qed.

Lemma lower_app (a b : string) :
  Text.lower (a ++ b)%string = (Text.lower a ++ Text.lower b)%string.
Proof. induction a as [|c a IH]; simpl; [reflexivity|]. now rewrite IH. Qed.

(** What [is_versioned_path] decides, for a name in lower case. *)
Lemma is_versioned_path_spec (rel : Path) (name version : string) :
  Text.lower name = name ->
  (is_versioned_path rel name version = true
   <-> versioned_layout rel name version).
Proof.
  intros Hname. unfold is_versioned_path, versioned_layout, ci_equal.
  rewrite lower_app, Hname. simpl (Text.lower ".js").
  destruct (length (Paths.parts rel) <? 3)%nat eqn:El.
  - apply Nat.ltb_lt in El. split; [discriminate|]. intros [H _]. lia.
  - apply Nat.ltb_ge in El.
    destruct (String.eqb (Text.lower (from_end 0 (Paths.parts rel)))
                         (name ++ ".js")%string) eqn:Ef; simpl.
    + apply String.eqb_eq in Ef. rewrite String.eqb_eq. tauto.
    + apply String.eqb_neq in Ef. split; [discriminate|]. tauto.
Qed.

(** C4, as amended.  [load_module] marks a module as canonical exactly
    when its path relative to the root has three segments or more, the
    last of them equal to the name followed by [.js] and the one before
    it equal to the version, case left aside; with fewer than three
    segments the module is never canonical.  The segments before the last
    two are not looked at. *)
Theorem load_module_versioned {rt : Runtime}
        (root p : Path) (w w' : world) (m : ModuleInfo) (rel : Path) :
  load_module root p w = (Ok m, w') ->
  Paths.relative_to p root = Some rel ->
  (versioned m = true <-> versioned_layout rel (name m) (version m))
  /\ ((length (Paths.parts rel) < 3)%nat -> versioned m = false).
Proof.
  intros H Hrel.
  apply load_module_ok in H as (c & md & nf & vf & rel' & _ & _ & _ & _ & Hrel' & _ & ->).
  rewrite Hrel in Hrel'. injection Hrel' as <-. simpl.
  assert (Hspec := is_versioned_path_spec rel
                     (Text.lower (Text.strip (py_str nf)))
                     (Text.or_else (Text.strip (py_str vf)) DEFAULT_VERSION)
                     (lower_idem _)).
  split; [exact Hspec|].
  intros Hlen. destruct (is_versioned_path _ _ _); [|reflexivity].
  destruct Hspec as [Hspec _]. destruct (Hspec eq_refl) as [H3 _]. lia.
Qed.

(** The theorem at a module that lies where it belongs. *)
Lemma load_module_versioned_witness :
  @load_module Sample.runtime Sample.root Sample.bar_file Sample.world0
  = (Ok Sample.loaded_bar, Sample.world0)
  /\ Paths.relative_to Sample.bar_file Sample.root
     = Some (mkPath "" ["bar"; "v1"; "bar.js"])
  /\ (versioned Sample.loaded_bar = true
      <-> versioned_layout (mkPath "" ["bar"; "v1"; "bar.js"])
                           (name Sample.loaded_bar) (version Sample.loaded_bar))
  /\ ((length (Paths.parts (mkPath "" ["bar"; "v1"; "bar.js"])) < 3)%nat ->
      versioned Sample.loaded_bar = false).
Proof.
  assert (H1 : @load_module Sample.runtime Sample.root Sample.bar_file Sample.world0
               = (Ok Sample.loaded_bar, Sample.world0))
    by (vm_compute; reflexivity).
  assert (H2 : Paths.relative_to Sample.bar_file Sample.root
               = Some (mkPath "" ["bar"; "v1"; "bar.js"]))
    by reflexivity.
  split; [exact H1|]. split; [exact H2|].
  exact (@load_module_versioned Sample.runtime Sample.root Sample.bar_file
           Sample.world0 Sample.world0 Sample.loaded_bar _ H1 H2).
Defined.

(** C4, as stated, fails: a module one directory further down, under
    [old/bar/v1/bar.js], is marked canonical with its four segments. *)
Lemma load_module_versioned_counterexample :
  @load_module Sample.runtime Sample.root Sample.nested_file Sample.world_nested
  = (Ok Sample.loaded_nested, Sample.world_nested)
  /\ Paths.relative_to Sample.nested_file Sample.root
     = Some (mkPath "" ["old"; "bar"; "v1"; "bar.js"])
  /\ versioned Sample.loaded_nested = true
  /\ ~ canonical_layout (mkPath "" ["old"; "bar"; "v1"; "bar.js"])
                        (name Sample.loaded_nested) (version Sample.loaded_nested).
Proof.
  split; [vm_compute; reflexivity|]. split; [reflexivity|].
  split; [reflexivity|]. intros [Hlen _]. discriminate Hlen.
Qed.

(* ------------------------------------------------------------------ *)
(** ** The content hash *)

(** The digests of the empty message and of [abc], as the standard gives
    them. *)
Example sha256_empty :
  Sha256.hexdigest []
  = "e3b0c44298fc1c149afbf4c8996fb92427ae41e4649b934ca495991b7852b855".
Proof. vm_compute. reflexivity. Qed.

Example sha256_abc :
  Sha256.hexdigest (Sample.bytes "abc")
  = "ba7816bf8f01cfea414140de5dae2223b00361a396177a9cb410ff61f20015ad".
Proof. vm_compute. reflexivity. Qed.

(** A message of two blocks. *)
Example sha256_two_blocks :
  Sha256.hexdigest
    (Sample.bytes
       "aaaaaaaaaaaaaaaaaaaaaaaaaaaaaaaaaaaaaaaaaaaaaaaaaaaaaaaaaaaaaaaaaaaaaa")
  = "6bd5e5034855a11241f0dee8fc72850ffd9955b28347a86428b5fa19119f6ad0".
Proof. vm_compute. reflexivity. Qed.

Lemma hex_digit_lower (n : N) : (n < 16)%N -> is_lower_hex (Sha256.hex_digit n) = true.
Proof.
  intros H. destruct n as [|p]; [reflexivity|].
  do 4 (destruct p as [p|p|]; try reflexivity; try (exfalso; lia)).
Qed.

Lemma hex_shape (count : nat) : forall x acc,
  String.length (Sha256.hex count x acc) = (count + String.length acc)%nat
  /\ (all_chars is_lower_hex acc = true ->
      all_chars is_lower_hex (Sha256.hex count x acc) = true).
Proof.
  induction count as [|count IH]; intros x acc; simpl; [auto|].
  destruct (IH (x / 16)%N (String (Sha256.hex_digit (x mod 16)) acc)) as [Hl Hc].
  split.
  - rewrite Hl. simpl. lia.
  - intros Hacc. apply Hc. simpl. rewrite Hacc.
    rewrite hex_digit_lower; [reflexivity|]. now apply N.mod_lt.
Qed.

Lemma hex_words_shape (ws : list N) :
  String.length (fold_right (fun w acc => Sha256.hex 8 w acc) EmptyString ws)
  = (8 * length ws)%nat
  /\ all_chars is_lower_hex
       (fold_right (fun w acc => Sha256.hex 8 w acc) EmptyString ws) = true.
Proof.
  induction ws as [|x ws [IHl IHc]]; [split; reflexivity|].
  cbn [fold_right length].
  destruct (hex_shape 8 x
              (fold_right (fun w acc => Sha256.hex 8 w acc) EmptyString ws))
    as [Hl Hc].
  split; [rewrite Hl, IHl; lia|now apply Hc].
Qed.

Lemma digest_length (msg : list byte) : length (Sha256.digest msg) = 8%nat.
Proof.
  unfold Sha256.digest.
  now destruct (Sha256.blocks _ _ _) as [[[[[[[a b] c] d] e] f] g] h].
Qed.

(** The digest in text: sixty-four characters, digits and the letters a
    to f. *)
Lemma hexdigest_shape (msg : list byte) :
  String.length (Sha256.hexdigest msg) = 64%nat
  /\ all_chars is_lower_hex (Sha256.hexdigest msg) = true.
Proof.
  unfold Sha256.hexdigest.
  destruct (hex_words_shape (Sha256.digest msg)) as [Hl Hc].
  rewrite digest_length in Hl. split; assumption.
Qed.

(** C5.  The content hash that [load_module] gives a module is the text
    [sha256:] followed by the SHA-256 digest of the bytes of its file in
    lower-case hexadecimal; two modules whose files hold the same bytes
    have the same content hash, whatever the machines, the roots, the
    files and the declared names and versions. *)
Theorem load_module_content_hash
        (rt1 rt2 : Runtime) (root1 root2 p1 p2 : Path) (w1 w1' w2 w2' : world)
        (m1 m2 : ModuleInfo) :
  @load_module rt1 root1 p1 w1 = (Ok m1, w1') ->
  @load_module rt2 root2 p2 w2 = (Ok m2, w2') ->
  exists c1 c2,
    Fs.lookup (fs w1) (Paths.locate (@cwd rt1) p1) = Some (File c1)
    /\ Fs.lookup (fs w2) (Paths.locate (@cwd rt2) p2) = Some (File c2)
    /\ source m1 = c1 /\ source m2 = c2
    /\ sha256 m1 = ("sha256:" ++ Sha256.hexdigest c1)%string
    /\ sha256 m2 = ("sha256:" ++ Sha256.hexdigest c2)%string
    /\ String.length (Sha256.hexdigest c1) = 64%nat
    /\ all_chars is_lower_hex (Sha256.hexdigest c1) = true
    /\ (c1 = c2 -> sha256 m1 = sha256 m2).
Proof.
  intros H1 H2.
  apply load_module_ok in H1 as (c1 & md1 & nf1 & vf1 & rel1 & Hr1 & _ & _ & _ & _ & _ & ->).
  apply load_module_ok in H2 as (c2 & md2 & nf2 & vf2 & rel2 & Hr2 & _ & _ & _ & _ & _ & ->).
  apply read_bytes_ok in Hr1, Hr2.
  exists c1, c2. simpl. destruct (hexdigest_shape c1) as [Hl Hc].
  repeat split; try assumption. now intros ->.
Qed.

(** The theorem at two files with the same bytes, under different names
    and versions. *)
Lemma load_module_content_hash_witness :
  @load_module Sample.runtime Sample.root Sample.bar_file Sample.world_nested
  = (Ok Sample.loaded_bar, Sample.world_nested)
  /\ @load_module Sample.runtime Sample.root Sample.nested_file Sample.world_nested
     = (Ok Sample.loaded_nested, Sample.world_nested)
  /\ sha256 Sample.loaded_bar = sha256 Sample.loaded_nested
  /\ exists c1 c2,
    Fs.lookup (fs Sample.world_nested) (Paths.locate (@cwd Sample.runtime) Sample.bar_file)
    = Some (File c1)
    /\ Fs.lookup (fs Sample.world_nested)
                 (Paths.locate (@cwd Sample.runtime) Sample.nested_file)
       = Some (File c2)
    /\ source Sample.loaded_bar = c1 /\ source Sample.loaded_nested = c2
    /\ sha256 Sample.loaded_bar = ("sha256:" ++ Sha256.hexdigest c1)%string
    /\ sha256 Sample.loaded_nested = ("sha256:" ++ Sha256.hexdigest c2)%string
    /\ String.length (Sha256.hexdigest c1) = 64%nat
    /\ all_chars is_lower_hex (Sha256.hexdigest c1) = true
    /\ (c1 = c2 -> sha256 Sample.loaded_bar = sha256 Sample.loaded_nested).
Proof.
  assert (H1 : @load_module Sample.runtime Sample.root Sample.bar_file
                 Sample.world_nested = (Ok Sample.loaded_bar, Sample.world_nested))
    by (vm_compute; reflexivity).
  assert (H2 : @load_module Sample.runtime Sample.root Sample.nested_file
                 Sample.world_nested = (Ok Sample.loaded_nested, Sample.world_nested))
    by (vm_compute; reflexivity).
  split; [exact H1|]. split; [exact H2|]. split; [reflexivity|].
  exact (load_module_content_hash Sample.runtime Sample.runtime Sample.root
           Sample.root Sample.bar_file Sample.nested_file Sample.world_nested
           Sample.world_nested Sample.world_nested Sample.world_nested
           Sample.loaded_bar Sample.loaded_nested H1 H2).
Defined.

(* ------------------------------------------------------------------ *)
(** ** A module without a name *)

Section AbortFacts.
Context {rt : Runtime}.

(** A blank name is an error of [load_module] that names the file. *)
Lemma load_module_blank_name root p w c d :
  Fs.read_bytes p w = (Ok c, w) ->
  extract_metadata p w = (Ok (PDict d), w) ->
  Text.strip (py_str (match sget d "name" with Some v => v | None => PStr "" end))
  = "" ->
  load_module root p w
  = (Raise (BootstrapError (Paths.to_string p ++ ": metadata.name required")%string), w).
Proof.
  intros Hr Hmd Hblank. unfold load_module, bind, wrap_oserror, try_except.
  rewrite Hr, Hmd. unfold lift, py_get. rewrite Hblank. reflexivity.
Qed.

(** The loop of [discover_modules] stops at a file that does not load. *)
Lemma load_each_abort root w p e : forall files acc,
  In p files -> Paths.name p <> "registry.json" ->
  load_module root p w = (Raise e, w) ->
  exists e', load_each root files acc w = (Raise e', w).
Proof.
  induction files as [|q files IH]; intros acc Hin Hname Hload; [destruct Hin|].
  simpl. destruct (String.eqb (Paths.name q) "registry.json") eqn:Eq.
  - destruct Hin as [->|Hin]; [|now apply IH].
    apply String.eqb_eq in Eq. contradiction.
  - unfold bind. pose proof (load_module_world root q w) as Hw.
    destruct (load_module root q w) as [[m|e0] w0] eqn:El; simpl in Hw; subst w0.
    + destruct Hin as [->|Hin]; [congruence|now apply IH].
    + eauto.
Qed.

(** It stops there with the error of that file when the files before it
    load. *)
Lemma load_each_first root w p e : forall pre post acc,
  (forall q, In q pre ->
             Paths.name q = "registry.json"
             \/ exists m, load_module root q w = (Ok m, w)) ->
  Paths.name p <> "registry.json" ->
  load_module root p w = (Raise e, w) ->
  load_each root (pre ++ p :: post) acc w = (Raise e, w).
Proof.
  induction pre as [|q pre IH]; intros post acc Hpre Hname Hload; simpl.
  - apply String.eqb_neq in Hname. rewrite Hname. unfold bind. now rewrite Hload.
  - destruct (String.eqb (Paths.name q) "registry.json") eqn:Eq.
    + apply IH; auto. intros q' Hq'. apply Hpre. now right.
    + destruct (Hpre q (or_introl eq_refl)) as [Hq|[m Hm]].
      * apply String.eqb_neq in Eq. contradiction.
      * unfold bind. rewrite Hm. apply IH; auto.
        intros q' Hq'. apply Hpre. now right.
Qed.

Lemma rglob_js_world root w : snd (Fs.rglob_js root w) = w.
Proof. unfold Fs.rglob_js. now destruct (_ && _). Qed.

(** [main] when the discovery raises: the error is reported and the
    status is 1, or the exception leaves [main]; nothing is written. *)
Lemma main_discovery_fails argv root_arg write usage usage_output w root w1 e :
  parse_argv argv = inl (root_arg, write, usage, usage_output) ->
  ensure_dir root_arg w = (Ok root, w1) ->
  discover_modules root w1 = (Raise e, w1) ->
  main argv w
  = match e with
    | BootstrapError msg =>
        (Ok 1%Z, mkWorld (fs w1) (stdout w1)
                         (stderr w1 ++ [("bootstrap: " ++ msg)%string]) (trace w1))
    | _ => (Raise e, w1)
    end.
Proof.
  intros Hp He Hd. unfold main, try_except. rewrite Hp. unfold bind at 1.
  rewrite He. unfold bind at 1. rewrite Hd. destruct e; reflexivity.
Qed.
End AbortFacts.

(** C6.  A file found by the discovery whose metadata give a name that is
    blank once trimmed, a missing name included: [load_module] raises an
    error that names the file; [discover_modules] raises; [main] does not
    return 0, writes no manifest (the file tree stays as [ensure_dir] left
    it) and prints nothing on the standard output.  When the files sorted
    before that one load, [main] returns 1 after reporting that very
    error. *)
Theorem blank_name_aborts {rt : Runtime}
        (argv : list string) (root_arg : string) (write : bool)
        (usage : option string) (usage_output : string)
        (w w1 : world) (root : Path) (files : list Path) (p : Path)
        (c : list byte) (d : list (string * pyobj)) :
  parse_argv argv = inl (root_arg, write, usage, usage_output) ->
  ensure_dir root_arg w = (Ok root, w1) ->
  Fs.rglob_js root w1 = (Ok files, w1) ->
  In p files -> Paths.name p <> "registry.json" ->
  Fs.read_bytes p w1 = (Ok c, w1) ->
  extract_metadata p w1 = (Ok (PDict d), w1) ->
  Text.strip (py_str (match sget d "name" with Some v => v | None => PStr "" end))
  = "" ->
  load_module root p w1
  = (Raise (BootstrapError (Paths.to_string p ++ ": metadata.name required")%string), w1)
  /\ (exists e, discover_modules root w1 = (Raise e, w1))
  /\ (exists r w', main argv w = (r, w') /\ r <> Ok 0%Z
                   /\ fs w' = fs w1 /\ stdout w' = stdout w1)
  /\ (forall pre post,
         Order.sorted path_le files = pre ++ p :: post ->
         (forall q, In q pre ->
                    Paths.name q = "registry.json"
                    \/ exists m, load_module root q w1 = (Ok m, w1)) ->
         main argv w
         = (Ok 1%Z,
            mkWorld (fs w1) (stdout w1)
                    (stderr w1 ++ [("bootstrap: " ++ Paths.to_string p
                                    ++ ": metadata.name required")%string])
                    (trace w1))).
Proof.
  intros Hparse Hens Hglob Hin Hname Hread Hmd Hblank.
  pose proof (load_module_blank_name root p w1 c d Hread Hmd Hblank) as Hload.
  split; [exact Hload|].
  assert (Hsorted : In p (Order.sorted path_le files)).
  { unfold Order.sorted.
    assert (G : forall l acc, In p l \/ In p acc ->
                In p (fold_left (fun a x => Order.insert path_le x a) l acc)).
    { induction l as [|x l IH]; intros acc [H|H]; simpl in *; try tauto.
      - apply IH. destruct H as [->|H]; [right|now left].
        apply (Permutation_in _ (Permutation_sym (insert_perm _ path_le p acc))).
        now left.
      - apply IH. right.
        apply (Permutation_in _ (Permutation_sym (insert_perm _ path_le x acc))).
        now right. }
    apply G. now left. }
  assert (Hdisc : exists e, discover_modules root w1 = (Raise e, w1)).
  { destruct (load_each_abort root w1 p _ (Order.sorted path_le files) []
                Hsorted Hname Hload) as [e He].
    exists e. unfold discover_modules, bind. now rewrite Hglob. }
  split; [exact Hdisc|]. split.
  - destruct Hdisc as [e He].
    rewrite (main_discovery_fails argv _ _ _ _ w root w1 e Hparse Hens He).
    destruct e; eexists; eexists; (split; [reflexivity|]);
      (split; [discriminate|split; reflexivity]).
  - intros pre post Hs Hpre.
    rewrite (main_discovery_fails argv _ _ _ _ w root w1
               (BootstrapError (Paths.to_string p ++ ": metadata.name required")%string)
               Hparse Hens); [reflexivity|].
    unfold discover_modules, bind. rewrite Hglob, Hs.
    now apply load_each_first.
Qed.

(** The theorem at a tree with a module that exports a version and no
    name: its file sorts first, and the run ends with the status 1. *)
Lemma blank_name_aborts_witness :
  @parse_argv Sample.runtime [] = inl ("/srv/strategies", false, None, "usage.json")
  /\ @ensure_dir Sample.runtime "/srv/strategies" Sample.world_anon
     = (Ok Sample.root, Sample.world_anon)
  /\ @Fs.rglob_js Sample.runtime Sample.root Sample.world_anon
     = (Ok Sample.anon_files, Sample.world_anon)
  /\ In Sample.anon_file Sample.anon_files
  /\ @extract_metadata Sample.runtime Sample.anon_file Sample.world_anon
     = (Ok (PDict [("version", PStr "v3")]), Sample.world_anon)
  /\ @load_module Sample.runtime Sample.root Sample.anon_file Sample.world_anon
     = (Raise (BootstrapError "/srv/strategies/anon.js: metadata.name required"),
        Sample.world_anon)
  /\ @main Sample.runtime [] Sample.world_anon
     = (Ok 1%Z,
        mkWorld Sample.tree_anon []
                ["bootstrap: /srv/strategies/anon.js: metadata.name required"] []).
Proof.
  assert (H1 : @parse_argv Sample.runtime []
               = inl ("/srv/strategies", false, None, "usage.json"))
    by reflexivity.
  assert (H2 : @ensure_dir Sample.runtime "/srv/strategies" Sample.world_anon
               = (Ok Sample.root, Sample.world_anon))
    by (vm_compute; reflexivity).
  assert (H3 : @Fs.rglob_js Sample.runtime Sample.root Sample.world_anon
               = (Ok Sample.anon_files, Sample.world_anon))
    by (vm_compute; reflexivity).
  assert (H4 : In Sample.anon_file Sample.anon_files)
    by (right; right; right; left; reflexivity).
  assert (H5 : Paths.name Sample.anon_file <> "registry.json")
    by (vm_compute; discriminate).
  assert (H6 : @Fs.read_bytes Sample.runtime Sample.anon_file Sample.world_anon
               = (Ok (Sample.bytes "exports.metadata = {version: 3}"),
                  Sample.world_anon))
    by (vm_compute; reflexivity).
  assert (H7 : @extract_metadata Sample.runtime Sample.anon_file Sample.world_anon
               = (Ok (PDict [("version", PStr "v3")]), Sample.world_anon))
    by (vm_compute; reflexivity).
  assert (H8 : Text.strip
                 (@py_str Sample.runtime
                    (match sget [("version", PStr "v3")] "name" with
                     | Some v => v
                     | None => PStr ""
                     end)) = "")
    by reflexivity.
  destruct (@blank_name_aborts Sample.runtime [] "/srv/strategies" false None
              "usage.json" Sample.world_anon Sample.world_anon Sample.root
              Sample.anon_files Sample.anon_file _ _ H1 H2 H3 H4 H5 H6 H7 H8)
    as (T1 & _ & _ & T4).
  split; [exact H1|]. split; [exact H2|]. split; [exact H3|].
  split; [exact H4|]. split; [exact H7|]. split; [exact T1|].
  apply (T4 [] (tl (Order.sorted (@path_le) Sample.anon_files))).
  - vm_compute. reflexivity.
  - intros q [].
Defined.

(* ------------------------------------------------------------------ *)
(** ** Writing the manifest *)

Lemma lookup_store_same (t : tree) k n : Fs.lookup (Fs.store t k n) k = Some n.
Proof. apply get_set_same, seg_eqb_eq. Qed.

Lemma lookup_store_other (t : tree) k k' n :
  k <> k' -> Fs.lookup (Fs.store t k n) k' = Fs.lookup t k'.
Proof. apply get_set_other, seg_eqb_eq. Qed.

Lemma lookup_erase_same (t : tree) k : Fs.lookup (Fs.erase t k) k = None.
Proof. apply get_remove_same. Qed.

Lemma lookup_erase_other (t : tree) k k' :
  k <> k' -> Fs.lookup (Fs.erase t k) k' = Fs.lookup t k'.
Proof. apply get_remove_other, seg_eqb_eq. Qed.

Lemma normalize_snoc (l : list string) (x : string) :
  x <> ".." -> Paths.normalize (l ++ [x]) = Paths.normalize l ++ [x].
Proof.
  intros Hx. unfold Paths.normalize. rewrite fold_left_app. simpl.
  apply String.eqb_neq in Hx. now rewrite Hx.
Qed.

(** A child of a directory lies in it, under its own name. *)
Lemma locate_child cwd0 (root : Path) (x : string) :
  x <> ".." ->
  Paths.locate cwd0 (mkPath (anchor root) (segs root ++ [x]))
  = Paths.locate cwd0 root ++ [x].
Proof.
  intros Hx. unfold Paths.locate. simpl.
  destruct (Text.truthy (anchor root)).
  - now apply normalize_snoc.
  - rewrite app_assoc. now apply normalize_snoc.
Qed.

Section WriteFacts.
Context {rt : Runtime}.

(** The temporary file and the manifest are two places. *)
Lemma tmp_is_not_target (root : Path) :
  Paths.locate cwd (Paths.join root "registry.json.tmp")
  <> Paths.locate cwd (Paths.join root "registry.json").
Proof.
  change (Paths.join root "registry.json.tmp")
    with (mkPath (anchor root) (segs root ++ ["registry.json.tmp"])).
  change (Paths.join root "registry.json")
    with (mkPath (anchor root) (segs root ++ ["registry.json"])).
  rewrite !locate_child by discriminate.
  intros H. apply app_inj_tail in H. destruct H as [_ H]. discriminate H.
Qed.

(** A write that succeeds leaves the bytes in the file. *)
Lemma write_bytes_ok p data w w1 :
  Fs.write_bytes p data w = (Ok tt, w1) ->
  fs w1 = Fs.store (fs w) (Paths.locate cwd p) (File data).
Proof.
  unfold Fs.write_bytes, Fs.os_error, raise.
  destruct (Paths.locate cwd p) as [|x k]; [discriminate|].
  destruct (_ && _); [|discriminate].
  destruct (judge _); try discriminate. now intros [= <-].
Qed.

(** A write that fails raises [OSError] and touches no other file. *)
Lemma write_bytes_fails p data w e w1 :
  Fs.write_bytes p data w = (Raise e, w1) ->
  (exists exc, e = OSError exc)
  /\ forall k, k <> Paths.locate cwd p -> Fs.lookup (fs w1) k = Fs.lookup (fs w) k.
Proof.
  unfold Fs.write_bytes, Fs.os_error, raise.
  destruct (Paths.locate cwd p) as [|x k0] eqn:Ek.
  - intros [= <- <-]. eauto.
  - destruct (_ && _).
    + destruct (judge _) as [| |written]; try discriminate.
      * intros [= <- <-]. eauto.
      * intros [= <- <-]. split; [eauto|]. intros k Hk. simpl.
        apply lookup_store_other. congruence.
    + intros [= <- <-]. eauto.
Qed.

(** A rename that succeeds, of a file: the file is at the new place and
    nothing is left at the old one. *)
Lemma replace_file_ok src dst w w2 c :
  Fs.replace src dst w = (Ok tt, w2) ->
  Fs.lookup (fs w) (Paths.locate cwd src) = Some (File c) ->
  Paths.locate cwd src <> Paths.locate cwd dst ->
  fs w2 = Fs.store (Fs.erase (fs w) (Paths.locate cwd src))
                   (Paths.locate cwd dst) (File c).
Proof.
  unfold Fs.replace, Fs.os_error, raise. intros H Hsrc Hne.
  destruct (Paths.locate cwd src) as [|x s] eqn:Es; [discriminate|].
  destruct (Paths.locate cwd dst) as [|y d] eqn:Ed; [discriminate|].
  destruct (negb _); [discriminate|].
  rewrite Hsrc in H. destruct (judge _); try discriminate.
  destruct (Fs.is_dir _ _); [discriminate|].
  destruct (Paths.seg_eqb (x :: s) (y :: d)) eqn:E.
  - apply seg_eqb_eq in E. contradiction.
  - now injection H as <-.
Qed.

Lemma replace_fails src dst w e w2 :
  Fs.replace src dst w = (Raise e, w2) -> exists exc, e = OSError exc.
Proof.
  unfold Fs.replace, Fs.os_error, raise. intros H.
  repeat match type of H with
         | (Raise _, _) = _ => injection H as <- _; eauto
         | (Ok _, _) = _ => discriminate H
         | context [match ?x with _ => _ end] => destruct x
         | context [if ?x then _ else _] => destruct x
         end.
Qed.
End WriteFacts.

(** C7.  [write_registry] writes the manifest, serialized and followed by
    a newline, to [registry.json.tmp] next to the destination.  When that
    write succeeds, the temporary file holds the text and is then renamed:
    a rename that succeeds leaves the text in [registry.json] and nothing
    under the temporary name, one that fails makes [write_registry] raise.
    When the write fails, [write_registry] raises a [BootstrapError] and
    what was at [registry.json] is as it was. *)
Theorem write_registry_atomic {rt : Runtime}
        (root : Path) (reg : registry) (w w1 : world) (r : result unit) :
  Fs.write_text (Paths.join root "registry.json.tmp")
                (Json.dumps reg ++ newline)%string w = (r, w1) ->
  match r with
  | Ok _ =>
      Fs.lookup (fs w1) (Paths.locate cwd (Paths.join root "registry.json.tmp"))
      = Some (File (Text.encode_utf8 (Json.dumps reg ++ newline)%string))
      /\ (forall w2,
             Fs.replace (Paths.join root "registry.json.tmp")
                        (Paths.join root "registry.json") w1 = (Ok tt, w2) ->
             write_registry root reg w = (Ok tt, w2)
             /\ Fs.lookup (fs w2) (Paths.locate cwd (Paths.join root "registry.json"))
                = Some (File (Text.encode_utf8 (Json.dumps reg ++ newline)%string))
             /\ Fs.lookup (fs w2)
                          (Paths.locate cwd (Paths.join root "registry.json.tmp"))
                = None)
      /\ (forall e w2,
             Fs.replace (Paths.join root "registry.json.tmp")
                        (Paths.join root "registry.json") w1 = (Raise e, w2) ->
             exists exc,
               write_registry root reg w
               = (Raise (BootstrapError ("write registry: " ++ exc)%string), w2))
  | Raise e =>
      (exists exc,
          e = OSError exc
          /\ write_registry root reg w
             = (Raise (BootstrapError ("write registry: " ++ exc)%string), w1))
      /\ Fs.lookup (fs w1) (Paths.locate cwd (Paths.join root "registry.json"))
         = Fs.lookup (fs w) (Paths.locate cwd (Paths.join root "registry.json"))
  end.
Proof.
  intros Hw. unfold write_registry, wrap_oserror, try_except, bind.
  rewrite Hw. unfold Fs.write_text in Hw. destruct r as [[]|e].
  - pose proof (write_bytes_ok _ _ _ _ Hw) as Hfs.
    assert (Htmp : Fs.lookup (fs w1)
                     (Paths.locate cwd (Paths.join root "registry.json.tmp"))
                   = Some (File (Text.encode_utf8 (Json.dumps reg ++ newline)%string))).
    { rewrite Hfs. apply lookup_store_same. }
    split; [exact Htmp|]. split.
    + intros w2 Hr. rewrite Hr. split; [reflexivity|].
      rewrite (replace_file_ok _ _ _ _ _ Hr Htmp (tmp_is_not_target root)).
      split.
      * apply lookup_store_same.
      * rewrite lookup_store_other by (intros E; symmetry in E;
                                       now apply (tmp_is_not_target root)).
        apply lookup_erase_same.
    + intros e w2 Hr. rewrite Hr.
      destruct (replace_fails _ _ _ _ _ Hr) as [exc ->].
      exists exc. reflexivity.
  - destruct (write_bytes_fails _ _ _ _ _ Hw) as [[exc ->] Hother].
    split; [exists exc; split; reflexivity|]. apply Hother.
    intros E. symmetry in E. now apply (tmp_is_not_target root).
Qed.

(** The theorem on a full disk: the write is refused, the error is
    wrapped, and the manifest of the run before is still there. *)
Lemma write_registry_atomic_witness :
  @Fs.write_text Sample.full_disk (Paths.join Sample.root "registry.json.tmp")
                 (Json.dumps Sample.registry_bar ++ newline)%string Sample.world0
  = (Raise (OSError "[Errno 28] No space left on device"), Sample.world0)
  /\ @write_registry Sample.full_disk Sample.root Sample.registry_bar Sample.world0
     = (Raise (BootstrapError
                 "write registry: [Errno 28] No space left on device"),
        Sample.world0)
  /\ Fs.lookup (fs Sample.world0) ["srv"; "strategies"; "registry.json"]
     = Some (File (Sample.bytes "{}")).
Proof.
  assert (H : @Fs.write_text Sample.full_disk
                (Paths.join Sample.root "registry.json.tmp")
                (Json.dumps Sample.registry_bar ++ newline)%string Sample.world0
              = (Raise (OSError "[Errno 28] No space left on device"),
                 Sample.world0))
    by (vm_compute; reflexivity).
  split; [exact H|].
  destruct (@write_registry_atomic Sample.full_disk Sample.root Sample.registry_bar
              Sample.world0 Sample.world0 _ H) as [(exc & Hexc & Hraise) Hkeep].
  injection Hexc as <-. split; [exact Hraise|]. reflexivity.
Defined.

(** On the sample machine the write and the rename go through. *)
Example write_registry_sample :
  exists w2,
    @write_registry Sample.runtime Sample.root Sample.registry_bar Sample.world0
    = (Ok tt, w2)
    /\ Fs.lookup (fs w2) ["srv"; "strategies"; "registry.json"]
       = Some (File (Text.encode_utf8 (Json.dumps Sample.registry_bar ++ newline)%string))
    /\ Fs.lookup (fs w2) ["srv"; "strategies"; "registry.json.tmp"] = None.
Proof. eexists. vm_compute. repeat split. Qed.

(* ------------------------------------------------------------------ *)
(** ** The root directory *)

Lemma strip_prefix_app (pre : list string) : forall l rest,
  Paths.strip_prefix pre l = Some rest -> l = pre ++ rest.
Proof.
  induction pre as [|x pre IH]; intros [|y l] rest; simpl; try discriminate.
  - now intros [= <-].
  - now intros [= <-].
  - destruct (String.eqb x y) eqn:E; [|discriminate].
    apply String.eqb_eq in E. subst y. intros H. now rewrite (IH _ _ H).
Qed.

Lemma prefixes_length (k : list string) : forall a,
  In a (Fs.prefixes k) -> (length a <= length k)%nat.
Proof.
  induction k as [|x k IH]; intros a; simpl; [intros []|].
  intros [<-|H]; [simpl; lia|].
  apply in_map_iff in H. destruct H as (b & <- & Hb). simpl.
  apply IH in Hb. lia.
Qed.

Lemma prefixes_self (k : list string) : k <> [] -> In k (Fs.prefixes k).
Proof.
  induction k as [|x k IH]; [congruence|]. intros _. simpl.
  destruct k as [|y k]; [now left|]. right. apply in_map. apply IH. discriminate.
Qed.

(** Nothing on the way down to a place lies below that place. *)
Lemma prefix_not_below (k a : list string) :
  In a (Fs.prefixes k) ->
  match Paths.strip_prefix k a with Some (_ :: _) => False | _ => True end.
Proof.
  intros Ha. destruct (Paths.strip_prefix k a) as [[|x rest]|] eqn:E; auto.
  apply strip_prefix_app in E. apply prefixes_length in Ha.
  subst a. rewrite length_app in Ha. simpl in Ha. lia.
Qed.

Lemma has_child_store (t : tree) (k a : list string) (n : node) :
  Fs.has_child (Fs.store t a n) k = true ->
  Fs.has_child t k = true
  \/ match Paths.strip_prefix k a with Some (_ :: _) => True | _ => False end.
Proof.
  unfold Fs.has_child, Fs.store.
  induction t as [|[b v] t IH]; simpl.
  - destruct (Paths.strip_prefix k a) as [[|x r]|]; simpl; try discriminate. auto.
  - destruct (Paths.seg_eqb b a) eqn:E; simpl.
    + apply seg_eqb_eq in E. subst b.
      destruct (Paths.strip_prefix k a) as [[|x r]|]; simpl; auto.
    + destruct (Paths.strip_prefix k b) as [[|x r]|]; simpl; auto.
Qed.

Lemma flat_map_nil_when (A B : Type) (f : A -> list B) (g : A -> bool) (l : list A) :
  (forall x, g x = false -> f x = []) ->
  existsb g l = false -> flat_map f l = [].
Proof.
  intros Hfg. induction l as [|x l IH]; simpl; [reflexivity|].
  intros H. apply orb_false_iff in H. destruct H as [Hx Hl].
  now rewrite (Hfg x Hx), IH.
Qed.

Section RootFacts.
Context {rt : Runtime}.

Lemma creatable_store (t : tree) (a b : list string) :
  creatable t b -> creatable (Fs.store t a Dir) b.
Proof.
  intros H. destruct (list_eq_dec string_dec a b) as [->|Hne].
  - left. apply lookup_store_same.
  - unfold creatable. now rewrite lookup_store_other.
Qed.

(** Directories that can be created are created; the rest of the tree and
    the output stay. *)
Lemma make_dirs_ok (k : list string) (ks : list (list string)) : forall w,
  (forall a, In a ks -> creatable (fs w) a) ->
  exists t',
    Fs.make_dirs ks w = (Ok tt, with_fs t' w)
    /\ (forall a, In a ks -> Fs.lookup t' a = Some Dir)
    /\ (forall a, ~ In a ks -> Fs.lookup t' a = Fs.lookup (fs w) a)
    /\ (Fs.has_child t' k = true ->
        Fs.has_child (fs w) k = true
        \/ exists a, In a ks
                     /\ match Paths.strip_prefix k a with
                        | Some (_ :: _) => True
                        | _ => False
                        end).
Proof.
  induction ks as [|a ks IH]; intros w Hc; simpl.
  - exists (fs w). destruct w. unfold ret, with_fs. simpl.
    repeat split; auto. intros a [].
  - assert (Hrest : forall t, t = fs w \/ t = Fs.store (fs w) a Dir ->
                      forall b, In b ks -> creatable t b).
    { intros t [->| ->] b Hb; [|apply creatable_store]; apply Hc; now right. }
    destruct (Hc a (or_introl eq_refl)) as [Hd|[Hn Hj]].
    + rewrite Hd.
      destruct (IH w (Hrest _ (or_introl eq_refl))) as (t' & Hm & Hdirs & Hframe & Hch).
      exists t'. split; [exact Hm|]. split; [|split].
      * intros b [<-|Hb]; [|now apply Hdirs].
        destruct (in_dec (list_eq_dec string_dec) a ks) as [Hin|Hnin].
        -- now apply Hdirs.
        -- now rewrite Hframe.
      * intros b Hb. apply Hframe. tauto.
      * intros H. destruct (Hch H) as [H1|(b & Hb & H2)]; [now left|].
        right. exists b. split; [now right|assumption].
    + rewrite Hn, Hj.
      destruct (IH (with_fs (Fs.store (fs w) a Dir) w)
                  (Hrest _ (or_intror eq_refl))) as (t' & Hm & Hdirs & Hframe & Hch).
      exists t'. split; [exact Hm|]. simpl in *. split; [|split].
      * intros b [<-|Hb]; [|now apply Hdirs].
        destruct (in_dec (list_eq_dec string_dec) a ks) as [Hin|Hnin].
        -- now apply Hdirs.
        -- rewrite Hframe by assumption. apply lookup_store_same.
      * intros b Hb. rewrite Hframe by tauto.
        apply lookup_store_other. tauto.
      * intros H. destruct (Hch H) as [H1|(b & Hb & H2)].
        -- apply has_child_store in H1. destruct H1 as [H1|H1]; [now left|].
           right. exists a. split; [now left|assumption].
        -- right. exists b. split; [now right|assumption].
Qed.

(** [mkdir] raises nothing but [OSError]. *)
Lemma make_dirs_fails (ks : list (list string)) : forall w e w',
  Fs.make_dirs ks w = (Raise e, w') -> exists exc, e = OSError exc.
Proof.
  induction ks as [|a ks IH]; intros w e w'; simpl; [discriminate|].
  unfold Fs.os_error, raise.
  destruct (Fs.lookup (fs w) a) as [[c|]|].
  - intros [= <- _]. eauto.
  - apply IH.
  - destruct (judge _); try (intros [= <- _]; eauto). apply IH.
Qed.

Lemma expanduser_world p w : snd (Fs.expanduser p w) = w.
Proof.
  unfold Fs.expanduser.
  destruct (anchor p) as [|c a]; [|reflexivity].
  destruct (segs p) as [|[|c s] rest]; try reflexivity.
  destruct c as [[] [] [] [] [] [] [] []]; try reflexivity.
  destruct (os_expanduser _) as [|c' h]; [reflexivity|].
  destruct c' as [[] [] [] [] [] [] [] []]; reflexivity.
Qed.

Lemma expanduser_fails p w e w' :
  Fs.expanduser p w = (Raise e, w') -> e = RuntimeError.
Proof.
  unfold Fs.expanduser.
  destruct (anchor p) as [|c a]; [|discriminate].
  destruct (segs p) as [|[|c s] rest]; try discriminate.
  destruct c as [[] [] [] [] [] [] [] []]; try discriminate.
  destruct (os_expanduser _) as [|c' h]; [discriminate|].
  destruct c' as [[] [] [] [] [] [] [] []]; try discriminate.
  now intros [= <- _].
Qed.

(** Nothing below the root: the discovery finds nothing. *)
Lemma rglob_js_empty root w :
  Fs.has_child (fs w) (Paths.locate cwd root) = false ->
  Fs.rglob_js root w = (Ok [], w).
Proof.
  unfold Fs.rglob_js, Fs.has_child. intros H.
  destruct (_ && _); [|reflexivity]. f_equal. f_equal.
  apply flat_map_nil_when with (2 := H). intros kv Hkv.
  now destruct (Paths.strip_prefix (Paths.locate cwd root) (fst kv)) as [[|x rest]|].
Qed.

(** [main] on a root where nothing is found. *)
Lemma main_nothing_found argv root_arg write usage usage_output w root w1 :
  parse_argv argv = inl (root_arg, write, usage, usage_output) ->
  ensure_dir root_arg w = (Ok root, w1) ->
  Fs.rglob_js root w1 = (Ok [], w1) ->
  main argv w
  = (Ok 1%Z,
     mkWorld (fs w1) (stdout w1)
             (stderr w1 ++ [("bootstrap: no JavaScript strategies found under "
                            ++ Paths.to_string root)%string])
             (trace w1)).
Proof.
  intros Hp He Hg. unfold main, try_except. rewrite Hp. unfold bind at 1.
  rewrite He. unfold bind at 1. unfold discover_modules, bind at 1.
  rewrite Hg. reflexivity.
Qed.

(** A path without double dots is its own normal form, and a normal form
    has no double dots. *)
Lemma normalize_fold_clean (l : list string) : forall acc,
  (forall x, In x l -> x <> "..") ->
  fold_left (fun acc x => if String.eqb x ".." then tl acc else x :: acc) l acc
  = rev l ++ acc.
Proof.
  induction l as [|y l IH]; intros acc H; simpl; [reflexivity|].
  assert (Hy : String.eqb y ".." = false).
  { apply String.eqb_neq. apply H. now left. }
  rewrite Hy, IH by (intros x Hx; apply H; now right).
  now rewrite <- app_assoc.
Qed.

Lemma normalize_clean (l : list string) :
  (forall x, In x l -> x <> "..") -> Paths.normalize l = l.
Proof.
  intros H. unfold Paths.normalize. rewrite (normalize_fold_clean _ _ H).
  now rewrite app_nil_r, rev_involutive.
Qed.

Lemma normalize_fold_no_dots (l : list string) : forall acc x,
  (forall y, In y acc -> y <> "..") ->
  In x (fold_left (fun acc x => if String.eqb x ".." then tl acc else x :: acc) l acc) ->
  x <> "..".
Proof.
  induction l as [|y l IH]; intros acc x Hacc; simpl; [apply Hacc|].
  apply IH. destruct (String.eqb y "..") eqn:Ey.
  - intros z Hz. apply Hacc. destruct acc; [destruct Hz|now right].
  - apply String.eqb_neq in Ey. intros z [<-|Hz]; [exact Ey|now apply Hacc].
Qed.

Lemma normalize_no_dots (l : list string) (x : string) :
  In x (Paths.normalize l) -> x <> "..".
Proof.
  unfold Paths.normalize. intros H. apply in_rev in H.
  apply (normalize_fold_no_dots _ _ _ (fun y (Hy : In y []) => match Hy with end) H).
Qed.

Lemma prefixes_within (k : list string) : forall a x,
  In a (Fs.prefixes k) -> In x a -> In x k.
Proof.
  induction k as [|y k IH]; intros a x; simpl; [intros []|].
  intros [<-|H] Hx.
  - destruct Hx as [<-|[]]. now left.
  - apply in_map_iff in H. destruct H as (b & <- & Hb).
    destruct Hx as [<-|Hx]; [now left|]. right. now apply (IH b).
Qed.

Lemma prefixes_nonempty (k a : list string) : In a (Fs.prefixes k) -> a <> [].
Proof.
  destruct k as [|y k]; simpl; [intros []|].
  intros [<-|H]; [discriminate|].
  apply in_map_iff in H. destruct H as (b & <- & _). discriminate.
Qed.

Lemma filter_keep {A} (f : A -> bool) (l : list A) :
  (forall x, In x l -> f x = true) -> filter f l = l.
Proof.
  induction l as [|x l IH]; intros H; simpl; [reflexivity|].
  rewrite (H x) by now left. f_equal. apply IH. intros y Hy. apply H. now right.
Qed.

(** A resolved path denotes the place it names. *)
Lemma locate_resolve (p : Path) :
  Paths.locate cwd (Fs.resolve p) = Paths.locate cwd p.
Proof.
  unfold Fs.resolve. unfold Paths.locate at 1. simpl.
  apply normalize_clean. intros x. apply normalize_no_dots.
Qed.

(** For a resolved path, [mkdir] goes through the places on the way down
    to it. *)
Lemma mkdir_places_resolve (p : Path) :
  Fs.mkdir_places (Fs.resolve p) = Fs.prefixes (Paths.locate cwd (Fs.resolve p)).
Proof.
  rewrite locate_resolve. unfold Fs.mkdir_places, Fs.resolve, Paths.components.
  simpl. set (k := Paths.locate cwd p).
  assert (Hk : forall a, In a (Fs.prefixes k) -> Paths.normalize a = a).
  { intros a Ha. apply normalize_clean. intros x Hx.
    apply (normalize_no_dots (if Text.truthy (anchor p) then segs p
                              else (cwd ++ segs p)%list)).
    now apply (prefixes_within k a). }
  rewrite (map_ext_in _ (fun a => a) _ Hk), map_id.
  apply filter_keep. intros a Ha. apply prefixes_nonempty in Ha.
  now destruct a.
Qed.

(** One directory on the way that is neither there nor can be made:
    [mkdir] raises. *)
Lemma make_dirs_refused (ks : list (list string)) : forall w,
  (exists a, In a ks /\ ~ creatable (fs w) a) ->
  exists exc w', Fs.make_dirs ks w = (Raise (OSError exc), w').
Proof.
  induction ks as [|a ks IH]; intros w (b & Hb & Hn); [destruct Hb|]. simpl.
  unfold Fs.os_error, raise.
  destruct (Fs.lookup (fs w) a) as [[c|]|] eqn:Ea.
  - eauto.
  - apply IH. exists b. split; [|exact Hn].
    destruct Hb as [<-|Hb]; [|exact Hb]. exfalso. apply Hn. now left.
  - destruct (judge (OpMkdir a)) eqn:Ej; eauto.
    apply IH. exists b. simpl.
    destruct Hb as [<-|Hb]; [exfalso; apply Hn; right; now split|].
    split; [exact Hb|]. intros Hc. apply Hn.
    destruct (list_eq_dec string_dec a b) as [<-|Hne].
    + right. now split.
    + unfold creatable in *. now rewrite lookup_store_other in Hc.
Qed.
End RootFacts.

(** C10, as amended.  [ensure_dir] raises its own error, [directory
    required], exactly when its argument is blank once trimmed.  For an
    argument that is not blank and whose home directory expands:
    - when the directories, the root and those above it, are there or can
      be created, it returns the resolved directory after creating what
      was missing and leaves the rest of the tree alone, so that a root
      that does not exist is no error; a run of [main] on such a root
      with nothing below it ends with the status 1 on the error [no
      JavaScript strategies found];
    - when one of them is a regular file, or is missing and cannot be
      created, the [OSError] of [mkdir] leaves [ensure_dir], and [main]
      with it. *)
Theorem ensure_dir_creates_root {rt : Runtime}
        (path : string) (w : world) (expanded : Path) :
  Text.strip path <> "" ->
  Fs.expanduser (Paths.parse (Text.strip path)) w = (Ok expanded, w) ->
  ((forall a, In a (Fs.prefixes (Paths.locate cwd (Fs.resolve expanded))) ->
              creatable (fs w) a) ->
   exists t',
     ensure_dir path w = (Ok (Fs.resolve expanded), with_fs t' w)
     /\ (forall a, In a (Fs.prefixes (Paths.locate cwd (Fs.resolve expanded))) ->
                   Fs.lookup t' a = Some Dir)
     /\ (forall a, ~ In a (Fs.prefixes (Paths.locate cwd (Fs.resolve expanded))) ->
                   Fs.lookup t' a = Fs.lookup (fs w) a)
     /\ (forall argv write usage usage_output,
            parse_argv argv = inl (path, write, usage, usage_output) ->
            Fs.has_child (fs w) (Paths.locate cwd (Fs.resolve expanded)) = false ->
            main argv w
            = (Ok 1%Z,
               mkWorld t' (stdout w)
                 (stderr w
                  ++ [("bootstrap: no JavaScript strategies found under "
                       ++ Paths.to_string (Fs.resolve expanded))%string])
                 (trace w))))
  /\ ((exists a, In a (Fs.prefixes (Paths.locate cwd (Fs.resolve expanded)))
                 /\ ~ creatable (fs w) a) ->
      exists exc w',
        ensure_dir path w = (Raise (OSError exc), w')
        /\ (forall argv write usage usage_output,
               parse_argv argv = inl (path, write, usage, usage_output) ->
               main argv w = (Raise (OSError exc), w')))
  /\ (forall path0 w0,
         (Text.strip path0 = "" ->
          ensure_dir path0 w0 = (Raise (BootstrapError "directory required"), w0))
         /\ (forall msg w', ensure_dir path0 w0 = (Raise (BootstrapError msg), w') ->
                            Text.strip path0 = "")).
Proof.
  intros Hblank Hexp.
  assert (Hstep : forall r w1,
             Fs.make_dirs (Fs.prefixes (Paths.locate cwd (Fs.resolve expanded))) w
             = (r, w1) ->
             ensure_dir path w
             = match r with
               | Ok _ => (Ok (Fs.resolve expanded), w1)
               | Raise e => (Raise e, w1)
               end).
  { intros r w1 Hm. unfold ensure_dir.
    destruct (Text.strip path) as [|c s] eqn:Es; [congruence|].
    change (negb (Text.truthy (String c s))) with false. unfold bind.
    cbv beta iota. rewrite Hexp. unfold Fs.mkdir.
    rewrite mkdir_places_resolve, Hm. now destruct r. }
  split; [|split].
  - intros Hcre.
    destruct (make_dirs_ok (Paths.locate cwd (Fs.resolve expanded)) _ w Hcre)
      as (t' & Hm & Hdirs & Hframe & Hch).
    pose proof (Hstep _ _ Hm) as Hens. cbv iota in Hens.
    exists t'. split; [exact Hens|]. split; [exact Hdirs|]. split; [exact Hframe|].
    intros argv write usage usage_output Hparse Hempty.
    rewrite (main_nothing_found argv _ _ _ _ w _ _ Hparse Hens); [reflexivity|].
    apply rglob_js_empty. simpl.
    destruct (Fs.has_child t' _) eqn:E; [|reflexivity].
    destruct (Hch eq_refl) as [H|(a & Ha & H)]; [congruence|].
    pose proof (prefix_not_below _ _ Ha) as Hn.
    destruct (Paths.strip_prefix _ a) as [[|x r]|]; contradiction.
  - intros Hbad. destruct (make_dirs_refused _ w Hbad) as (exc & w' & Hm).
    pose proof (Hstep _ _ Hm) as Hens. cbv iota in Hens.
    exists exc, w'. split; [exact Hens|].
    intros argv write usage usage_output Hparse.
    unfold main, try_except. rewrite Hparse. unfold bind at 1.
    now rewrite Hens.
  - intros path0 w0. split.
    + intros Hb. unfold ensure_dir. now rewrite Hb.
    + intros msg w' H. unfold ensure_dir in H.
      destruct (Text.strip path0) as [|c s]; [reflexivity|]. exfalso.
      change (negb (Text.truthy (String c s))) with false in H.
      unfold bind in H. cbv beta iota in H.
      destruct (Fs.expanduser _ w0) as [[p|e] w1] eqn:Ee.
      * unfold Fs.mkdir in H.
        destruct (Fs.make_dirs _ w1) as [[[]|e] w2] eqn:Em; [discriminate H|].
        apply make_dirs_fails in Em. destruct Em as [exc ->]. discriminate H.
      * apply expanduser_fails in Ee. subst e. discriminate H.
Qed.

(** The theorem on a machine where nothing has been created: [/srv] and
    [/srv/strategies] are made, and the run ends on the empty root. *)
Lemma ensure_dir_creates_root_witness :
  @parse_argv Sample.runtime [] = inl ("/srv/strategies", false, None, "usage.json")
  /\ Text.strip "/srv/strategies" <> ""
  /\ Fs.lookup (fs Sample.world_bare) ["srv"; "strategies"] = None
  /\ @ensure_dir Sample.runtime "/srv/strategies" Sample.world_bare
     = (Ok Sample.root,
        mkWorld [(["srv"], Dir); (["srv"; "strategies"], Dir)] [] [] [])
  /\ @main Sample.runtime [] Sample.world_bare
     = (Ok 1%Z,
        mkWorld [(["srv"], Dir); (["srv"; "strategies"], Dir)] []
                ["bootstrap: no JavaScript strategies found under /srv/strategies"]
                []).
Proof.
  assert (H1 : @parse_argv Sample.runtime []
               = inl ("/srv/strategies", false, None, "usage.json"))
    by reflexivity.
  assert (H2 : Text.strip "/srv/strategies" <> "") by (vm_compute; discriminate).
  assert (H3 : @Fs.expanduser Sample.runtime
                 (Paths.parse (Text.strip "/srv/strategies")) Sample.world_bare
               = (Ok Sample.root, Sample.world_bare))
    by (vm_compute; reflexivity).
  assert (H4 : forall a,
             In a (Fs.prefixes (Paths.locate (@cwd Sample.runtime)
                                             (@Fs.resolve Sample.runtime Sample.root))) ->
             @creatable Sample.runtime (fs Sample.world_bare) a).
  { intros a _. right. split; reflexivity. }
  assert (H5 : Fs.has_child (fs Sample.world_bare)
                 (Paths.locate (@cwd Sample.runtime)
                               (@Fs.resolve Sample.runtime Sample.root)) = false)
    by reflexivity.
  destruct (@ensure_dir_creates_root Sample.runtime "/srv/strategies"
              Sample.world_bare Sample.root H2 H3) as [Hmade _].
  destruct (Hmade H4) as (t' & Hens & _ & _ & Hmain).
  specialize (Hmain [] false None "usage.json" H1 H5).
  assert (Et : t' = [(["srv"], Dir); (["srv"; "strategies"], Dir)]).
  { assert (E : @ensure_dir Sample.runtime "/srv/strategies" Sample.world_bare
                = (Ok Sample.root,
                   mkWorld [(["srv"], Dir); (["srv"; "strategies"], Dir)] [] [] []))
      by (vm_compute; reflexivity).
    rewrite E in Hens. now injection Hens as <-. }
  subst t'. split; [exact H1|]. split; [exact H2|]. split; [reflexivity|].
  split; [exact Hens|]. exact Hmain.
Defined.

(** [resolve] turns two leading slashes into one, and [mkdir] goes
    through the components of a path as they are written: on the way to
    [zed/..] it makes [zed], and it raises when a regular file is on the
    way to a double dot. *)
Example resolve_two_slashes :
  @Fs.resolve Sample.runtime (Paths.parse "//srv/strategies") = Sample.root.
Proof. vm_compute. reflexivity. Qed.

Example mkdir_double_dot :
  Fs.lookup (fs Sample.world0) ["srv"; "strategies"; "zed"] = None
  /\ (exists w',
        @Fs.mkdir Sample.runtime (Paths.parse "/srv/strategies/zed/..") Sample.world0
        = (Ok tt, w')
        /\ Fs.lookup (fs w') ["srv"; "strategies"; "zed"] = Some Dir)
  /\ @Fs.mkdir Sample.runtime (Paths.parse "/srv/strategies/foo.js/..") Sample.world0
     = (Raise (OSError "[Errno] operation failed"), Sample.world0).
Proof.
  split; [reflexivity|]. split; [|vm_compute; reflexivity].
  eexists. split; vm_compute; reflexivity.
Qed.

(** C10, as stated, fails: an argument that is not blank and names a
    regular file makes [ensure_dir] raise, on a machine that refuses
    nothing. *)
Lemma ensure_dir_creates_root_counterexample :
  Text.strip "/srv/strategies/foo.js" <> ""
  /\ Fs.lookup (fs Sample.world0) ["srv"; "strategies"; "foo.js"]
     = Some (File (Sample.bytes "exports.metadata = 1"))
  /\ @ensure_dir Sample.runtime "/srv/strategies/foo.js" Sample.world0
     = (Raise (OSError "[Errno] operation failed"), Sample.world0).
Proof.
  split; [vm_compute; discriminate|]. split; vm_compute; reflexivity.
Qed.

(* ------------------------------------------------------------------ *)
(** ** The usage report *)

Section UsageFacts.
Context {rt : Runtime}.

Lemma records_of_set (idx : sdict (sdict pyobj)) (k k' : string) (d : sdict pyobj) :
  records_of (sset idx k d) k' = if String.eqb k k' then d else records_of idx k'.
Proof.
  unfold records_of. destruct (String.eqb k k') eqn:E.
  - apply String.eqb_eq in E. subst. now rewrite sget_set_same.
  - apply String.eqb_neq in E. now rewrite sget_set_other.
Qed.

(** The index holds, under a name and a hash, the last usage record that
    is indexed there. *)
Lemma index_usage_spec (usage : list pyobj) : forall idx idx' k h,
  index_usage usage idx = Ok idx' ->
  sget (records_of idx' k) h
  = match last_with (indexed_at k h) usage with
    | Some u => Some u
    | None => sget (records_of idx k) h
    end.
Proof.
  induction usage as [|u usage IH]; intros idx idx' k h; simpl.
  - intros [= <-]. reflexivity.
  - rewrite last_with_cons. unfold indexed_at at 2, usage_key.
    destruct u as [| | | | |l|d]; simpl; try discriminate.
    set (name := Text.lower (Text.strip (py_str match sget d "strategy" with
                                                | Some v => v
                                                | None => PStr ""
                                                end))).
    set (hash_value := Text.strip (py_str match sget d "hash" with
                                          | Some v => v
                                          | None => PStr ""
                                          end)).
    destruct (negb (Text.truthy name) || negb (Text.truthy hash_value)).
    + intros H. rewrite (IH _ _ k h H).
      now destruct (last_with (indexed_at k h) usage).
    + intros H. rewrite (IH _ _ k h H).
      destruct (last_with (indexed_at k h) usage); [reflexivity|].
      rewrite records_of_set. fold (records_of idx name).
      destruct (String.eqb name k) eqn:Ek; simpl; [|reflexivity].
      apply String.eqb_eq in Ek. subst k.
      destruct (String.eqb hash_value h) eqn:Eh.
      * apply String.eqb_eq in Eh. subst h. apply sget_set_same.
      * apply String.eqb_neq in Eh. now apply sget_set_other.
Qed.

(** What the inner loop appends: the entries of the hashes whose record
    is missing or counts zero. *)
Lemma scan_hashes_spec (n : string) (records : sdict pyobj) :
  forall items unused unused',
    scan_hashes n records items unused = Ok unused' ->
    forall t, In t unused'
              <-> In t unused
                  \/ exists h loc,
                       In (h, loc) items /\ t = report_entry n h loc
                       /\ match sget records h with
                          | None => True
                          | Some u => usage_count (Some u) = Ok 0%Z
                          end.
Proof.
  induction items as [|[h loc] items IH]; intros unused unused'; simpl.
  - intros [= <-] t. split; [auto|]. intros [H|(h & loc & [] & _)]. exact H.
  - unfold and_then.
    destruct (usage_count (sget records h)) as [z|e] eqn:Ec; [|discriminate].
    intros H t.
    destruct (sget records h) as [u|] eqn:Eu; simpl in H.
    + destruct (z =? 0)%Z eqn:Ez.
      * apply Z.eqb_eq in Ez. subst z. rewrite (IH _ _ H t), in_app_iff.
        simpl. split.
        -- intros [[H1|[<-|[]]]|(h' & loc' & Hin & Ht & Hc)].
           ++ now left.
           ++ right. exists h, loc. rewrite Eu. auto.
           ++ right. exists h', loc'. auto.
        -- intros [H1|(h' & loc' & [[= <- <-]|Hin] & Ht & Hc)].
           ++ left. now left.
           ++ left. right. left. now symmetry.
           ++ right. exists h', loc'. auto.
      * apply Z.eqb_neq in Ez. rewrite (IH _ _ H t). split.
        -- intros [H1|(h' & loc' & Hin & Ht & Hc)]; [now left|].
           right. exists h', loc'. auto.
        -- intros [H1|(h' & loc' & [[= <- <-]|Hin] & Ht & Hc)].
           ++ now left.
           ++ rewrite Eu in Hc. change (usage_count (Some u) = Ok 0%Z) in Hc.
              congruence.
           ++ right. exists h', loc'. auto.
    + rewrite (IH _ _ H t), in_app_iff. simpl. split.
      * intros [[H1|[<-|[]]]|(h' & loc' & Hin & Ht & Hc)].
        -- now left.
        -- right. exists h, loc. rewrite Eu. auto.
        -- right. exists h', loc'. auto.
      * intros [H1|(h' & loc' & [[= <- <-]|Hin] & Ht & Hc)].
        -- left. now left.
        -- left. right. left. now symmetry.
        -- right. exists h', loc'. auto.
Qed.

(** What the outer loop appends. *)
Lemma scan_registry_spec (idx : sdict (sdict pyobj)) :
  forall reg unused unused',
    scan_registry idx reg unused = Ok unused' ->
    forall t, In t unused'
              <-> In t unused
                  \/ exists n e h loc,
                       In (n, e) reg /\ In (h, loc) (hashes e)
                       /\ t = report_entry n h loc
                       /\ match sget (records_of idx (Text.lower n)) h with
                          | None => True
                          | Some u => usage_count (Some u) = Ok 0%Z
                          end.
Proof.
  induction reg as [|[n e] reg IH]; intros unused unused'; simpl.
  - intros [= <-] t. split; [auto|]. intros [H|(n & e & h & loc & [] & _)]. exact H.
  - unfold and_then. fold (records_of idx (Text.lower n)).
    destruct (scan_hashes n _ (hashes e) unused) as [found|x] eqn:Es; [|discriminate].
    intros H t. rewrite (IH _ _ H t). rewrite (scan_hashes_spec _ _ _ _ _ Es t).
    split.
    + intros [[H1|(h & loc & Hin & Ht & Hc)]|(n' & e' & h & loc & Hin & Hr)].
      * now left.
      * right. exists n, e, h, loc. auto.
      * right. exists n', e', h, loc. auto.
    + intros [H1|(n' & e' & h & loc & [[= <- <-]|Hin] & Hh & Ht & Hc)].
      * left. now left.
      * left. right. exists h, loc. auto.
      * right. exists n', e', h, loc. auto.
Qed.

(** A count that is an integer is the count. *)
Lemma usage_count_int (d : list (string * pyobj)) (z : Z) :
  sget d "count" = Some (PInt z) -> usage_count (Some (PDict d)) = Ok z.
Proof. intros H. unfold usage_count, py_get, and_then. now rewrite H. Qed.

(** The count that [report_usage] computes for a record is 0 exactly when
    the count of the record stands for zero. *)
Lemma usage_count_zero (u : pyobj) :
  usage_count (Some u) = Ok 0%Z <-> counts_zero u.
Proof.
  unfold usage_count, counts_zero, count_field, py_get, and_then.
  destruct u as [| | | | |l|d]; cbv beta iota;
    try (split; [intros H; discriminate H|intros (g & Hg & _); discriminate Hg]).
  set (f := match sget d "count" with Some v => v | None => PInt 0 end).
  split.
  - intros H. exists f. split; [reflexivity|].
    destruct (py_int f) as [z|e]; [left; exact H|].
    destruct e; try discriminate H; auto.
  - intros (f' & [= <-] & [H|[H|H]]); now rewrite H.
Qed.

Lemma print_all_lines (lines : list string) : forall w,
  print_all lines w
  = (Ok tt, mkWorld (fs w) (stdout w ++ lines) (stderr w) (trace w)).
Proof.
  induction lines as [|l lines IH]; intros w; simpl.
  - unfold ret. rewrite app_nil_r. now destruct w.
  - unfold bind, print. rewrite IH. simpl. now rewrite <- app_assoc.
Qed.

(** A [report_usage] that returns has printed the lines of the list of
    its two loops. *)
Lemma report_usage_returns (usage : list pyobj) (reg : registry) (w w' : world) :
  report_usage usage reg w = (Ok tt, w') ->
  exists unused,
    unused_revisions usage reg = Ok unused
    /\ stdout w' = stdout w ++ report_lines unused.
Proof.
  unfold report_usage, bind, lift, report_lines.
  destruct (unused_revisions usage reg) as [unused|e]; [|discriminate].
  intros H. exists unused. split; [reflexivity|].
  destruct unused as [|t unused]; unfold print in H; cbn [fs stdout stderr trace] in H.
  - injection H as <-. simpl. now rewrite <- app_assoc.
  - rewrite print_all_lines in H. injection H as <-. simpl.
    now rewrite <- !app_assoc.
Qed.
End UsageFacts.

(** C3, as amended.  A [report_usage] that returns prints the report of a
    list of revisions, each of them a hash of the [hashes] table of a name
    of the registry.  Such a hash is in the list exactly when no usage
    record matches it by name in lower case and by hash, or when the
    count of the matching record is zero once converted, a count that
    does not convert ([TypeError], [ValueError]) being taken for zero.
    So a hash without a matching record is listed, a hash whose matching
    record has a count that does not convert is listed, and a hash whose
    matching record has an integer count is listed exactly when that
    count is 0: with a count above zero it never appears, and with a
    count below zero it does not appear either. *)
Theorem report_usage_unused {rt : Runtime}
        (usage : list pyobj) (reg : registry) (w w' : world) :
  report_usage usage reg w = (Ok tt, w') ->
  exists unused,
    stdout w' = stdout w ++ report_lines unused
    /\ (forall t, In t unused ->
          exists n e h loc,
            In (n, e) reg /\ In (h, loc) (hashes e) /\ t = report_entry n h loc)
    /\ forall n e h loc,
         In (n, e) reg -> In (h, loc) (hashes e) ->
         (In (report_entry n h loc) unused <-> counted_unused usage n h)
         /\ (matching_record usage n h = None -> In (report_entry n h loc) unused)
         /\ (forall u f,
                matching_record usage n h = Some u ->
                count_field u = Some f ->
                py_int f = Raise TypeError \/ py_int f = Raise ValueError ->
                In (report_entry n h loc) unused)
         /\ (forall d z,
                matching_record usage n h = Some (PDict d) ->
                sget d "count" = Some (PInt z) ->
                (In (report_entry n h loc) unused <-> z = 0%Z)).
Proof.
  intros Hr. apply report_usage_returns in Hr as (unused & Hu & Hout).
  exists unused. split; [exact Hout|].
  unfold unused_revisions, and_then in Hu.
  destruct (index_usage usage []) as [idx|x] eqn:Ei; [|discriminate].
  assert (Hidx : forall n' h',
             sget (records_of idx (Text.lower n')) h' = matching_record usage n' h').
  { intros n' h'. rewrite (index_usage_spec _ _ _ (Text.lower n') h' Ei).
    unfold matching_record. now destruct (last_with _ usage). }
  split.
  - intros t Ht. apply (scan_registry_spec _ _ _ _ Hu) in Ht.
    destruct Ht as [[]|(n & e & h & loc & Hn & Hh & Ht & _)].
    exists n, e, h, loc. auto.
  - intros n e h loc Hn Hh.
    assert (Hiff : In (report_entry n h loc) unused <-> counted_unused usage n h).
    { rewrite (scan_registry_spec _ _ _ _ Hu). unfold counted_unused. split.
      - intros [[]|(n' & e' & h' & loc' & _ & _ & Ht & Hc)].
        unfold report_entry in Ht. injection Ht as -> _ ->.
        rewrite Hidx in Hc. destruct (matching_record usage n' h'); [|exact I].
        now apply usage_count_zero.
      - intros Hc. right. exists n, e, h, loc. rewrite Hidx.
        split; [exact Hn|]. split; [exact Hh|]. split; [reflexivity|].
        destruct (matching_record usage n h); [|exact I].
        now apply usage_count_zero. }
    split; [exact Hiff|]. split; [|split].
    + intros Hnone. apply Hiff. unfold counted_unused. now rewrite Hnone.
    + intros u f Hm Hf Hc. apply Hiff. unfold counted_unused. rewrite Hm.
      exists f. split; [exact Hf|]. now right.
    + intros d z Hm Hz. rewrite Hiff. unfold counted_unused. rewrite Hm.
      unfold counts_zero, count_field. rewrite Hz. split.
      * intros (f & [= <-] & [H|[H|H]]); simpl in H; congruence.
      * intros ->. exists (PInt 0). auto.
Qed.

(** The theorem at a usage export where the first version of [bar] has
    no running instance: it is the one line of the report. *)
Lemma report_usage_unused_witness :
  exists w',
    @report_usage Sample.runtime Sample.usage_idle Sample.registry_bar Sample.world0
    = (Ok tt, w')
    /\ stdout w'
       = [ "";
           "usage report: revisions with zero running instances:";
           ("  - bar v1 [sha256:" ++ Sha256.hexdigest (Sample.bytes "one") ++ "]")%string ]
    /\ In ("bar", Sample.entry_bar) Sample.registry_bar
    /\ In (sha256 Sample.bar_v1, Sample.location_bar_v1) (hashes Sample.entry_bar)
    /\ exists unused,
         stdout w' = stdout Sample.world0 ++ report_lines unused
         /\ (In (report_entry "bar" (sha256 Sample.bar_v1) Sample.location_bar_v1)
                unused
             <-> @counted_unused Sample.runtime Sample.usage_idle "bar"
                   (sha256 Sample.bar_v1)).
Proof.
  destruct (@report_usage Sample.runtime Sample.usage_idle Sample.registry_bar
              Sample.world0) as [r w'] eqn:E.
  assert (Er : r = Ok tt).
  { apply (f_equal fst) in E. change (fst (r, w')) with r in E.
    rewrite <- E. vm_compute. reflexivity. }
  assert (Eo : stdout w'
               = [ "";
                   "usage report: revisions with zero running instances:";
                   ("  - bar v1 [sha256:" ++ Sha256.hexdigest (Sample.bytes "one")
                    ++ "]")%string ]).
  { apply (f_equal snd) in E. change (snd (r, w')) with w' in E.
    rewrite <- E. vm_compute. reflexivity. }
  subst r. exists w'. split; [reflexivity|]. split; [exact Eo|].
  assert (H2 : In ("bar", Sample.entry_bar) Sample.registry_bar)
    by (left; reflexivity).
  assert (H3 : In (sha256 Sample.bar_v1, Sample.location_bar_v1)
                  (hashes Sample.entry_bar))
    by (left; vm_compute; reflexivity).
  split; [exact H2|]. split; [exact H3|].
  destruct (@report_usage_unused Sample.runtime Sample.usage_idle
              Sample.registry_bar Sample.world0 w' E)
    as (unused & Hout & _ & Hall).
  exists unused. split; [exact Hout|].
  exact (proj1 (Hall "bar" Sample.entry_bar (sha256 Sample.bar_v1)
                  Sample.location_bar_v1 H2 H3)).
Defined.

(** A count that is a word does not convert: the revision is listed. *)
Example report_usage_count_in_words :
  @matching_record Sample.runtime Sample.usage_words "bar" (sha256 Sample.bar_v1)
  = Some (PDict [("strategy", PStr "bar"); ("hash", PStr (sha256 Sample.bar_v1));
                 ("count", PStr "many")])
  /\ @py_int Sample.runtime (PStr "many") = Raise ValueError
  /\ @counted_unused Sample.runtime Sample.usage_words "bar" (sha256 Sample.bar_v1)
  /\ stdout (snd (@report_usage Sample.runtime Sample.usage_words Sample.registry_bar
                                Sample.world0))
     = [ "";
         "usage report: revisions with zero running instances:";
         ("  - bar v1 [sha256:" ++ Sha256.hexdigest (Sample.bytes "one") ++ "]")%string ].
Proof.
  assert (Hm : @matching_record Sample.runtime Sample.usage_words "bar"
                 (sha256 Sample.bar_v1)
               = Some (PDict [("strategy", PStr "bar");
                              ("hash", PStr (sha256 Sample.bar_v1));
                              ("count", PStr "many")]))
    by (vm_compute; reflexivity).
  split; [exact Hm|]. split; [reflexivity|]. split.
  - unfold counted_unused. rewrite Hm. exists (PStr "many").
    split; [reflexivity|]. right. right. reflexivity.
  - vm_compute. reflexivity.
Qed.

(** C3, as stated, fails: a matching record with the count -1 has a count
    that is not positive, and its hash is not in the report, which says
    that nothing is unused. *)
Lemma report_usage_unused_counterexample :
  @unused_revisions Sample.runtime Sample.usage_negative Sample.registry_bar = Ok []
  /\ In ("bar", Sample.entry_bar) Sample.registry_bar
  /\ In (sha256 Sample.bar_v1, Sample.location_bar_v1) (hashes Sample.entry_bar)
  /\ @matching_record Sample.runtime Sample.usage_negative "bar" (sha256 Sample.bar_v1)
     = Some (Sample.usage_record "bar" (sha256 Sample.bar_v1) (-1))
  /\ @claimed_unused Sample.runtime Sample.usage_negative "bar" (sha256 Sample.bar_v1)
  /\ ~ In (report_entry "bar" (sha256 Sample.bar_v1) Sample.location_bar_v1) []
  /\ @report_usage Sample.runtime Sample.usage_negative Sample.registry_bar
                   Sample.world0
     = (Ok tt,
        mkWorld Sample.tree0
          [ "";
            "usage report: no unused revisions detected (all tracked hashes have usage)." ]
          [] []).
Proof.
  split; [vm_compute; reflexivity|].
  split; [left; reflexivity|].
  split; [left; vm_compute; reflexivity|].
  assert (Hm : @matching_record Sample.runtime Sample.usage_negative "bar"
                 (sha256 Sample.bar_v1)
               = Some (Sample.usage_record "bar" (sha256 Sample.bar_v1) (-1)))
    by (vm_compute; reflexivity).
  split; [exact Hm|]. split; [|split; [intros []|vm_compute; reflexivity]].
  unfold claimed_unused. rewrite Hm. exists (PInt (-1)).
  split; [reflexivity|]. left. exists (-1)%Z.
  split; [reflexivity|discriminate].
Qed.

(** What [report_usage] prints for the first of these exports. *)
Example report_usage_sample :
  stdout (snd (@report_usage Sample.runtime Sample.usage_idle Sample.registry_bar
                             Sample.world0))
  = [ "";
      "usage report: revisions with zero running instances:";
      ("  - bar v1 [" ++ sha256 Sample.bar_v1 ++ "]")%string ].
Proof. vm_compute. reflexivity. Qed.

(* ================================================================== *)
(** * Further properties *)

(* ------------------------------------------------------------------ *)
(** ** More on the registry *)

(** X1.  [pick_latest_tag] never raises: on an empty mapping it returns
    the empty string, on any other a hash that is a value of the
    mapping. *)
Theorem pick_latest_tag_returns_value (tags : sdict string) :
  exists h,
    pick_latest_tag tags = Ok h
    /\ match tags with
       | [] => h = ""
       | _ :: _ => In h (Dict.values tags)
       end.
Proof.
  destruct (pick_latest_tag_total tags) as [h Hh]. exists h. split; [exact Hh|].
  destruct (pick_latest_tag_spec _ _ Hh) as [(t & _ & _ & _ & Ht)|(_ & Hv)].
  - destruct tags as [|kv d]; [discriminate Ht|].
    now apply sget_in_values in Ht.
  - destruct tags as [|[k v] d]; [exact Hv|]. subst h. now left.
Qed.

Lemma keys_sset {V} (d : sdict V) (k : string) (v : V) :
  Dict.keys (sset d k v) = seen_step (Dict.keys d) k.
Proof.
  unfold seen_step. induction d as [|[k' v'] d IH]; simpl; [reflexivity|].
  unfold sset in *. simpl. rewrite (String.eqb_sym k k').
  destruct (String.eqb k' k); simpl; [reflexivity|].
  rewrite IH. now destruct (existsb (String.eqb k) (Dict.keys d)).
Qed.

Lemma record_all_keys (ms : list ModuleInfo) root write : forall reg reg',
  record_all ms root write reg = Some reg' ->
  Dict.keys reg' = fold_left seen_step (map name ms) (Dict.keys reg).
Proof.
  induction ms as [|m ms IH]; intros reg reg'; simpl.
  - now intros [= <-].
  - destruct (Paths.relative_to _ root) as [rel|]; [|discriminate].
    intros H. rewrite (IH _ _ H). unfold record_module. now rewrite keys_sset.
Qed.

Lemma set_latest_keys (reg : registry) : forall reg',
  set_latest reg = Ok reg' -> Dict.keys reg' = Dict.keys reg.
Proof.
  induction reg as [|[n e] reg IH]; intros reg'; simpl.
  - now intros [= <-].
  - destruct (Dict.truthy (tags e)).
    + destruct (pick_latest_tag (tags e)); [|discriminate].
      destruct (set_latest reg) as [r|]; [|discriminate].
      intros [= <-]. simpl. now rewrite (IH r).
    + destruct (set_latest reg) as [r|]; [|discriminate].
      intros [= <-]. simpl. now rewrite (IH r).
Qed.

(** X2.  The names of the registry that [build_registry] returns are the
    names of the modules, each once, in the order in which the list
    first shows them: that is the order of the manifest. *)
Theorem build_registry_names_in_order {rt : Runtime}
        (ms : list ModuleInfo) (root : Path) (write : bool) (w w' : world)
        (reg : registry) :
  build_registry ms root write w = (Ok reg, w') ->
  Dict.keys reg = first_seen (map name ms).
Proof.
  intros Hb. apply build_registry_ok in Hb as (reg0 & _ & Hrec & Hl).
  rewrite (set_latest_keys _ _ Hl). now rewrite (record_all_keys _ _ _ _ _ Hrec).
Qed.

(** X3.  Last write wins on tags: in the registry that [build_registry]
    returns, a tag other than [latest] is bound under a name to the hash
    of the last module of the list with that name and that version, and
    is absent when there is no such module. *)
Theorem build_registry_tag_binding {rt : Runtime}
        (ms : list ModuleInfo) (root : Path) (write : bool) (w w' : world)
        (reg : registry) (n v : string) :
  build_registry ms root write w = (Ok reg, w') ->
  v <> "latest" ->
  sget (tags_of reg n) v = option_map sha256 (last_with (declares n v) ms).
Proof.
  intros Hb Hv. apply build_registry_ok in Hb as (reg0 & _ & Hrec & Hl).
  pose proof (record_all_tags _ _ _ _ _ n v Hrec) as Ht. simpl in Ht.
  assert (E : sget (tags_of reg n) v = sget (tags_of reg0 n) v).
  { unfold tags_of at 1. destruct (sget reg n) as [e|] eqn:He.
    - destruct (set_latest_get _ _ n _ Hl He) as (e0 & He0 & _).
      rewrite (tags_of_entry _ _ _ He0).
      now apply (set_latest_tag _ _ _ _ _ _ Hl He0 He).
    - unfold tags_of. destruct (sget reg0 n) as [e0|] eqn:He0; [|reflexivity].
      destruct (set_latest_entry _ _ _ _ Hl He0) as (e & He' & _). congruence. }
  rewrite E, Ht. unfold tags_of. simpl.
  now destruct (last_with (declares n v) ms).
Qed.

(** X4.  One record for each hash of a name: in the registry that
    [build_registry] returns, a hash has under a name the record of the
    last module of the list with that name and that hash (its version,
    and the path recorded for it), and no record when there is no such
    module. *)
Theorem build_registry_hash_record {rt : Runtime}
        (ms : list ModuleInfo) (root : Path) (write : bool) (w w' : world)
        (reg : registry) (n h : string) :
  build_registry ms root write w = (Ok reg, w') ->
  sget (hashes_of reg n) h
  = option_map (recorded_location root write) (last_with (carries n h) ms).
Proof.
  intros Hb. apply build_registry_ok in Hb as (reg0 & _ & Hrec & Hl).
  pose proof (record_all_hashes _ _ _ _ _ n h Hrec) as Hh. simpl in Hh.
  assert (E : hashes_of reg n = hashes_of reg0 n).
  { unfold hashes_of at 1. destruct (sget reg n) as [e|] eqn:He.
    - destruct (set_latest_get _ _ n _ Hl He) as (e0 & He0 & Hhe & _).
      now rewrite (hashes_of_entry _ _ _ He0).
    - unfold hashes_of. destruct (sget reg0 n) as [e0|] eqn:He0; [|reflexivity].
      destruct (set_latest_entry _ _ _ _ Hl He0) as (e & He' & _). congruence. }
  rewrite E, Hh. unfold hashes_of. simpl.
  now destruct (last_with (carries n h) ms).
Qed.

Lemma build_registry_names_in_order_witness :
  @build_registry Sample.runtime Sample.mixed Sample.root false Sample.world0
  = (Ok Sample.registry_mixed, Sample.world0)
  /\ Dict.keys Sample.registry_mixed = ["bar"; "foo"].
Proof.
  assert (H : @build_registry Sample.runtime Sample.mixed Sample.root false
                Sample.world0 = (Ok Sample.registry_mixed, Sample.world0))
    by (vm_compute; reflexivity).
  split; [exact H|].
  exact (@build_registry_names_in_order Sample.runtime Sample.mixed Sample.root
           false Sample.world0 Sample.world0 Sample.registry_mixed H).
Defined.

Lemma build_registry_tag_binding_witness :
  @build_registry Sample.runtime Sample.mixed Sample.root false Sample.world0
  = (Ok Sample.registry_mixed, Sample.world0)
  /\ "v1" <> "latest"
  /\ sget (tags_of Sample.registry_mixed "foo") "v1" = Some (sha256 Sample.foo_v1_b).
Proof.
  assert (H : @build_registry Sample.runtime Sample.mixed Sample.root false
                Sample.world0 = (Ok Sample.registry_mixed, Sample.world0))
    by (vm_compute; reflexivity).
  assert (Hv : "v1" <> "latest") by discriminate.
  split; [exact H|]. split; [exact Hv|].
  exact (@build_registry_tag_binding Sample.runtime Sample.mixed Sample.root
           false Sample.world0 Sample.world0 Sample.registry_mixed "foo" "v1" H Hv).
Defined.

Lemma build_registry_hash_record_witness :
  @build_registry Sample.runtime Sample.mixed Sample.root false Sample.world0
  = (Ok Sample.registry_mixed, Sample.world0)
  /\ sget (hashes_of Sample.registry_mixed "bar") (sha256 Sample.bar_v10)
     = Some (mkLocation "v10" "x/bar.js").
Proof.
  assert (H : @build_registry Sample.runtime Sample.mixed Sample.root false
                Sample.world0 = (Ok Sample.registry_mixed, Sample.world0))
    by (vm_compute; reflexivity).
  split; [exact H|].
  exact (@build_registry_hash_record Sample.runtime Sample.mixed Sample.root
           false Sample.world0 Sample.world0 Sample.registry_mixed "bar"
           (sha256 Sample.bar_v10) H).
Defined.

Section DryFacts.
Context {rt : Runtime}.

Lemma fold_modules_dry_eq ms root : forall reg w,
  fold_modules ms root false reg w
  = match record_all ms root false reg with
    | Some r => (Ok r, w)
    | None => (Raise ValueError, w)
    end.
Proof.
  induction ms as [|m ms IH]; intros reg w; simpl; [reflexivity|].
  unfold bind, ret, final_path. simpl.
  destruct (Paths.relative_to (path m) root); [apply IH|reflexivity].
Qed.

Lemma record_all_dry_some ms root : forall reg,
  (forall m, In m ms -> Paths.relative_to (path m) root <> None) ->
  exists r, record_all ms root false reg = Some r.
Proof.
  induction ms as [|m ms IH]; intros reg H; simpl; [eauto|].
  unfold final_path. simpl.
  destruct (Paths.relative_to (path m) root) as [rel|] eqn:E.
  - apply IH. intros m' Hm'. apply H. now right.
  - exfalso. apply (H m); [now left|exact E].
Qed.

Lemma record_all_dry_none ms root : forall reg,
  record_all ms root false reg = None ->
  exists m, In m ms /\ Paths.relative_to (path m) root = None.
Proof.
  induction ms as [|m ms IH]; intros reg; simpl; [discriminate|].
  unfold final_path. simpl.
  destruct (Paths.relative_to (path m) root) as [rel|] eqn:E.
  - intros H. destruct (IH _ H) as (m' & Hm' & Hn). exists m'. auto.
  - intros _. exists m. auto.
Qed.
End DryFacts.

(** X5.  Without the write flag [build_registry] returns a registry
    exactly when every module lies below the root, and raises
    [ValueError] exactly when one does not; either way it leaves the
    world as it found it. *)
Theorem build_registry_dry_outcome {rt : Runtime}
        (ms : list ModuleInfo) (root : Path) (w : world) :
  ((exists reg, build_registry ms root false w = (Ok reg, w))
   <-> (forall m, In m ms -> Paths.relative_to (path m) root <> None))
  /\ (build_registry ms root false w = (Raise ValueError, w)
      <-> (exists m, In m ms /\ Paths.relative_to (path m) root = None)).
Proof.
  unfold build_registry, bind, lift. rewrite fold_modules_dry_eq.
  destruct (record_all ms root false []) as [r|] eqn:Er.
  - destruct (set_latest_total r) as [reg Hreg]. rewrite Hreg. split; split.
    + intros _ m Hm Hn.
      destruct (record_all_below _ _ _ _ _ m Er Hm) as [rel Hrel].
      unfold final_path in Hrel. simpl in Hrel. congruence.
    + eauto.
    + discriminate.
    + intros (m & Hm & Hn).
      destruct (record_all_below _ _ _ _ _ m Er Hm) as [rel Hrel].
      unfold final_path in Hrel. simpl in Hrel. congruence.
  - destruct (record_all_dry_none _ _ _ Er) as (m & Hm & Hn). split; split.
    + intros [reg H]. discriminate H.
    + intros H. exfalso. now apply (H m Hm).
    + eauto.
    + reflexivity.
Qed.

(** A module outside the root makes the dry run raise. *)
Example build_registry_stray :
  @build_registry Sample.runtime [Sample.bar_v1; Sample.stray] Sample.root false
                  Sample.world0 = (Raise ValueError, Sample.world0).
Proof. vm_compute. reflexivity. Qed.

(* ------------------------------------------------------------------ *)
(** ** Moving a module to its canonical place *)

Lemma bind_raise {A B} (m : M A) (k : A -> M B) w e w' :
  bind m k w = (Raise e, w') ->
  m w = (Raise e, w') \/ exists a w1, m w = (Ok a, w1) /\ k a w1 = (Raise e, w').
Proof.
  unfold bind. destruct (m w) as [[a|e0] w1]; [eauto|]. intros [= <- <-]. now left.
Qed.

Lemma wrap_oserror_raise {A} (m : M A) msg w e w' :
  wrap_oserror m msg w = (Raise e, w') ->
  exists e0, m w = (Raise e0, w')
             /\ e = match e0 with
                    | OSError text => BootstrapError (msg text)
                    | _ => e0
                    end.
Proof.
  unfold wrap_oserror, try_except, raise.
  destruct (m w) as [[a|e0] w1]; [discriminate|].
  destruct e0; intros [= <- <-]; eexists; split; reflexivity.
Qed.

Section MoveFacts.
Context {rt : Runtime}.

Lemma unlink_ok p w w1 :
  Fs.unlink p w = (Ok tt, w1) -> fs w1 = Fs.erase (fs w) (Paths.locate cwd p).
Proof.
  unfold Fs.unlink, Fs.os_error, raise.
  destruct (_ && _); [|discriminate].
  destruct (judge _); try discriminate. now intros [= <-].
Qed.

Lemma unlink_fails p w e w1 :
  Fs.unlink p w = (Raise e, w1) -> w1 = w /\ exists exc, e = OSError exc.
Proof.
  unfold Fs.unlink, Fs.os_error, raise.
  destruct (_ && _); [|intros [= <- <-]; eauto].
  destruct (judge _); try discriminate; intros [= <- <-]; eauto.
Qed.

(** [mkdir] leaves what is there where it is, whatever its outcome. *)
Lemma make_dirs_present (ks : list (list string)) : forall w r w',
  Fs.make_dirs ks w = (r, w') ->
  forall k, Fs.lookup (fs w) k <> None -> Fs.lookup (fs w') k = Fs.lookup (fs w) k.
Proof.
  induction ks as [|a ks IH]; intros w r w'; simpl.
  - unfold ret. now intros [= _ <-].
  - unfold Fs.os_error, raise.
    destruct (Fs.lookup (fs w) a) as [[c|]|] eqn:Ea.
    + now intros [= _ <-].
    + apply IH.
    + destruct (judge _); try (now intros [= _ <-]).
      intros H k Hk. rewrite (IH _ _ _ H k); simpl.
      * apply lookup_store_other. congruence.
      * rewrite lookup_store_other by congruence. exact Hk.
Qed.
End MoveFacts.

(** X6.  A module that is not in its canonical place and that
    [materialize_module] moves without error: the path returned is
    [root/name/version/name.js], the file there holds the bytes of the
    module, and nothing is left at the place where the module was found
    (the two places being different). *)
Theorem materialize_module_moves {rt : Runtime}
        (root : Path) (m : ModuleInfo) (w w' : world) (p : Path) :
  materialize_module root m w = (Ok p, w') ->
  versioned m = false ->
  Paths.locate cwd (path m) <> Paths.locate cwd p ->
  p = Paths.join (Paths.join (Paths.join root (name m)) (version m))
                 (name m ++ ".js")
  /\ Fs.lookup (fs w') (Paths.locate cwd p) = Some (File (source m))
  /\ Fs.lookup (fs w') (Paths.locate cwd (path m)) = None.
Proof.
  unfold materialize_module. intros H Hv Hne. rewrite Hv in H.
  apply bind_ok in H as (_ & w0 & _ & H).
  apply bind_ok in H as (_ & w1 & _ & H).
  apply bind_ok in H as ([] & w2 & Hmove & H).
  unfold ret in H. injection H as <- <-.
  apply wrap_oserror_ok in Hmove.
  apply bind_ok in Hmove as ([] & w3 & Hwrite & Hunlink).
  apply write_bytes_ok in Hwrite. apply unlink_ok in Hunlink.
  split; [reflexivity|]. rewrite Hunlink, Hwrite. split.
  - rewrite lookup_erase_other by exact Hne. apply lookup_store_same.
  - apply lookup_erase_same.
Qed.

(** The theorem at the sample module [foo.js], which goes to
    [foo/v2/foo.js]. *)
Lemma materialize_module_moves_witness :
  versioned Sample.loaded_foo = false
  /\ exists w',
       @materialize_module Sample.runtime Sample.root Sample.loaded_foo Sample.world0
       = (Ok (mkPath "/" ["srv"; "strategies"; "foo"; "v2"; "foo.js"]), w')
       /\ Fs.lookup (fs w') ["srv"; "strategies"; "foo"; "v2"; "foo.js"]
          = Some (File (source Sample.loaded_foo))
       /\ Fs.lookup (fs w') ["srv"; "strategies"; "foo.js"] = None.
Proof.
  split; [reflexivity|].
  destruct (@materialize_module Sample.runtime Sample.root Sample.loaded_foo
              Sample.world0) as [r w'] eqn:E.
  assert (Er : r = Ok (mkPath "/" ["srv"; "strategies"; "foo"; "v2"; "foo.js"])).
  { apply (f_equal fst) in E. simpl in E. rewrite <- E. vm_compute. reflexivity. }
  subst r. exists w'. split; [reflexivity|].
  destruct (@materialize_module_moves Sample.runtime Sample.root Sample.loaded_foo
              Sample.world0 w' _ E eq_refl) as (_ & Ht & Hp).
  - vm_compute. discriminate.
  - split; [exact Ht|exact Hp].
Defined.

(** X7.  A move that fails loses nothing: when [materialize_module]
    raises, the file where the module was found is as it was (the
    canonical place being another one).  What it raises is the [OSError]
    of [mkdir], unwrapped, or the [BootstrapError] that wraps the one of
    the write or of the removal. *)
Theorem materialize_module_keeps_original {rt : Runtime}
        (root : Path) (m : ModuleInfo) (w w' : world) (e : exn) (c : list byte) :
  materialize_module root m w = (Raise e, w') ->
  Fs.lookup (fs w) (Paths.locate cwd (path m)) = Some (File c) ->
  Paths.locate cwd (path m)
  <> Paths.locate cwd (Paths.join (Paths.join (Paths.join root (name m)) (version m))
                                  (name m ++ ".js")) ->
  Fs.lookup (fs w') (Paths.locate cwd (path m)) = Some (File c)
  /\ exists exc,
       e = OSError exc
       \/ e = BootstrapError
                ("move module " ++ Paths.to_string (path m) ++ " -> "
                 ++ Paths.to_string
                      (Paths.join (Paths.join (Paths.join root (name m)) (version m))
                                  (name m ++ ".js"))
                 ++ ": " ++ exc)%string.
Proof.
  unfold materialize_module. intros H Hc Hne.
  apply bind_raise in H as [H|(u0 & w0 & Hlog & H)]; [discriminate H|].
  unfold log in Hlog. injection Hlog as _ <-.
  destruct (versioned m); [discriminate H|].
  apply bind_raise in H as [H|([] & w1 & Hmk & H)].
  - unfold Fs.mkdir in H. split.
    + rewrite (make_dirs_present _ _ _ _ H); simpl; [exact Hc|congruence].
    + apply make_dirs_fails in H. destruct H as [exc ->]. eauto.
  - assert (Hc1 : Fs.lookup (fs w1) (Paths.locate cwd (path m)) = Some (File c)).
    { unfold Fs.mkdir in Hmk.
      rewrite (make_dirs_present _ _ _ _ Hmk); simpl; [exact Hc|congruence]. }
    apply bind_raise in H as [H|([] & w2 & _ & H)]; [|discriminate H].
    apply wrap_oserror_raise in H as (e0 & H & ->).
    apply bind_raise in H as [H|([] & w2 & Hwrite & H)].
    + destruct (write_bytes_fails _ _ _ _ _ H) as [[exc ->] Hother].
      split; [|eauto]. rewrite Hother by exact Hne. exact Hc1.
    + apply unlink_fails in H as [-> [exc ->]]. split; [|eauto].
      rewrite (write_bytes_ok _ _ _ _ Hwrite).
      rewrite lookup_store_other by (intros E; now apply Hne). exact Hc1.
Qed.

(** The theorem on a full disk: the directories are made, the write is
    refused, and [foo.js] is still there. *)
Lemma materialize_module_keeps_original_witness :
  exists w',
    @materialize_module Sample.full_disk Sample.root Sample.loaded_foo Sample.world0
    = (Raise (BootstrapError
                "move module /srv/strategies/foo.js -> /srv/strategies/foo/v2/foo.js: [Errno 28] No space left on device"),
       w')
    /\ Fs.lookup (fs w') ["srv"; "strategies"; "foo.js"]
       = Some (File (Sample.bytes "exports.metadata = 1"))
    /\ Fs.lookup (fs w') ["srv"; "strategies"; "foo"; "v2"] = Some Dir.
Proof.
  destruct (@materialize_module Sample.full_disk Sample.root Sample.loaded_foo
              Sample.world0) as [r w'] eqn:E.
  assert (Er : r = Raise (BootstrapError
                "move module /srv/strategies/foo.js -> /srv/strategies/foo/v2/foo.js: [Errno 28] No space left on device")).
  { apply (f_equal fst) in E. simpl in E. rewrite <- E. vm_compute. reflexivity. }
  assert (Ed : Fs.lookup (fs w') ["srv"; "strategies"; "foo"; "v2"] = Some Dir).
  { apply (f_equal snd) in E. simpl in E. rewrite <- E. vm_compute. reflexivity. }
  subst r. exists w'. split; [reflexivity|].
  destruct (@materialize_module_keeps_original Sample.full_disk Sample.root
              Sample.loaded_foo Sample.world0 w' _
              (Sample.bytes "exports.metadata = 1") E) as [Hkeep _].
  - vm_compute. reflexivity.
  - vm_compute. discriminate.
  - split; [exact Hkeep|exact Ed].
Defined.

(* ------------------------------------------------------------------ *)
(** ** Reading the usage export *)


Section ReadUsageFacts.
Context {rt : Runtime}.

Lemma extract_usage_world (payload source : string) (w : world) :
  snd (extract_usage_from_payload payload source w) = w.
Proof.
  unfold extract_usage_from_payload, raise, ret.
  destruct (json_loads payload) as [data|exc]; [|reflexivity].
  destruct data as [| | | | |l0|d]; try reflexivity.
  now destruct (sget d "usage") as [[| | | | |l0|d0]|].
Qed.

Lemma startswith_nonempty (s : string) :
  Text.startswith s "http://" || Text.startswith s "https://" = true -> s <> "".
Proof. now intros H ->. Qed.
End ReadUsageFacts.

(** X9.  With a URL as usage source and an output path, the downloaded
    payload is saved before it is looked at: once the download, its
    decoding and the write have succeeded, the file at the output path
    holds the payload, and [read_usage] goes on as
    [extract_usage_from_payload] in that world, so a payload that is
    then refused has been written all the same. *)
Theorem read_usage_saves_payload {rt : Runtime}
        (src out payload : string) (body : list byte) (w w1 : world) :
  Text.startswith src "http://" || Text.startswith src "https://" = true ->
  urlopen src = inl body ->
  decode_utf8 body = Some payload ->
  out <> "" ->
  Fs.write_text (Paths.parse out) payload w = (Ok tt, w1) ->
  read_usage (Some src) (Some out) w = extract_usage_from_payload payload src w1
  /\ Fs.lookup (fs w1) (Paths.locate cwd (Paths.parse out))
     = Some (File (Text.encode_utf8 payload))
  /\ snd (read_usage (Some src) (Some out) w) = w1.
Proof.
  intros Hurl Hopen Hdec Hout Hwrite.
  assert (Hsrc := startswith_nonempty src Hurl).
  assert (E : read_usage (Some src) (Some out) w
              = extract_usage_from_payload payload src w1).
  { unfold read_usage. destruct src as [|c s]; [congruence|].
    rewrite Hurl, Hopen. unfold bind at 1. unfold decode. rewrite Hdec.
    unfold ret at 1. destruct out as [|c' o]; [congruence|].
    unfold bind. now rewrite Hwrite. }
  split; [exact E|]. split.
  - unfold Fs.write_text in Hwrite. rewrite (write_bytes_ok _ _ _ _ Hwrite).
    apply lookup_store_same.
  - rewrite E. apply extract_usage_world.
Qed.

(** The theorem at a page that is no JSON: [read_usage] raises, and the
    page is in [usage.json] in the working directory. *)
Lemma read_usage_saves_payload_witness :
  exists w1,
    @Fs.write_text Sample.online (Paths.parse "usage.json") "<html>busy</html>"
                   Sample.world_home = (Ok tt, w1)
    /\ @read_usage Sample.online (Some "http://localhost:8880/strategies/registry")
                   (Some "usage.json") Sample.world_home
       = (Raise (BootstrapError
                   "usage export http://localhost:8880/strategies/registry invalid JSON: Expecting value: line 1 column 1 (char 0)"),
          w1)
    /\ Fs.lookup (fs w1) ["home"; "operator"; "usage.json"]
       = Some (File (Sample.bytes "<html>busy</html>")).
Proof.
  destruct (@Fs.write_text Sample.online (Paths.parse "usage.json")
              "<html>busy</html>" Sample.world_home) as [r w1] eqn:E.
  assert (Er : r = Ok tt).
  { apply (f_equal fst) in E. simpl in E. rewrite <- E. vm_compute. reflexivity. }
  subst r. exists w1. split; [reflexivity|].
  destruct (@read_usage_saves_payload Sample.online
              "http://localhost:8880/strategies/registry" "usage.json"
              "<html>busy</html>" (Sample.bytes "<html>busy</html>")
              Sample.world_home w1) as (Hread & Hfile & _).
  - reflexivity.
  - reflexivity.
  - reflexivity.
  - discriminate.
  - exact E.
  - split; [|exact Hfile]. rewrite Hread. reflexivity.
Defined.

(* ------------------------------------------------------------------ *)
(** ** More on the usage report *)

Section IndexFacts.
Context {rt : Runtime}.

Lemma indexed_at_record k h u : indexed_at k h u = true -> is_record u = true.
Proof.
  unfold indexed_at, usage_key. destruct u; try discriminate. reflexivity.
Qed.

Lemma index_usage_records (usage : list pyobj) : forall idx,
  forallb is_record usage = true -> exists idx', index_usage usage idx = Ok idx'.
Proof.
  induction usage as [|u usage IH]; intros idx; simpl; [eauto|].
  intros H. apply andb_true_iff in H. destruct H as [Hu Hrest].
  destruct u as [| | | | |l|d]; try discriminate. simpl.
  destruct (_ || _); now apply IH.
Qed.

Lemma index_usage_not_record (usage : list pyobj) : forall idx,
  forallb is_record usage = false -> index_usage usage idx = Raise AttributeError.
Proof.
  induction usage as [|u usage IH]; intros idx; simpl; [discriminate|].
  destruct u as [| | | | |l|d]; try reflexivity. simpl.
  intros H. destruct (_ || _); now apply IH.
Qed.
End IndexFacts.

(** X10.  The index of the usage records: [report_usage] raises
    [AttributeError] as soon as one element of the usage list is not an
    object.  Otherwise each name (trimmed, in lower case) and hash
    (trimmed) holds the last record given for it, the records whose name
    or hash is blank being left out. *)
Theorem index_usage_last_wins {rt : Runtime} (usage : list pyobj) :
  if forallb is_record usage then
    exists idx,
      index_usage usage [] = Ok idx
      /\ forall k h, sget (records_of idx k) h = last_with (indexed_at k h) usage
  else
    index_usage usage [] = Raise AttributeError
    /\ forall reg, unused_revisions usage reg = Raise AttributeError.
Proof.
  destruct (forallb is_record usage) eqn:E.
  - destruct (index_usage_records usage [] E) as [idx Hidx].
    exists idx. split; [exact Hidx|]. intros k h.
    rewrite (index_usage_spec _ _ _ k h Hidx).
    now destruct (last_with (indexed_at k h) usage).
  - pose proof (index_usage_not_record usage [] E) as H. split; [exact H|].
    intros reg. unfold unused_revisions, and_then. now rewrite H.
Qed.

(** In the sample the last of the two records of [bar] wins, with its
    name in another case, and the blank one does not count. *)
Example index_usage_sample :
  @matching_record Sample.runtime Sample.usage_twice "bar" (sha256 Sample.bar_v1)
  = Some (Sample.usage_record " BAR" (sha256 Sample.bar_v1) 0)
  /\ @unused_revisions Sample.runtime (PInt 3 :: Sample.usage_twice)
                       Sample.registry_bar = Raise AttributeError.
Proof. vm_compute. auto. Qed.

Section CountFacts.
Context {rt : Runtime}.

(** The count of a record raises nothing but [OverflowError]. *)
Lemma usage_count_record_raises d e :
  usage_count (Some (PDict d)) = Raise e -> e = OverflowError.
Proof.
  unfold usage_count, py_get, and_then.
  destruct (match sget d "count" with Some v => v | None => PInt 0 end)
    as [|b|z|[| |q]|s|l|d0]; simpl; try discriminate.
  - now intros [= <-].
  - destruct (int_of_str s); discriminate.
Qed.

Lemma scan_hashes_raises n records : forall items unused e,
  (forall h u, sget records h = Some u -> is_record u = true) ->
  scan_hashes n records items unused = Raise e -> e = OverflowError.
Proof.
  induction items as [|[h loc] items IH]; intros unused e Hrec; simpl;
    [discriminate|].
  unfold and_then.
  destruct (usage_count (sget records h)) as [z|e0] eqn:Ec.
  - destruct (_ || _); now apply IH.
  - intros [= <-]. destruct (sget records h) as [u|] eqn:Eu; [|discriminate Ec].
    specialize (Hrec h u Eu). destruct u; try discriminate Hrec.
    now apply usage_count_record_raises in Ec.
Qed.

Lemma scan_hashes_ok_counts n records : forall items unused unused',
  scan_hashes n records items unused = Ok unused' ->
  forall h loc, In (h, loc) items -> exists z, usage_count (sget records h) = Ok z.
Proof.
  induction items as [|[h0 loc0] items IH]; intros unused unused'; simpl;
    [intros _ h loc []|].
  unfold and_then.
  destruct (usage_count (sget records h0)) as [z|e0] eqn:Ec; [|discriminate].
  intros H h loc [[= <- <-]|Hin]; [eauto|].
  destruct (_ || _); now apply (IH _ _ H h loc).
Qed.

Lemma scan_registry_raises idx : forall reg unused e,
  (forall k h u, sget (records_of idx k) h = Some u -> is_record u = true) ->
  scan_registry idx reg unused = Raise e -> e = OverflowError.
Proof.
  induction reg as [|[n en] reg IH]; intros unused e Hrec; simpl; [discriminate|].
  unfold and_then. fold (records_of idx (Text.lower n)).
  destruct (scan_hashes n _ (hashes en) unused) as [found|e0] eqn:Es.
  - now apply IH.
  - intros [= <-]. apply (scan_hashes_raises _ _ _ _ _ (Hrec (Text.lower n)) Es).
Qed.

Lemma scan_registry_ok_counts idx : forall reg unused unused',
  scan_registry idx reg unused = Ok unused' ->
  forall n en h loc, In (n, en) reg -> In (h, loc) (hashes en) ->
    exists z, usage_count (sget (records_of idx (Text.lower n)) h) = Ok z.
Proof.
  induction reg as [|[n0 e0] reg IH]; intros unused unused'; simpl;
    [intros _ n en h loc []|].
  unfold and_then. fold (records_of idx (Text.lower n0)).
  destruct (scan_hashes n0 _ (hashes e0) unused) as [found|x] eqn:Es; [|discriminate].
  intros H n en h loc [[= <- <-]|Hin] Hh.
  - apply (scan_hashes_ok_counts _ _ _ _ _ Es h loc Hh).
  - apply (IH _ _ H n en h loc Hin Hh).
Qed.
End CountFacts.

(** X11.  An infinite count is not caught: when the record that matches
    a hash of the registry has the count [Infinity], [int] raises
    [OverflowError], which the [try] around it does not name, and
    [report_usage] raises it before it has printed anything. *)
Theorem report_usage_infinite_count {rt : Runtime}
        (usage : list pyobj) (reg : registry) (w : world)
        (n : string) (e : entry) (h : string) (loc : location)
        (d : list (string * pyobj)) (negative : bool) :
  forallb is_record usage = true ->
  In (n, e) reg -> In (h, loc) (hashes e) ->
  matching_record usage n h = Some (PDict d) ->
  sget d "count" = Some (PFloat (FInf negative)) ->
  report_usage usage reg w = (Raise OverflowError, w).
Proof.
  intros Hrec Hn Hh Hm Hc.
  destruct (index_usage_records usage [] Hrec) as [idx Hidx].
  assert (Hlook : forall k h', sget (records_of idx k) h'
                               = last_with (indexed_at k h') usage).
  { intros k h'. rewrite (index_usage_spec _ _ _ k h' Hidx).
    now destruct (last_with (indexed_at k h') usage). }
  assert (Hdict : forall k h' u, sget (records_of idx k) h' = Some u ->
                                 is_record u = true).
  { intros k h' u Hu. rewrite Hlook in Hu. apply last_with_some in Hu.
    destruct Hu as [_ Hu]. now apply indexed_at_record in Hu. }
  assert (Hcount : usage_count (sget (records_of idx (Text.lower n)) h)
                   = Raise OverflowError).
  { rewrite Hlook. fold (matching_record usage n h). rewrite Hm.
    unfold usage_count, py_get, and_then. now rewrite Hc. }
  unfold report_usage, bind, lift, unused_revisions, and_then. rewrite Hidx.
  destruct (scan_registry idx reg []) as [unused|x] eqn:Es.
  - destruct (scan_registry_ok_counts _ _ _ _ Es n e h loc Hn Hh) as [z Hz].
    congruence.
  - now rewrite (scan_registry_raises _ _ _ _ Hdict Es).
Qed.

Lemma report_usage_infinite_count_witness :
  forallb is_record Sample.usage_infinite = true
  /\ In ("bar", Sample.entry_bar) Sample.registry_bar
  /\ In (sha256 Sample.bar_v1, Sample.location_bar_v1) (hashes Sample.entry_bar)
  /\ @report_usage Sample.runtime Sample.usage_infinite Sample.registry_bar
                   Sample.world0 = (Raise OverflowError, Sample.world0).
Proof.
  assert (H1 : forallb is_record Sample.usage_infinite = true) by reflexivity.
  assert (H2 : In ("bar", Sample.entry_bar) Sample.registry_bar)
    by (left; reflexivity).
  assert (H3 : In (sha256 Sample.bar_v1, Sample.location_bar_v1)
                  (hashes Sample.entry_bar))
    by (left; vm_compute; reflexivity).
  split; [exact H1|]. split; [exact H2|]. split; [exact H3|].
  apply (@report_usage_infinite_count Sample.runtime Sample.usage_infinite
           Sample.registry_bar Sample.world0 "bar" Sample.entry_bar
           (sha256 Sample.bar_v1) Sample.location_bar_v1
           [("strategy", PStr "bar"); ("hash", PStr (sha256 Sample.bar_v1));
            ("count", PFloat (FInf false))] false H1 H2 H3).
  - vm_compute. reflexivity.
  - reflexivity.
Defined.

(* ------------------------------------------------------------------ *)
(** ** Lexicographic order *)

Lemma string_compare_lt_trans (a b c : string) :
  String.compare a b = Lt -> String.compare b c = Lt -> String.compare a c = Lt.
Proof.
  intros Hab Hbc.
  assert (Hne : String.compare a c <> Gt).
  { apply string_compare_trans with b; congruence. }
  destruct (String.compare a c) eqn:Eac; [|reflexivity|congruence].
  apply String.compare_eq_iff in Eac. subst c.
  rewrite String.compare_antisym, Hab in Hbc. discriminate.
Qed.

Lemma list_le_refl (a : list string) : Order.list_le a a = true.
Proof.
  induction a as [|x a IH]; simpl; [reflexivity|].
  now rewrite string_compare_refl.
Qed.

Lemma list_le_total (a : list string) : forall b,
  Order.list_le a b = true \/ Order.list_le b a = true.
Proof.
  induction a as [|x a IH]; intros [|y b]; simpl; auto.
  rewrite (String.compare_antisym y x).
  destruct (String.compare x y); simpl; auto.
Qed.

Lemma list_le_trans (a : list string) : forall b c,
  Order.list_le a b = true -> Order.list_le b c = true -> Order.list_le a c = true.
Proof.
  induction a as [|x a IH]; intros [|y b] [|z c]; simpl; try congruence.
  destruct (String.compare x y) eqn:Exy; try discriminate;
    destruct (String.compare y z) eqn:Eyz; try discriminate; intros Hab Hbc.
  - apply String.compare_eq_iff in Exy, Eyz. subst.
    rewrite string_compare_refl. now apply IH with b.
  - apply String.compare_eq_iff in Exy. subst. now rewrite Eyz.
  - apply String.compare_eq_iff in Eyz. subst. now rewrite Exy.
  - now rewrite (string_compare_lt_trans _ _ _ Exy Eyz).
Qed.

Lemma triple_le_refl (a : triple) : Order.triple_le a a = true.
Proof. destruct a as [[a1 a2] a3]. apply list_le_refl. Qed.

Lemma triple_le_total (a b : triple) :
  Order.triple_le a b = true \/ Order.triple_le b a = true.
Proof.
  destruct a as [[a1 a2] a3], b as [[b1 b2] b3]. apply list_le_total.
Qed.

Lemma triple_le_trans (a b c : triple) :
  Order.triple_le a b = true -> Order.triple_le b c = true ->
  Order.triple_le a c = true.
Proof.
  destruct a as [[a1 a2] a3], b as [[b1 b2] b3], c as [[c1 c2] c3].
  apply list_le_trans.
Qed.

Section PathOrder.
Context {rt : Runtime}.

Lemma path_le_total (p q : Path) : path_le p q = true \/ path_le q p = true.
Proof. apply list_le_total. Qed.

Lemma path_le_trans (p q r : Path) :
  path_le p q = true -> path_le q r = true -> path_le p r = true.
Proof. apply list_le_trans. Qed.

End PathOrder.

(** X12.  What [report_usage] prints when it has the list of the unused
    revisions: a blank line, then either the sentence that nothing is
    unused, or a heading and one line for each unused revision, the lines
    in the order of the triples (name, tag, hash); nothing else changes. *)
Theorem report_usage_output {rt : Runtime}
        (usage : list pyobj) (reg : registry) (w : world) (unused : list triple) :
  unused_revisions usage reg = Ok unused ->
  report_usage usage reg w
  = (Ok tt,
     mkWorld (fs w)
       (stdout w
        ++ "" :: match unused with
                 | [] =>
                     ["usage report: no unused revisions detected (all tracked hashes have usage)."]
                 | _ :: _ =>
                     "usage report: revisions with zero running instances:"
                     :: map report_line (Order.sorted Order.triple_le unused)
                 end)
       (stderr w) (trace w))
  /\ StronglySorted (fun a b => Order.triple_le a b = true)
                    (Order.sorted Order.triple_le unused)
  /\ Permutation (Order.sorted Order.triple_le unused) unused.
Proof.
  intros Hu. split; [|split].
  - unfold report_usage, bind, lift. rewrite Hu.
    destruct unused as [|t unused]; unfold print; cbn [fs stdout stderr trace].
    + now rewrite <- app_assoc.
    + rewrite print_all_lines. cbn [fs stdout stderr trace].
      now rewrite <- !app_assoc.
  - apply (sorted_sorted _ _ triple_le_total triple_le_trans).
  - apply (sorted_perm _ _ triple_le_total triple_le_trans).
Qed.

Lemma report_usage_output_witness :
  @unused_revisions Sample.runtime [] Sample.registry_mixed
  = Ok [ ("bar", "v1", sha256 Sample.bar_v1); ("bar", "v10", sha256 Sample.bar_v10);
         ("foo", "v1", sha256 Sample.foo_v1_a); ("foo", "v1", sha256 Sample.foo_v1_b) ]
  /\ stdout (snd (@report_usage Sample.runtime [] Sample.registry_mixed Sample.world0))
     = [ ""; "usage report: revisions with zero running instances:";
         ("  - bar v1 [" ++ sha256 Sample.bar_v1 ++ "]")%string;
         ("  - bar v10 [" ++ sha256 Sample.bar_v10 ++ "]")%string;
         ("  - foo v1 [" ++ sha256 Sample.foo_v1_b ++ "]")%string;
         ("  - foo v1 [" ++ sha256 Sample.foo_v1_a ++ "]")%string ].
Proof.
  assert (H : @unused_revisions Sample.runtime [] Sample.registry_mixed
              = Ok [ ("bar", "v1", sha256 Sample.bar_v1);
                     ("bar", "v10", sha256 Sample.bar_v10);
                     ("foo", "v1", sha256 Sample.foo_v1_a);
                     ("foo", "v1", sha256 Sample.foo_v1_b) ])
    by (vm_compute; reflexivity).
  split; [exact H|].
  destruct (@report_usage_output Sample.runtime [] Sample.registry_mixed
              Sample.world0 _ H) as [Hr _].
  rewrite Hr. vm_compute. reflexivity.
Defined.

(* ------------------------------------------------------------------ *)
(** ** Discovery *)

Lemma last_append (l : list string) (x : string) (rest : list string) (d : string) :
  last (l ++ x :: rest) d = last (x :: rest) d.
Proof.
  induction l as [|y l IH]; [reflexivity|].
  simpl app. rewrite <- IH. simpl. now destruct (l ++ x :: rest) eqn:E;
    [destruct l; discriminate E|].
Qed.

Lemma last_item_last (l : list string) (x : string) :
  Order.last_item (l ++ [x]) = Some x.
Proof. unfold Order.last_item. now rewrite rev_app_distr. Qed.

Lemma last_item_is_last (l : list string) (d : string) :
  l <> [] -> Order.last_item l = Some (last l d).
Proof.
  intros Hl. destruct (exists_last Hl) as (l' & x & ->).
  now rewrite last_item_last, last_last.
Qed.

Section DiscoverFacts.
Context {rt : Runtime}.

(** What the discovery finds is never named [registry.json]: the test of
    [discover_modules] on that name never holds. *)
Lemma rglob_js_names root w files w' :
  Fs.rglob_js root w = (Ok files, w') ->
  forall f, In f files -> Paths.name f <> "registry.json".
Proof.
  unfold Fs.rglob_js. destruct (_ && _).
  - intros [= <- _] f Hf. apply in_flat_map in Hf. destruct Hf as (kv & _ & Hf).
    destruct (Paths.strip_prefix _ (fst kv)) as [[|x rest]|]; try destruct Hf.
    destruct (Fs.reachable (fs w) (fst kv) && _) eqn:E; [|destruct Hf].
    destruct Hf as [<-|[]]. apply andb_true_iff in E. destruct E as [_ E].
    assert (E' : Text.endswith (last (x :: rest) "") ".js" = true) by exact E.
    unfold Paths.name. cbn [segs].
    rewrite (last_item_is_last _ "") by (now destruct (segs root)).
    rewrite last_append. intros Hn. rewrite Hn in E'. discriminate E'.
  - intros [= <- _] f [].
Qed.

Lemma load_each_ok root w : forall files acc ms w',
  (forall f, In f files -> Paths.name f <> "registry.json") ->
  load_each root files acc w = (Ok ms, w') ->
  w' = w /\ map path ms = map path acc ++ files.
Proof.
  induction files as [|f files IH]; intros acc ms w' Hn; simpl.
  - unfold ret. intros [= <- <-]. now rewrite app_nil_r.
  - assert (Hf : String.eqb (Paths.name f) "registry.json" = false).
    { apply String.eqb_neq. apply Hn. now left. }
    rewrite Hf. intros H. apply bind_ok in H as (m & w1 & Hm & H).
    pose proof (load_module_world root f w) as Hw. rewrite Hm in Hw.
    simpl in Hw. subst w1.
    apply load_module_ok in Hm as (c & md & nf & vf & rel & _ & _ & _ & _ & _ & _ & ->).
    apply IH in H; [|intros g Hg; apply Hn; now right].
    destruct H as [-> H]. split; [reflexivity|].
    rewrite H, map_app. simpl. now rewrite <- app_assoc.
Qed.
End DiscoverFacts.

(** X13.  [discover_modules] changes nothing and, when it returns,
    returns one module for each file that [rglob] finds, in the sorted
    order of their paths; no file is skipped, the test on the name
    [registry.json] never holding for a name that ends with [.js]. *)
Theorem discover_modules_sorted {rt : Runtime}
        (root : Path) (w w' : world) (ms : list ModuleInfo) :
  discover_modules root w = (Ok ms, w') ->
  w' = w
  /\ exists files,
       Fs.rglob_js root w = (Ok files, w)
       /\ map path ms = Order.sorted path_le files
       /\ Permutation (map path ms) files
       /\ StronglySorted (fun p q => path_le p q = true) (map path ms).
Proof.
  unfold discover_modules. intros H. apply bind_ok in H as (files & w1 & Hg & H).
  pose proof (rglob_js_world root w) as Hw. rewrite Hg in Hw. simpl in Hw. subst w1.
  assert (Hn : forall f, In f (Order.sorted path_le files) ->
                         Paths.name f <> "registry.json").
  { intros f Hf. apply (rglob_js_names _ _ _ _ Hg).
    apply (Permutation_in _ (sorted_perm _ _ path_le_total path_le_trans files) Hf). }
  apply (load_each_ok _ _ _ _ _ _ Hn) in H. destruct H as [-> H]. simpl in H.
  split; [reflexivity|]. exists files. rewrite H. repeat split.
  - exact Hg.
  - apply (sorted_perm _ _ path_le_total path_le_trans).
  - apply (sorted_sorted _ _ path_le_total path_le_trans).
Qed.

Lemma discover_modules_sorted_witness :
  exists ms,
    @discover_modules Sample.runtime Sample.root Sample.world0 = (Ok ms, Sample.world0)
    /\ map path ms
       = [ mkPath "/" ["srv"; "strategies"; "bar"; "v1"; "bar.js"];
           mkPath "/" ["srv"; "strategies"; "foo.js"];
           mkPath "/" ["srv"; "strategies"; "x"; "bar.js"] ].
Proof.
  destruct (@discover_modules Sample.runtime Sample.root Sample.world0)
    as [r w'] eqn:E.
  assert (Er : exists ms, r = Ok ms).
  { apply (f_equal fst) in E. simpl in E. rewrite <- E. vm_compute. eauto. }
  destruct Er as [ms ->]. exists ms.
  destruct (@discover_modules_sorted Sample.runtime Sample.root Sample.world0 w' ms E)
    as (-> & files & Hg & Hs & _).
  split; [reflexivity|]. rewrite Hs.
  assert (Ef : files = [ mkPath "/" ["srv"; "strategies"; "foo.js"];
                         mkPath "/" ["srv"; "strategies"; "x"; "bar.js"];
                         mkPath "/" ["srv"; "strategies"; "bar"; "v1"; "bar.js"] ]).
  { assert (Hc : @Fs.rglob_js Sample.runtime Sample.root Sample.world0
                 = (Ok [ mkPath "/" ["srv"; "strategies"; "foo.js"];
                         mkPath "/" ["srv"; "strategies"; "x"; "bar.js"];
                         mkPath "/" ["srv"; "strategies"; "bar"; "v1"; "bar.js"] ],
                    Sample.world0))
      by (vm_compute; reflexivity).
    rewrite Hc in Hg. now injection Hg as <-. }
  subst files. vm_compute. reflexivity.
Defined.

(** X14.  A module that [load_module] returns: its path is the path
    given, its metadata are an object, its name is not empty and is in
    lower case, its version is not empty, and is [v1.0.0] when the
    metadata give none or a blank one. *)
Theorem load_module_fields {rt : Runtime}
        (root p : Path) (w w' : world) (m : ModuleInfo) :
  load_module root p w = (Ok m, w') ->
  w' = w
  /\ path m = p
  /\ name m <> "" /\ Text.lower (name m) = name m
  /\ version m <> ""
  /\ exists d,
       metadata m = PDict d
       /\ (Text.strip (py_str (match sget d "version" with
                               | Some v => v
                               | None => PStr ""
                               end)) = "" ->
           version m = DEFAULT_VERSION).
Proof.
  intros H. pose proof (load_module_world root p w) as Hw. rewrite H in Hw.
  simpl in Hw. subst w'.
  apply load_module_ok in H as (c & md & nf & vf & rel & _ & _ & Hn & Hv & _ & Hne & ->).
  simpl. split; [reflexivity|]. split; [reflexivity|]. split; [exact Hne|].
  split; [apply lower_idem|]. split.
  - unfold Text.or_else. destruct (Text.strip (py_str vf)); discriminate.
  - destruct md as [| | | | |l|d]; try discriminate Hn. exists d.
    split; [reflexivity|]. simpl in Hv. injection Hv as <-.
    intros Hb. now rewrite Hb.
Qed.

Lemma load_module_fields_witness :
  @load_module Sample.runtime Sample.root Sample.foo_file Sample.world0
  = (Ok Sample.loaded_foo, Sample.world0)
  /\ name Sample.loaded_foo = "foo" /\ version Sample.loaded_foo = "v2"
  /\ path Sample.loaded_foo = Sample.foo_file
  /\ Text.lower (name Sample.loaded_foo) = name Sample.loaded_foo.
Proof.
  assert (H : @load_module Sample.runtime Sample.root Sample.foo_file Sample.world0
              = (Ok Sample.loaded_foo, Sample.world0))
    by (vm_compute; reflexivity).
  destruct (@load_module_fields Sample.runtime Sample.root Sample.foo_file
              Sample.world0 Sample.world0 Sample.loaded_foo H)
    as (_ & Hp & _ & Hl & _).
  split; [exact H|]. split; [reflexivity|]. split; [reflexivity|].
  split; [exact Hp|exact Hl].
Defined.

(* ------------------------------------------------------------------ *)
(** ** A module that is already where it would go *)

(** X15.  The move of a module whose canonical place is the place where
    it was found, and that is not taken for versioned, loses the module:
    the file is written over itself, then removed.  [materialize_module]
    returns the canonical path all the same, and nothing is there. *)
Theorem materialize_module_loses_module {rt : Runtime}
        (root : Path) (m : ModuleInfo) (w w' : world) (p : Path) :
  materialize_module root m w = (Ok p, w') ->
  versioned m = false ->
  Paths.locate cwd (path m) = Paths.locate cwd (canonical_path root m) ->
  p = canonical_path root m
  /\ Fs.lookup (fs w') (Paths.locate cwd p) = None.
Proof.
  unfold materialize_module. intros H Hv He. rewrite Hv in H.
  apply bind_ok in H as (_ & w0 & _ & H).
  apply bind_ok in H as (_ & w1 & _ & H).
  apply bind_ok in H as ([] & w2 & Hmove & H).
  unfold ret in H. injection H as <- <-.
  apply wrap_oserror_ok in Hmove.
  apply bind_ok in Hmove as ([] & w3 & _ & Hunlink).
  apply unlink_ok in Hunlink.
  split; [reflexivity|]. rewrite Hunlink.
  change (Paths.join (Paths.join (Paths.join root (name m)) (version m))
                     (name m ++ ".js")%string)
    with (canonical_path root m).
  rewrite <- He. apply lookup_erase_same.
Qed.

(** The theorem at a module [foo] whose version is a dot, found at
    [foo/foo.js]: [root/foo/./foo.js] is that very file. *)
Lemma materialize_module_loses_module_witness :
  @load_module Sample.dotted Sample.root Sample.dotted_file Sample.world_dotted
  = (Ok Sample.loaded_dotted, Sample.world_dotted)
  /\ versioned Sample.loaded_dotted = false
  /\ Fs.lookup (fs Sample.world_dotted) ["srv"; "strategies"; "foo"; "foo.js"]
     = Some (File (Sample.bytes "exports.metadata = 4"))
  /\ exists w',
       @materialize_module Sample.dotted Sample.root Sample.loaded_dotted
                           Sample.world_dotted
       = (Ok Sample.dotted_file, w')
       /\ Fs.lookup (fs w') ["srv"; "strategies"; "foo"; "foo.js"] = None.
Proof.
  split; [vm_compute; reflexivity|]. split; [reflexivity|].
  split; [reflexivity|].
  destruct (@materialize_module Sample.dotted Sample.root Sample.loaded_dotted
              Sample.world_dotted) as [r w'] eqn:E.
  assert (Er : r = Ok Sample.dotted_file).
  { apply (f_equal fst) in E. simpl in E. rewrite <- E. vm_compute. reflexivity. }
  subst r. exists w'. split; [reflexivity|].
  destruct (@materialize_module_loses_module Sample.dotted Sample.root
              Sample.loaded_dotted Sample.world_dotted w' _ E eq_refl)
    as [_ Hgone].
  - vm_compute. reflexivity.
  - exact Hgone.
Defined.

(* ------------------------------------------------------------------ *)
(** ** The command line tool as a whole *)


(** X17.  Without a usage source, [main] is [ensure_dir] followed by
    [rebuild_registry_once], the function of the interactive tool: the
    status is 0 when it returns, 1 with one line on the standard error
    when it raises a [BootstrapError], and any other exception leaves
    [main]. *)
Theorem main_rebuild_registry {rt : Runtime}
        (argv : list string) (root_arg : string) (write : bool)
        (usage_output : string) (w w1 w2 : world) (root : Path)
        (r : result registry) :
  parse_argv argv = inl (root_arg, write, None, usage_output) ->
  ensure_dir root_arg w = (Ok root, w1) ->
  rebuild_registry_once root write w1 = (r, w2) ->
  main argv w
  = match r with
    | Ok _ => (Ok 0%Z, w2)
    | Raise (BootstrapError msg) =>
        (Ok 1%Z, mkWorld (fs w2) (stdout w2)
                         (stderr w2 ++ [("bootstrap: " ++ msg)%string]) (trace w2))
    | Raise e => (Raise e, w2)
    end.
Proof.
  intros Hp He H. unfold rebuild_registry_once in H.
  unfold main, try_except. rewrite Hp. unfold bind in *. rewrite He.
  destruct (discover_modules root w1) as [[[|m ms]|e] w3].
  - unfold raise in *. injection H as <- <-. reflexivity.
  - destruct (build_registry (m :: ms) root write w3) as [[reg|e] w4].
    + destruct (write_registry root reg w4) as [[[]|e] w5].
      * unfold print in *. destruct write; simpl in *.
        -- unfold ret in *. injection H as <- <-. reflexivity.
        -- unfold ret in *. injection H as <- <-. reflexivity.
      * injection H as <- <-. now destruct e.
    + injection H as <- <-. now destruct e.
  - injection H as <- <-. now destruct e.
Qed.

(** The theorem on the sample tree, without [--write]: three modules of
    two names, the status 0 and two lines of output. *)
Lemma main_rebuild_registry_witness :
  exists reg w2,
    @rebuild_registry_once Sample.runtime Sample.root false Sample.world0
    = (Ok reg, w2)
    /\ @main Sample.runtime [] Sample.world0 = (Ok 0%Z, w2)
    /\ stdout w2
       = [ "registry.json generated for 2 strategies under /srv/strategies";
           "filesystem left untouched (pass --write to reorganize)" ].
Proof.
  destruct (@rebuild_registry_once Sample.runtime Sample.root false Sample.world0)
    as [r w2] eqn:E.
  assert (Er : exists reg, r = Ok reg).
  { apply (f_equal fst) in E. change (fst (r, w2)) with r in E.
    rewrite <- E. vm_compute. eauto. }
  assert (Eo : stdout w2
               = [ "registry.json generated for 2 strategies under /srv/strategies";
                   "filesystem left untouched (pass --write to reorganize)" ]).
  { apply (f_equal snd) in E. change (snd (r, w2)) with w2 in E.
    rewrite <- E. vm_compute. reflexivity. }
  destruct Er as [reg ->]. exists reg, w2. split; [reflexivity|].
  split; [|exact Eo].
  apply (@main_rebuild_registry Sample.runtime [] "/srv/strategies" false "usage.json"
           Sample.world0 Sample.world0 w2 Sample.root (Ok reg)).
  - reflexivity.
  - vm_compute. reflexivity.
  - exact E.
Defined.

(* ------------------------------------------------------------------ *)
(** ** The root directory, once more *)

Section DirFacts.
Context {rt : Runtime}.

(** Directories that [mkdir] went through are there afterwards. *)
Lemma make_dirs_made (ks : list (list string)) : forall w w',
  Fs.make_dirs ks w = (Ok tt, w') ->
  forall k, In k ks -> Fs.lookup (fs w') k = Some Dir.
Proof.
  induction ks as [|a ks IH]; intros w w'; simpl; [intros _ k []|].
  unfold Fs.os_error, raise.
  destruct (Fs.lookup (fs w) a) as [[c|]|] eqn:Ea; [discriminate| |].
  - intros H k [<-|Hk]; [|now apply (IH _ _ H)].
    rewrite (make_dirs_present _ _ _ _ H) by congruence. exact Ea.
  - destruct (judge _); try discriminate.
    intros H k [<-|Hk]; [|now apply (IH _ _ H)].
    rewrite (make_dirs_present _ _ _ _ H); simpl.
    + apply lookup_store_same.
    + rewrite lookup_store_same. discriminate.
Qed.

(** Where they all are, [mkdir] does nothing. *)
Lemma make_dirs_nothing (ks : list (list string)) (w : world) :
  (forall k, In k ks -> Fs.lookup (fs w) k = Some Dir) ->
  Fs.make_dirs ks w = (Ok tt, w).
Proof.
  induction ks as [|a ks IH]; intros H; simpl; [reflexivity|].
  rewrite (H a) by now left. apply IH. intros k Hk. apply H. now right.
Qed.

(** The home directory does not depend on the tree. *)
Lemma expanduser_anywhere p w w' :
  fst (Fs.expanduser p w) = fst (Fs.expanduser p w').
Proof.
  unfold Fs.expanduser.
  destruct (anchor p) as [|c a]; [|reflexivity].
  destruct (segs p) as [|[|c s] rest]; try reflexivity.
  destruct c as [[] [] [] [] [] [] [] []]; try reflexivity.
  destruct (os_expanduser _) as [|c' h]; [reflexivity|].
  destruct c' as [[] [] [] [] [] [] [] []]; reflexivity.
Qed.
End DirFacts.

(** X18.  [ensure_dir] is idempotent: called again on the world it
    leaves, it returns the same directory and changes nothing. *)
Theorem ensure_dir_idempotent {rt : Runtime}
        (path : string) (w w1 : world) (target : Path) :
  ensure_dir path w = (Ok target, w1) ->
  ensure_dir path w1 = (Ok target, w1).
Proof.
  unfold ensure_dir. destruct (negb _); [discriminate|]. intros H.
  apply bind_ok in H as (expanded & w0 & He & H).
  apply bind_ok in H as ([] & w2 & Hm & H).
  unfold ret in H. injection H as <- <-.
  pose proof (expanduser_world (Paths.parse (Text.strip path)) w) as Hw.
  rewrite He in Hw. simpl in Hw. subst w0.
  pose proof (expanduser_anywhere (Paths.parse (Text.strip path)) w w2) as Ha.
  rewrite He in Ha. simpl in Ha.
  pose proof (expanduser_world (Paths.parse (Text.strip path)) w2) as Hw2.
  unfold bind.
  destruct (Fs.expanduser (Paths.parse (Text.strip path)) w2) as [r w3].
  simpl in Ha, Hw2. subst r w3.
  unfold Fs.mkdir in *.
  rewrite make_dirs_nothing; [reflexivity|].
  intros k Hk. now apply (make_dirs_made _ _ _ Hm).
Qed.

(** The theorem on a machine where nothing is there yet: the first call
    makes [/srv] and [/srv/strategies], the second one finds them. *)
Lemma ensure_dir_idempotent_witness :
  exists w1,
    @ensure_dir Sample.runtime "/srv/strategies" Sample.world_bare
    = (Ok Sample.root, w1)
    /\ fs w1 = [(["srv"], Dir); (["srv"; "strategies"], Dir)]
    /\ @ensure_dir Sample.runtime "/srv/strategies" w1 = (Ok Sample.root, w1).
Proof.
  exists (mkWorld [(["srv"], Dir); (["srv"; "strategies"], Dir)] [] [] []).
  assert (H : @ensure_dir Sample.runtime "/srv/strategies" Sample.world_bare
              = (Ok Sample.root,
                 mkWorld [(["srv"], Dir); (["srv"; "strategies"], Dir)] [] [] []))
    by (vm_compute; reflexivity).
  split; [exact H|]. split; [reflexivity|].
  exact (@ensure_dir_idempotent Sample.runtime _ _ _ _ H).
Defined.

(* ------------------------------------------------------------------ *)
(** ** What writing the manifest touches *)

Section ManifestFacts.
Context {rt : Runtime}.

Lemma write_bytes_output p data w r w1 :
  Fs.write_bytes p data w = (r, w1) ->
  stdout w1 = stdout w /\ stderr w1 = stderr w /\ trace w1 = trace w.
Proof.
  unfold Fs.write_bytes, Fs.os_error, raise.
  destruct (Paths.locate cwd p); [now intros [= _ <-]|].
  destruct (_ && _); [|now intros [= _ <-]].
  destruct (judge _); now intros [= _ <-].
Qed.

(** The rename of a file: what it leaves alone. *)
Lemma replace_file_frame src dst w r w2 c :
  Fs.replace src dst w = (r, w2) ->
  Fs.lookup (fs w) (Paths.locate cwd src) = Some (File c) ->
  stdout w2 = stdout w /\ stderr w2 = stderr w /\ trace w2 = trace w
  /\ forall k, k <> Paths.locate cwd src -> k <> Paths.locate cwd dst ->
               Fs.lookup (fs w2) k = Fs.lookup (fs w) k.
Proof.
  unfold Fs.replace, Fs.os_error, raise. intros H Hsrc.
  destruct (Paths.locate cwd src) as [|x s] eqn:Es; [now injection H as _ <-|].
  destruct (Paths.locate cwd dst) as [|y d] eqn:Ed; [now injection H as _ <-|].
  destruct (negb _); [now injection H as _ <-|].
  rewrite Hsrc in H. destruct (judge _); try (now injection H as _ <-).
  destruct (Fs.is_dir _ _); [now injection H as _ <-|].
  destruct (Paths.seg_eqb _ _); [now injection H as _ <-|].
  injection H as _ <-. simpl. repeat split; try reflexivity.
  intros k Hs Hd.
  rewrite lookup_store_other by congruence.
  apply lookup_erase_other. congruence.
Qed.
(** A file written under a temporary name, then renamed: the outcome,
    and what is left alone. *)
Lemma write_replace_frame tmp target text w r w' :
  bind (Fs.write_text tmp text) (fun _ => Fs.replace tmp target) w = (r, w') ->
  (r = Ok tt \/ exists exc, r = Raise (OSError exc))
  /\ stdout w' = stdout w /\ stderr w' = stderr w /\ trace w' = trace w
  /\ forall k, k <> Paths.locate cwd target -> k <> Paths.locate cwd tmp ->
               Fs.lookup (fs w') k = Fs.lookup (fs w) k.
Proof.
  unfold bind, Fs.write_text.
  destruct (Fs.write_bytes tmp _ w) as [[[]|e] w1] eqn:Hw.
  - pose proof (write_bytes_output _ _ _ _ _ Hw) as (Ho & He & Ht).
    apply write_bytes_ok in Hw.
    assert (Hs : Fs.lookup (fs w1) (Paths.locate cwd tmp)
                 = Some (File (Text.encode_utf8 text))).
    { rewrite Hw. apply lookup_store_same. }
    assert (Hk : forall k, k <> Paths.locate cwd tmp ->
                           Fs.lookup (fs w1) k = Fs.lookup (fs w) k).
    { intros k Hne. rewrite Hw. apply lookup_store_other. congruence. }
    intros Hr.
    destruct (replace_file_frame _ _ _ _ _ _ Hr Hs) as (Ho2 & He2 & Ht2 & Hf).
    split.
    + destruct r as [[]|e]; [now left|].
      apply replace_fails in Hr as [exc ->]. right. now exists exc.
    + split; [congruence|]. split; [congruence|]. split; [congruence|].
      intros k H1 H2. rewrite Hf by assumption. now apply Hk.
  - pose proof (write_bytes_output _ _ _ _ _ Hw) as (Ho & He & Ht).
    destruct (write_bytes_fails _ _ _ _ _ Hw) as [[exc ->] Hk].
    intros [= <- <-]. split; [right; now exists exc|].
    split; [assumption|]. split; [assumption|]. split; [assumption|].
    intros k _ H2. now apply Hk.
Qed.

Lemma load_each_world root : forall files acc w,
  snd (load_each root files acc w) = w.
Proof.
  induction files as [|f files IH]; intros acc w; simpl; [reflexivity|].
  destruct (String.eqb _ _); [apply IH|].
  apply bind_world; [apply load_module_world|]. intros m. apply IH.
Qed.

Lemma discover_modules_world root w : snd (discover_modules root w) = w.
Proof.
  unfold discover_modules. apply bind_world; [apply rglob_js_world|].
  intros files. apply load_each_world.
Qed.
End ManifestFacts.

(** X19.  [write_registry] returns or raises a [BootstrapError] whose
    message starts with [write registry: ]; either way it leaves the
    output alone, and in the tree everything but [registry.json] and
    [registry.json.tmp]. *)
Theorem write_registry_frame {rt : Runtime}
        (root : Path) (reg : registry) (w w' : world) (r : result unit) :
  write_registry root reg w = (r, w') ->
  (r = Ok tt
   \/ exists exc, r = Raise (BootstrapError ("write registry: " ++ exc)%string))
  /\ stdout w' = stdout w /\ stderr w' = stderr w /\ trace w' = trace w
  /\ forall k, k <> manifest_key root -> k <> manifest_tmp_key root ->
               Fs.lookup (fs w') k = Fs.lookup (fs w) k.
Proof.
  unfold write_registry, wrap_oserror, try_except, manifest_key, manifest_tmp_key.
  match goal with
  | |- context [bind ?m ?k w] => destruct (bind m k w) as [r0 w0] eqn:Hb
  end.
  apply write_replace_frame in Hb as (Hr & Hframe).
  destruct Hr as [->|[exc ->]].
  - intros [= <- <-]. split; [now left|exact Hframe].
  - unfold raise. intros [= <- <-]. split; [|exact Hframe].
    right. now exists exc.
Qed.

(** The theorem on the sample tree: the manifest is replaced, the
    module [foo.js] is as it was. *)
Lemma write_registry_frame_witness :
  exists w',
    @write_registry Sample.runtime Sample.root Sample.registry_bar Sample.world0
    = (Ok tt, w')
    /\ stdout w' = []
    /\ Fs.lookup (fs w') ["srv"; "strategies"; "foo.js"]
       = Some (File (Sample.bytes "exports.metadata = 1")).
Proof.
  destruct (@write_registry Sample.runtime Sample.root Sample.registry_bar
              Sample.world0) as [r w'] eqn:E.
  assert (Er : r = Ok tt).
  { apply (f_equal fst) in E. change (fst (r, w')) with r in E.
    rewrite <- E. vm_compute. reflexivity. }
  subst r. exists w'. split; [reflexivity|].
  destruct (@write_registry_frame Sample.runtime _ _ _ _ _ E)
    as (_ & Ho & _ & _ & Hf).
  split; [exact Ho|].
  rewrite Hf; [reflexivity| |]; vm_compute; discriminate.
Defined.

(* ------------------------------------------------------------------ *)
(** ** The calls to [materialize_module] *)

Section CallFacts.
Context {rt : Runtime}.

Lemma make_dirs_trace (ks : list (list string)) : forall w r w',
  Fs.make_dirs ks w = (r, w') -> trace w' = trace w.
Proof.
  induction ks as [|a ks IH]; intros w r w'; simpl.
  - unfold ret. now intros [= _ <-].
  - unfold Fs.os_error, raise.
    destruct (Fs.lookup (fs w) a) as [[c|]|].
    + now intros [= _ <-].
    + apply IH.
    + destruct (judge _); try (now intros [= _ <-]).
      intros H. now rewrite (IH _ _ _ H).
Qed.

Lemma write_bytes_trace p data w r w1 :
  Fs.write_bytes p data w = (r, w1) -> trace w1 = trace w.
Proof.
  unfold Fs.write_bytes, Fs.os_error, raise.
  destruct (Paths.locate cwd p); [now intros [= _ <-]|].
  destruct (_ && _); [|now intros [= _ <-]].
  destruct (judge _); now intros [= _ <-].
Qed.

Lemma unlink_trace p w r w1 :
  Fs.unlink p w = (r, w1) -> trace w1 = trace w.
Proof.
  unfold Fs.unlink, Fs.os_error, raise.
  destruct (_ && _); [|now intros [= _ <-]].
  destruct (judge _); now intros [= _ <-].
Qed.

(** One call, one event, whatever the outcome. *)
Lemma materialize_module_trace root m w r w' :
  materialize_module root m w = (r, w') -> trace w' = trace w ++ [call_of m].
Proof.
  unfold materialize_module, bind, log, call_of. cbn [fst snd].
  destruct (versioned m).
  - unfold ret. now intros [= _ <-].
  - unfold Fs.mkdir.
    match goal with
    | |- context [Fs.make_dirs ?ks ?w0] =>
        destruct (Fs.make_dirs ks w0) as [[[]|e] w1] eqn:Hm
    end.
    + apply make_dirs_trace in Hm. simpl in Hm.
      unfold wrap_oserror, try_except, bind.
      match goal with
      | |- context [Fs.write_bytes ?p ?d w1] =>
          destruct (Fs.write_bytes p d w1) as [[[]|e] w2] eqn:Hw
      end.
      * apply write_bytes_trace in Hw.
        destruct (Fs.unlink (path m) w2) as [[[]|e] w3] eqn:Hu;
          apply unlink_trace in Hu.
        -- unfold ret. intros [= _ <-]. congruence.
        -- destruct e; unfold raise; intros [= _ <-]; congruence.
      * apply write_bytes_trace in Hw.
        destruct e; unfold raise; intros [= _ <-]; congruence.
    + apply make_dirs_trace in Hm. simpl in Hm. now intros [= _ <-].
Qed.

Lemma fold_modules_trace root : forall ms reg w reg' w',
  fold_modules ms root true reg w = (Ok reg', w') ->
  trace w' = trace w ++ map call_of ms.
Proof.
  induction ms as [|m ms IH]; intros reg w reg' w'; simpl.
  - unfold ret. intros [= _ <-]. now rewrite app_nil_r.
  - intros H. apply bind_ok in H as (p & w1 & Hm & H).
    apply materialize_module_trace in Hm.
    destruct (Paths.relative_to p root); [|discriminate H].
    apply IH in H. rewrite H, Hm. now rewrite <- app_assoc.
Qed.
End CallFacts.

(** X20.  With [--write], a [build_registry] that returns has called
    [materialize_module] once for each module, in the order of the list;
    it has made no other call to it. *)
Theorem build_registry_materializes_each {rt : Runtime}
        (ms : list ModuleInfo) (root : Path) (w w' : world) (reg : registry) :
  build_registry ms root true w = (Ok reg, w') ->
  trace w' = trace w ++ map call_of ms.
Proof.
  intros H. apply build_registry_ok in H as (reg0 & Hf & _).
  now apply fold_modules_trace in Hf.
Qed.

(** The theorem at the two sample modules [bar.js] and [foo.js]: the
    first one is in its place, the second one is moved. *)
Lemma build_registry_materializes_each_witness :
  exists reg w',
    @build_registry Sample.runtime [Sample.loaded_bar; Sample.loaded_foo]
                    Sample.root true Sample.world0 = (Ok reg, w')
    /\ trace w'
       = [ CallMaterialize "bar" "v1" Sample.bar_file;
           CallMaterialize "foo" "v2" Sample.foo_file ].
Proof.
  destruct (@build_registry Sample.runtime [Sample.loaded_bar; Sample.loaded_foo]
              Sample.root true Sample.world0) as [r w'] eqn:E.
  assert (Er : exists reg, r = Ok reg).
  { apply (f_equal fst) in E. change (fst (r, w')) with r in E.
    rewrite <- E. vm_compute. eauto. }
  destruct Er as [reg ->]. exists reg, w'. split; [reflexivity|].
  rewrite (@build_registry_materializes_each Sample.runtime _ _ _ _ _ E).
  reflexivity.
Defined.

(* ------------------------------------------------------------------ *)
(** ** Metadata that are no object *)

(** X21.  A module whose metadata are valid JSON but no object (a
    number, a string, a list) makes [load_module] raise
    [AttributeError], which is no [BootstrapError]: the file is read,
    the export is parsed, and [metadata.get] fails. *)
Theorem load_module_not_object {rt : Runtime}
        (root p : Path) (w : world) (c : list byte) (md : pyobj) :
  Fs.read_bytes p w = (Ok c, w) ->
  extract_metadata p w = (Ok md, w) ->
  is_record md = false ->
  load_module root p w = (Raise AttributeError, w).
Proof.
  intros Hr Hm Hd. unfold load_module, bind, wrap_oserror, try_except.
  rewrite Hr, Hm. unfold lift. now destruct md.
Qed.

(** The theorem on a machine whose modules export the number 1; [main]
    lets the exception through. *)
Lemma load_module_not_object_witness :
  @load_module Sample.scalar Sample.root Sample.foo_file Sample.world0
  = (Raise AttributeError, Sample.world0)
  /\ @main Sample.scalar [] Sample.world0 = (Raise AttributeError, Sample.world0).
Proof.
  split; [|vm_compute; reflexivity].
  apply (@load_module_not_object Sample.scalar Sample.root Sample.foo_file
           Sample.world0 (Sample.bytes "exports.metadata = 1") (PInt 1)).
  - vm_compute. reflexivity.
  - vm_compute. reflexivity.
  - reflexivity.
Defined.

(* ------------------------------------------------------------------ *)
(** ** The canonical place is a versioned one *)

Lemma split_on_plain (s : string) :
  has_slash s = false -> Text.split_on "/" s = [s].
Proof.
  induction s as [|c s IH]; simpl; [reflexivity|].
  destruct (Ascii.eqb c "/"); [discriminate|]. simpl. intros H.
  now rewrite (IH H).
Qed.

Lemma parse_plain (s : string) :
  plain s = true -> Paths.parse s = mkPath "" [s].
Proof.
  unfold plain, Paths.parse. intros H. apply andb_true_iff in H as [H _].
  apply andb_true_iff in H as [Hs Hk].
  apply negb_true_iff in Hs. rewrite (split_on_plain _ Hs). simpl. rewrite Hk.
  f_equal. unfold Paths.splitroot.
  destruct s as [|c s]; [reflexivity|]. simpl in Hs.
  apply orb_false_iff in Hs as [Hc _].
  assert (Hn : Paths.count_slashes (String c s) = 0%nat).
  { simpl. destruct c as [[] [] [] [] [] [] [] []]; try reflexivity.
    discriminate Hc. }
  now rewrite Hn.
Qed.

Lemma has_slash_app (a b : string) :
  has_slash (a ++ b)%string = has_slash a || has_slash b.
Proof.
  induction a as [|c a IH]; simpl; [reflexivity|].
  now rewrite IH, orb_assoc.
Qed.

Lemma plain_js (s : string) : plain s = true -> plain (s ++ ".js")%string = true.
Proof.
  unfold plain, Paths.keep_seg. intros H. apply andb_true_iff in H as [H _].
  apply andb_true_iff in H as [Hs Hk].
  apply negb_true_iff in Hs. rewrite has_slash_app, Hs. simpl.
  destruct s as [|c s]; [discriminate Hk|]. simpl.
  destruct s as [|d s]; simpl; destruct (Ascii.eqb c "."); try reflexivity.
  destruct s as [|d' s]; simpl; now destruct (Ascii.eqb d ".").
Qed.

Lemma plain_not_up (s : string) : plain s = true -> s <> "..".
Proof.
  unfold plain. intros H. apply andb_true_iff in H as [_ H].
  apply negb_true_iff in H. now apply String.eqb_neq.
Qed.

Lemma join_plain (p : Path) (s : string) :
  plain s = true -> Paths.join p s = mkPath (anchor p) (segs p ++ [s]).
Proof. intros H. unfold Paths.join. now rewrite (parse_plain _ H). Qed.

Lemma strip_prefix_self (pre rest : list string) :
  Paths.strip_prefix pre (pre ++ rest) = Some rest.
Proof.
  induction pre as [|x pre IH]; simpl; [reflexivity|].
  now rewrite String.eqb_refl.
Qed.

Lemma prefixes_snoc (l : list string) (x : string) :
  Fs.prefixes (l ++ [x]) = Fs.prefixes l ++ [l ++ [x]].
Proof.
  induction l as [|y l IH]; simpl; [reflexivity|].
  rewrite IH, map_app. reflexivity.
Qed.

Lemma rev_string_app (a : string) : forall b acc,
  Text.rev_string (a ++ b)%string acc = Text.rev_string b (Text.rev_string a acc).
Proof. induction a as [|c a IH]; intros b acc; simpl; [reflexivity|apply IH]. Qed.

Lemma endswith_js (s : string) : Text.endswith (s ++ ".js")%string ".js" = true.
Proof.
  unfold Text.endswith. rewrite rev_string_app. simpl.
  now destruct (Text.rev_string s "").
Qed.

Lemma is_dir_lookup (t : tree) (a : list string) :
  Fs.is_dir t a = true <-> a = [] \/ Fs.lookup t a = Some Dir.
Proof.
  unfold Fs.is_dir. destruct a as [|x a]; [tauto|].
  destruct (Fs.lookup t (x :: a)) as [[c|]|]; split; intros H;
    try discriminate; try (now right); try reflexivity;
    destruct H as [H|H]; discriminate H.
Qed.

Section SettleFacts.
Context {rt : Runtime}.

Lemma components_child (q : Path) (x : string) :
  Paths.components cwd (mkPath (anchor q) (segs q ++ [x]))
  = Paths.components cwd q ++ [x].
Proof.
  unfold Paths.components. simpl.
  destruct (Text.truthy (anchor q)); [reflexivity|apply app_assoc].
Qed.

Lemma locate_components (q : Path) :
  Paths.locate cwd q = Paths.normalize (Paths.components cwd q).
Proof. reflexivity. Qed.

(** The places of [mkdir] for a child of a directory: those of the
    directory, then the child. *)
Lemma mkdir_places_child (q : Path) (x : string) :
  x <> ".." ->
  Fs.mkdir_places (mkPath (anchor q) (segs q ++ [x]))
  = Fs.mkdir_places q ++ [Paths.locate cwd q ++ [x]].
Proof.
  intros Hx. unfold Fs.mkdir_places.
  rewrite components_child, prefixes_snoc, map_app, filter_app. f_equal.
  simpl. rewrite (normalize_snoc _ _ Hx), <- locate_components.
  now destruct (Paths.locate cwd q).
Qed.

Lemma write_bytes_not_dir p data w w1 :
  Fs.write_bytes p data w = (Ok tt, w1) ->
  Fs.is_dir (fs w) (Paths.locate cwd p) = false.
Proof.
  unfold Fs.write_bytes, Fs.os_error, raise. cbv zeta.
  destruct (Paths.locate cwd p) as [|x k]; [intros H; discriminate H|].
  destruct (Fs.reachable _ _); cbn [andb]; [|intros H; discriminate H].
  destruct (Fs.is_dir (fs w) (x :: k)); cbn [negb];
    [intros H; discriminate H|reflexivity].
Qed.

Lemma unlink_was_file p w w1 :
  Fs.unlink p w = (Ok tt, w1) ->
  Fs.is_file (fs w) (Paths.locate cwd p) = true.
Proof.
  unfold Fs.unlink, Fs.os_error, raise. cbv zeta.
  destruct (Fs.reachable _ _); cbn [andb]; [|intros H; discriminate H].
  destruct (Fs.is_file _ _); [reflexivity|intros H; discriminate H].
Qed.

(** Writing a file and removing another one keeps the directories. *)
Lemma move_keeps_dirs p data q w1 w3 w' :
  Fs.write_bytes p data w1 = (Ok tt, w3) ->
  Fs.unlink q w3 = (Ok tt, w') ->
  forall a, Fs.lookup (fs w1) a = Some Dir -> Fs.lookup (fs w') a = Some Dir.
Proof.
  intros Hwrite Hunlink a H1.
  pose proof (write_bytes_not_dir _ _ _ _ Hwrite) as Hnd.
  assert (H3 : Fs.lookup (fs w3) a = Some Dir).
  { rewrite (write_bytes_ok _ _ _ _ Hwrite).
    rewrite lookup_store_other; [exact H1|].
    intros E. rewrite E in Hnd.
    assert (Hd : Fs.is_dir (fs w1) a = true) by (apply is_dir_lookup; now right).
    congruence. }
  pose proof (unlink_was_file _ _ _ Hunlink) as Hf.
  rewrite (unlink_ok _ _ _ Hunlink).
  rewrite lookup_erase_other; [exact H3|].
  intros E. rewrite E in Hf. unfold Fs.is_file in Hf.
  destruct a as [|x a]; [discriminate Hf|]. now rewrite H3 in Hf.
Qed.

(** A place is reachable when the places above it are directories. *)
Lemma prefixes_parent (r : list string) :
  r <> [] -> Fs.prefixes r = Fs.prefixes (removelast r) ++ [r].
Proof.
  intros Hr. rewrite (app_removelast_last "" Hr) at 1 3.
  apply prefixes_snoc.
Qed.

Lemma dirs_down_to (t : tree) (r : list string) :
  Fs.reachable t r && Fs.is_dir t r = true ->
  forall a, In a (Fs.prefixes r) -> Fs.is_dir t a = true.
Proof.
  intros H a Ha. apply andb_true_iff in H as [Hreach Hdir].
  destruct r as [|x r]; [destruct Ha|].
  rewrite prefixes_parent in Ha by discriminate.
  apply in_app_or in Ha. destruct Ha as [Ha|[<-|[]]]; [|exact Hdir].
  unfold Fs.reachable, Fs.parent in Hreach.
  now apply (proj1 (forallb_forall _ _) Hreach).
Qed.
End SettleFacts.

(** X22.  A module whose name, in lower case, and version are names of
    one place each (no slash, not empty, neither a dot nor a double dot)
    and that [materialize_module] has moved lies at
    [name/version/name.js] below the root, and [is_versioned_path]
    accepts that place.  So when the file at the path returned is loaded
    again with the same name and version, the module is taken for
    versioned, and [materialize_module] returns its path and touches no
    file.  And the next discovery finds the file at that path, when the
    root was a directory and the module was found somewhere else. *)
Theorem materialize_module_settles {rt : Runtime}
        (root : Path) (m : ModuleInfo) (w w' : world) (p : Path) :
  materialize_module root m w = (Ok p, w') ->
  versioned m = false ->
  plain (name m) = true ->
  plain (version m) = true ->
  Text.lower (name m) = name m ->
  Paths.relative_to p root
  = Some (mkPath "" [name m; version m; (name m ++ ".js")%string])
  /\ is_versioned_path (mkPath "" [name m; version m; (name m ++ ".js")%string])
                       (name m) (version m) = true
  /\ (forall w2 m2 w3,
         load_module root p w2 = (Ok m2, w3) ->
         name m2 = name m -> version m2 = version m ->
         versioned m2 = true
         /\ forall w4,
              materialize_module root m2 w4
              = (Ok p, mkWorld (fs w4) (stdout w4) (stderr w4)
                               (trace w4 ++ [call_of m2])))
  /\ (Fs.reachable (fs w) (Paths.locate cwd root)
      && Fs.is_dir (fs w) (Paths.locate cwd root) = true ->
      Paths.locate cwd (path m) <> Paths.locate cwd p ->
      exists files, Fs.rglob_js root w' = (Ok files, w') /\ In p files).
Proof.
  intros H Hv Hn Hver Hl.
  pose proof (materialize_module_path _ _ _ _ _ H) as Hp.
  unfold final_path in Hp. rewrite Hv in Hp. simpl in Hp.
  rewrite (join_plain _ _ Hn), (join_plain _ _ Hver),
    (join_plain _ _ (plain_js _ Hn)) in Hp. cbn [anchor segs] in Hp.
  set (f := (name m ++ ".js")%string) in *.
  assert (Hrel : Paths.relative_to p root
                 = Some (mkPath "" [name m; version m; f])).
  { subst p. unfold Paths.relative_to. cbn [anchor segs].
    rewrite String.eqb_refl. rewrite <- !app_assoc.
    now rewrite strip_prefix_self. }
  assert (Hok : is_versioned_path (mkPath "" [name m; version m; f])
                                  (name m) (version m) = true).
  { unfold is_versioned_path, from_end, f. cbn.
    rewrite lower_app, Hl. simpl (Text.lower ".js").
    now rewrite !String.eqb_refl. }
  split; [exact Hrel|]. split; [exact Hok|]. split.
  - intros w2 m2 w3 Hload Hn2 Hv2.
    apply load_module_ok in Hload
      as (c & md & nf & vf & rel & _ & _ & _ & _ & Hrel2 & _ & Hm2).
    rewrite Hrel in Hrel2. injection Hrel2 as <-.
    assert (Hver2 : versioned m2 = true).
    { rewrite Hm2 in Hn2, Hv2 |- *. simpl in Hn2, Hv2 |- *.
      now rewrite Hn2, Hv2. }
    assert (Hpath : path m2 = p) by now rewrite Hm2.
    split; [exact Hver2|]. intros w4.
    unfold materialize_module, bind, log, call_of. rewrite Hver2.
    unfold ret. now rewrite Hpath.
  - intros Hroot Hne. apply andb_true_iff in Hroot as [Hreach Hdir].
    set (r := Paths.locate cwd root) in *.
    assert (Hfx : f <> "..") by (apply plain_not_up, plain_js, Hn).
    pose proof (plain_not_up _ Hn) as Hnx.
    pose proof (plain_not_up _ Hver) as Hvx.
    set (d1 := mkPath (anchor root) (segs root ++ [name m])).
    set (d2 := mkPath (anchor d1) (segs d1 ++ [version m])).
    assert (Hk : Paths.locate cwd p = ((r ++ [name m]) ++ [version m]) ++ [f]).
    { subst p.
      change (mkPath (anchor root) (((segs root ++ [name m]) ++ [version m]) ++ [f]))
        with (mkPath (anchor d2) (segs d2 ++ [f])).
      rewrite (locate_child _ d2 f Hfx). unfold d2.
      rewrite (locate_child _ d1 _ Hvx). unfold d1.
      now rewrite (locate_child _ root _ Hnx). }
    (* the steps of the move *)
    unfold materialize_module in H. rewrite Hv in H.
    apply bind_ok in H as (u0 & w0 & Hlog & H).
    unfold log in Hlog. injection Hlog as _ <-.
    apply bind_ok in H as ([] & w1 & Hmk & H).
    apply bind_ok in H as ([] & w2 & Hmove & H).
    unfold ret in H. injection H as Hp2 Hw. subst w2.
    apply wrap_oserror_ok in Hmove.
    apply bind_ok in Hmove as ([] & w3 & Hwrite & Hunlink).
    (* the two directories that [mkdir] made *)
    rewrite (join_plain _ _ Hn), (join_plain _ _ Hver) in Hmk.
    cbn [anchor segs] in Hmk.
    change (mkPath (anchor root) ((segs root ++ [name m]) ++ [version m]))
      with d2 in Hmk.
    unfold Fs.mkdir in Hmk.
    assert (Hplaces : Fs.mkdir_places d2
                      = (Fs.mkdir_places root ++ [r ++ [name m]])
                        ++ [(r ++ [name m]) ++ [version m]]).
    { unfold d2. rewrite (mkdir_places_child d1 _ Hvx). unfold d1 at 1.
      rewrite (mkdir_places_child root _ Hnx). f_equal. f_equal.
      unfold d1. now rewrite (locate_child _ root _ Hnx). }
    assert (Hd1 : Fs.lookup (fs w1) (r ++ [name m]) = Some Dir).
    { apply (make_dirs_made _ _ _ Hmk). rewrite Hplaces.
      apply in_or_app. left. apply in_or_app. right. now left. }
    assert (Hd2 : Fs.lookup (fs w1) ((r ++ [name m]) ++ [version m]) = Some Dir).
    { apply (make_dirs_made _ _ _ Hmk). rewrite Hplaces.
      apply in_or_app. right. now left. }
    assert (Hmoved : forall a, Fs.lookup (fs w1) a = Some Dir ->
                               Fs.lookup (fs w') a = Some Dir).
    { exact (move_keeps_dirs _ _ _ _ _ _ Hwrite Hunlink). }
    assert (Hdirs : forall a, Fs.is_dir (fs w) a = true -> Fs.is_dir (fs w') a = true).
    { intros a Ha. apply is_dir_lookup in Ha. apply is_dir_lookup.
      destruct Ha as [->|Ha]; [now left|]. right. apply Hmoved.
      rewrite (make_dirs_present _ _ _ _ Hmk); simpl; [exact Ha|congruence]. }
    assert (Hfile : Fs.lookup (fs w') (Paths.locate cwd p) = Some (File (source m))).
    { rewrite (unlink_ok _ _ _ Hunlink), (write_bytes_ok _ _ _ _ Hwrite).
      rewrite lookup_erase_other by exact Hne.
      rewrite <- Hp2. apply lookup_store_same. }
    assert (Hup : forall a, In a (Fs.prefixes r) -> Fs.is_dir (fs w') a = true).
    { intros a Ha. apply Hdirs. apply (dirs_down_to _ r); [|exact Ha].
      apply andb_true_iff. now split. }
    assert (Hreach' : Fs.reachable (fs w') (Paths.locate cwd p) = true).
    { rewrite Hk. unfold Fs.reachable, Fs.parent. rewrite removelast_last.
      rewrite !prefixes_snoc, !forallb_app. simpl.
      rewrite (proj2 (forallb_forall _ _) Hup).
      rewrite (proj2 (is_dir_lookup _ _) (or_intror (Hmoved _ Hd1))).
      rewrite (proj2 (is_dir_lookup _ _) (or_intror (Hmoved _ Hd2))).
      reflexivity. }
    unfold Fs.rglob_js. fold r.
    assert (Hcond : Fs.reachable (fs w') r && Fs.is_dir (fs w') r = true).
    { apply andb_true_iff. split; [|now apply Hdirs].
      unfold Fs.reachable in *. apply forallb_forall. intros a Ha.
      apply Hdirs. now apply (proj1 (forallb_forall _ _) Hreach). }
    rewrite Hcond. eexists. split; [reflexivity|].
    apply in_flat_map. exists (Paths.locate cwd p, File (source m)). split.
    + unfold Fs.lookup in Hfile.
      apply (get_in _ _ Paths.seg_eqb seg_eqb_eq _ _ _ Hfile).
    + cbn [fst]. rewrite Hreach'. rewrite Hk, <- !app_assoc. simpl app.
      rewrite strip_prefix_self. simpl last. unfold f at 1.
      rewrite endswith_js. simpl. left. rewrite Hp.
      now rewrite <- !app_assoc.
Qed.

(** The theorem at the sample module [foo.js], moved to
    [foo/v2/foo.js], where the next discovery finds it. *)
Lemma materialize_module_settles_witness :
  versioned Sample.loaded_foo = false
  /\ exists w',
       @materialize_module Sample.runtime Sample.root Sample.loaded_foo Sample.world0
       = (Ok (mkPath "/" ["srv"; "strategies"; "foo"; "v2"; "foo.js"]), w')
       /\ is_versioned_path (mkPath "" ["foo"; "v2"; "foo.js"]) "foo" "v2" = true
       /\ exists files,
            @Fs.rglob_js Sample.runtime Sample.root w' = (Ok files, w')
            /\ In (mkPath "/" ["srv"; "strategies"; "foo"; "v2"; "foo.js"]) files.
Proof.
  split; [reflexivity|].
  destruct (@materialize_module Sample.runtime Sample.root Sample.loaded_foo
              Sample.world0) as [r w'] eqn:E.
  assert (Er : r = Ok (mkPath "/" ["srv"; "strategies"; "foo"; "v2"; "foo.js"])).
  { apply (f_equal fst) in E. change (fst (r, w')) with r in E.
    rewrite <- E. vm_compute. reflexivity. }
  subst r. exists w'. split; [reflexivity|].
  destruct (@materialize_module_settles Sample.runtime Sample.root Sample.loaded_foo
              Sample.world0 w' _ E eq_refl eq_refl eq_refl eq_refl)
    as (_ & Hs & _ & Hfind).
  split; [exact Hs|]. apply Hfind.
  - vm_compute. reflexivity.
  - vm_compute. discriminate.
Defined.

(* ------------------------------------------------------------------ *)
(** ** The interactive tool *)

Lemma rstrip_idem (s : string) : Text.rstrip (Text.rstrip s) = Text.rstrip s.
Proof.
  induction s as [|c s IH]; [reflexivity|]. simpl.
  destruct (Text.rstrip s) as [|d r] eqn:E.
  - destruct (Text.isspace c) eqn:Ec; [reflexivity|]. simpl. now rewrite Ec.
  - simpl in *. now rewrite IH.
Qed.

(** What [lstrip] leaves starts with no space. *)
Lemma lstrip_head (s : string) :
  match Text.lstrip s with
  | EmptyString => True
  | String c _ => Text.isspace c = false
  end.
Proof.
  induction s as [|c s IH]; simpl; [exact I|].
  destruct (Text.isspace c) eqn:Ec; [exact IH|exact Ec].
Qed.

Lemma lstrip_rstrip (s : string) :
  match s with
  | EmptyString => True
  | String c _ => Text.isspace c = false
  end ->
  Text.lstrip (Text.rstrip s) = Text.rstrip s.
Proof.
  destruct s as [|c s]; [reflexivity|]. intros Hc. simpl.
  destruct (Text.rstrip s); rewrite ?Hc; simpl; now rewrite Hc.
Qed.

Lemma strip_idem (s : string) : Text.strip (Text.strip s) = Text.strip s.
Proof.
  unfold Text.strip. rewrite (lstrip_rstrip _ (lstrip_head s)).
  apply rstrip_idem.
Qed.

Section OnboardFacts.
Context {rt : Runtime}.

(** The only [BootstrapError] of [ensure_dir] is the one of a blank
    path. *)
Lemma ensure_dir_raises path w e w' :
  ensure_dir path w = (Raise e, w') ->
  Text.strip path <> "" ->
  forall msg, e <> BootstrapError msg.
Proof.
  unfold ensure_dir. intros H Hp msg.
  destruct (Text.strip path) as [|c s] eqn:Es; [congruence|].
  change (negb (Text.truthy (String c s))) with false in H. cbv beta iota in H.
  apply bind_raise in H as [H|(expanded & w1 & _ & H)].
  - apply expanduser_fails in H. now subst e.
  - apply bind_raise in H as [H|(u & w2 & _ & H)]; [|discriminate H].
    apply make_dirs_fails in H as [exc ->]. discriminate.
Qed.

(** The root that the operator is asked for is never blank. *)
Lemma prompt_with_default_root label con w :
  exists v con' w',
    Onboard.prompt_with_default label (Some Onboard.DEFAULT_ROOT) con w
    = (Ok (v, con'), w')
    /\ Text.strip (Text.or_else v Onboard.DEFAULT_ROOT) <> "".
Proof.
  unfold Onboard.prompt_with_default.
  destruct (Onboard.input _ con) as [[line|] con'].
  - unfold ret. do 3 eexists. split; [reflexivity|].
    simpl Onboard.or_empty. unfold Text.or_else.
    destruct (Text.strip line) as [|c s] eqn:Es; [discriminate|].
    do 2 (change (Text.truthy (String c s)) with true; cbv iota).
    rewrite <- Es, strip_idem, Es. discriminate.
  - unfold bind, print, ret. do 3 eexists. split; [reflexivity|]. discriminate.
Qed.

Lemma prompt_bool_returns label default con w :
  exists b con' w',
    Onboard.prompt_bool label default con w = (Ok (b, con'), w').
Proof.
  unfold Onboard.prompt_bool.
  destruct (Onboard.input _ con) as [[line|] con'].
  - destruct (negb _); unfold ret; eauto.
  - unfold bind, print, ret. eauto.
Qed.
(** The two prompts on a line that is there, and on an input that has
    ended. *)
Lemma prompt_with_default_line label d l rest shown w :
  Onboard.prompt_with_default label (Some d) (mkConsole (l :: rest) shown) w
  = (Ok (Text.or_else (Text.strip l) d,
         mkConsole rest
           (shown ++ [(label ++ (if Text.truthy d then " [" ++ d ++ "]" else "")
                       ++ ": ")%string])),
     w).
Proof. reflexivity. Qed.

Lemma prompt_with_default_eof label d shown w :
  Onboard.prompt_with_default label (Some d) (mkConsole [] shown) w
  = (Ok (d,
         mkConsole []
           (shown ++ [(label ++ (if Text.truthy d then " [" ++ d ++ "]" else "")
                       ++ ": ")%string])),
     with_line "" w).
Proof. reflexivity. Qed.

Lemma prompt_bool_line label l rest shown w :
  exists b,
    Onboard.prompt_bool label true (mkConsole (l :: rest) shown) w
    = (Ok (b, mkConsole rest (shown ++ [(label ++ " (Y/n): ")%string])), w)
    /\ (declines l = true -> b = false).
Proof.
  unfold Onboard.prompt_bool, Onboard.input, declines. cbn [pending prompted].
  destruct (Text.truthy (Text.lower (Text.strip l))); cbn [negb]; cbv iota.
  - eexists. split; [reflexivity|]. intros H.
    apply andb_true_iff in H as [H Hyes]. simpl in H.
    apply negb_true_iff in H, Hyes. now rewrite H, Hyes.
  - eexists. split; [reflexivity|]. discriminate.
Qed.

Lemma prompt_bool_eof label default shown w :
  Onboard.prompt_bool label default (mkConsole [] shown) w
  = (Ok (default,
         mkConsole []
           (shown ++ [(label ++ " (" ++ (if default then "Y/n" else "y/N")
                       ++ "): ")%string])),
     with_line "" w).
Proof. reflexivity. Qed.
End OnboardFacts.

(** X23.  The exit status of the interactive [main] is 0 or 1, and no
    [BootstrapError] leaves it: the one of [rebuild_registry_once] is
    caught, and [ensure_dir], which is called outside the [try], never
    gets a blank directory, whatever the operator types. *)
Theorem onboard_exit_status {rt : Runtime} (con : console) (w : world) :
  match fst (Onboard.main con w) with
  | Ok (status, _) => status = 0%Z \/ status = 1%Z
  | Raise (BootstrapError _) => False
  | Raise _ => True
  end.
Proof.
  unfold Onboard.main. unfold bind at 1. unfold print at 1. cbv beta iota.
  unfold bind at 1.
  destruct (prompt_with_default_root "Strategies root" con
              (mkWorld (fs w) (stdout w ++ ["=== Onboard Strategies ==="])
                       (stderr w) (trace w)))
    as (v & con1 & w1 & -> & Hv).
  cbv beta iota. unfold bind at 1.
  destruct (ensure_dir (Text.or_else v Onboard.DEFAULT_ROOT) w1)
    as [[root|e] w2] eqn:Ed.
  - unfold bind at 1.
    destruct (prompt_bool_returns "Normalize layout before writing registry?"
                true con1 w2) as (normalize & con2 & w3 & ->).
    cbv beta iota. unfold bind at 1.
    destruct (prompt_bool_returns "Proceed with onboarding?" true con2 w3)
      as (proceed & con3 & w4 & ->).
    cbv beta iota. destruct proceed; cbn [negb]; cbv beta iota.
    + unfold try_except, bind, ret, print. cbv beta.
      destruct (rebuild_registry_once root normalize w4) as [[reg|e] w5].
      * destruct normalize; simpl; now left.
      * destruct e; try exact I. simpl. now right.
    + simpl. now left.
  - simpl. pose proof (ensure_dir_raises _ _ _ _ Ed Hv) as Hn.
    destruct e; try exact I. now apply (Hn msg).
Qed.

(** X24.  An operator who answers the third question with a no: the
    status is 0 and [rebuild_registry_once] is not run, but the root
    directory has been made by then, [ensure_dir] being called before
    the questions are asked. *)
Theorem onboard_declined {rt : Runtime}
        (root_line normalize_line proceed_line : string) (rest shown : list string)
        (w w1 : world) (root : Path) :
  ensure_dir (Text.or_else (Text.strip root_line) Onboard.DEFAULT_ROOT)
             (with_line "=== Onboard Strategies ===" w) = (Ok root, w1) ->
  declines proceed_line = true ->
  Onboard.main
    (mkConsole (root_line :: normalize_line :: proceed_line :: rest) shown) w
  = (Ok (0%Z,
         mkConsole rest
                   (shown ++ [ "Strategies root [.]: ";
                               "Normalize layout before writing registry? (Y/n): ";
                               "Proceed with onboarding? (Y/n): " ])),
     with_line "Aborted by operator." w1).
Proof.
  intros He Hd. unfold Onboard.main.
  unfold bind at 1. unfold print at 1. cbv beta iota.
  unfold bind at 1. rewrite prompt_with_default_line. cbv beta iota.
  assert (Hr : Text.or_else (Text.or_else (Text.strip root_line) Onboard.DEFAULT_ROOT)
                            Onboard.DEFAULT_ROOT
               = Text.or_else (Text.strip root_line) Onboard.DEFAULT_ROOT).
  { unfold Text.or_else. now destruct (Text.strip root_line). }
  rewrite Hr. unfold bind at 1.
  change (mkWorld (fs w) (stdout w ++ ["=== Onboard Strategies ==="])
                  (stderr w) (trace w))
    with (with_line "=== Onboard Strategies ===" w).
  rewrite He. unfold bind at 1.
  match goal with
  | |- context [Onboard.prompt_bool ?l true (mkConsole (_ :: ?r) ?s) w1] =>
      destruct (prompt_bool_line l normalize_line r s w1) as (b & -> & _)
  end.
  cbv beta iota. unfold bind at 1.
  match goal with
  | |- context [Onboard.prompt_bool ?l true (mkConsole (_ :: ?r) ?s) w1] =>
      destruct (prompt_bool_line l proceed_line r s w1) as (b' & -> & Hb)
  end.
  rewrite (Hb Hd). cbn [negb]. cbv beta iota.
  unfold bind, print, ret, with_line. now rewrite <- !app_assoc.
Qed.

(** The theorem on the sample tree: the operator gives the root, then
    answers no twice. *)
Lemma onboard_declined_witness :
  declines " No " = true
  /\ @Onboard.main Sample.runtime
       (mkConsole ["/srv/strategies"; "n"; " No "] []) Sample.world0
     = (Ok (0%Z,
            mkConsole []
                      [ "Strategies root [.]: ";
                        "Normalize layout before writing registry? (Y/n): ";
                        "Proceed with onboarding? (Y/n): " ]),
        mkWorld Sample.tree0
                ["=== Onboard Strategies ==="; "Aborted by operator."] [] []).
Proof.
  split; [reflexivity|].
  apply (@onboard_declined Sample.runtime "/srv/strategies" "n" " No " [] []
           Sample.world0
           (with_line "=== Onboard Strategies ===" Sample.world0) Sample.root).
  - vm_compute. reflexivity.
  - reflexivity.
Defined.

(** X25.  On an input that has ended, the interactive [main] asks its
    three questions, takes every default and goes on: the root is the
    working directory and [rebuild_registry_once] runs with [write]
    set, so that modules are moved without anyone confirming. *)
Theorem onboard_unattended {rt : Runtime}
        (shown : list string) (w w1 w2 : world) (root : Path)
        (r : result registry) :
  ensure_dir "." (with_line "" (with_line "=== Onboard Strategies ===" w))
  = (Ok root, w1) ->
  rebuild_registry_once root true (with_line "" (with_line "" w1)) = (r, w2) ->
  Onboard.main (mkConsole [] shown) w
  = match r with
    | Ok _ =>
        (Ok (0%Z,
             mkConsole []
                       (shown ++ [ "Strategies root [.]: ";
                                   "Normalize layout before writing registry? (Y/n): ";
                                   "Proceed with onboarding? (Y/n): " ])),
         with_line "Done." w2)
    | Raise (BootstrapError msg) =>
        (Ok (1%Z,
             mkConsole []
                       (shown ++ [ "Strategies root [.]: ";
                                   "Normalize layout before writing registry? (Y/n): ";
                                   "Proceed with onboarding? (Y/n): " ])),
         with_line ("bootstrap: " ++ msg) w2)
    | Raise e => (Raise e, w2)
    end.
Proof.
  intros He Hr. unfold Onboard.main.
  unfold bind at 1. unfold print at 1. cbv beta iota.
  unfold bind at 1. rewrite prompt_with_default_eof. cbv beta iota.
  change (Text.or_else Onboard.DEFAULT_ROOT Onboard.DEFAULT_ROOT) with ".".
  unfold bind at 1.
  change (mkWorld (fs w) (stdout w ++ ["=== Onboard Strategies ==="])
                  (stderr w) (trace w))
    with (with_line "=== Onboard Strategies ===" w).
  rewrite He. unfold bind at 1. rewrite prompt_bool_eof. cbv beta iota.
  unfold bind at 1. rewrite prompt_bool_eof. cbv beta iota.
  cbn [negb]. cbv beta iota.
  unfold bind at 1. unfold try_except, bind at 1. rewrite Hr.
  destruct r as [reg|e].
  - unfold bind, print, ret, with_line. now rewrite <- !app_assoc.
  - destruct e; try reflexivity.
    unfold bind, print, ret, with_line. now rewrite <- !app_assoc.
Qed.

(** The theorem on a machine where a module [foo.js] lies in the working
    directory: nobody answers, and the module is moved. *)
Lemma onboard_unattended_witness :
  exists w2,
    @Onboard.main Sample.dotted (mkConsole [] [])
      (mkWorld [ (["home"], Dir); (["home"; "operator"], Dir);
                 (["home"; "operator"; "foo.js"], File (Sample.bytes "x")) ]
               [] [] [])
    = (Ok (0%Z,
           mkConsole []
                     [ "Strategies root [.]: ";
                       "Normalize layout before writing registry? (Y/n): ";
                       "Proceed with onboarding? (Y/n): " ]),
       with_line "Done." w2)
    /\ Fs.lookup (fs w2) ["home"; "operator"; "foo.js"] = None
    /\ Fs.lookup (fs w2) ["home"; "operator"; "foo"; "foo.js"]
       = Some (File (Sample.bytes "x")).
Proof.
  set (w := mkWorld [ (["home"], Dir); (["home"; "operator"], Dir);
                      (["home"; "operator"; "foo.js"], File (Sample.bytes "x")) ]
                    [] [] []).
  set (w1 := with_line "" (with_line "=== Onboard Strategies ===" w)).
  destruct (@rebuild_registry_once Sample.dotted
              (mkPath "/" ["home"; "operator"]) true
              (with_line "" (with_line "" w1))) as [r w2] eqn:E.
  assert (Er : exists reg, r = Ok reg).
  { apply (f_equal fst) in E. change (fst (r, w2)) with r in E.
    rewrite <- E. vm_compute. eauto. }
  assert (E1 : Fs.lookup (fs w2) ["home"; "operator"; "foo.js"] = None).
  { apply (f_equal snd) in E. change (snd (r, w2)) with w2 in E.
    rewrite <- E. vm_compute. reflexivity. }
  assert (E2 : Fs.lookup (fs w2) ["home"; "operator"; "foo"; "foo.js"]
               = Some (File (Sample.bytes "x"))).
  { apply (f_equal snd) in E. change (snd (r, w2)) with w2 in E.
    rewrite <- E. vm_compute. reflexivity. }
  destruct Er as [reg ->]. exists w2. split; [|split; [exact E1|exact E2]].
  apply (@onboard_unattended Sample.dotted [] w w1 w2
           (mkPath "/" ["home"; "operator"]) (Ok reg)).
  - vm_compute. reflexivity.
  - exact E.
Defined.

(* ------------------------------------------------------------------ *)
(** ** A run that only looks *)

(** X26.  Without [write], [rebuild_registry_once] changes no file but
    the manifest and its temporary file, whatever its outcome: modules
    are neither moved nor rewritten, [materialize_module] is not called
    and nothing goes to the standard error. *)
Theorem rebuild_registry_once_dry {rt : Runtime}
        (root : Path) (w w' : world) (r : result registry) :
  rebuild_registry_once root false w = (r, w') ->
  trace w' = trace w
  /\ stderr w' = stderr w
  /\ forall k, k <> manifest_key root -> k <> manifest_tmp_key root ->
               Fs.lookup (fs w') k = Fs.lookup (fs w) k.
Proof.
  unfold rebuild_registry_once, bind, manifest_key, manifest_tmp_key. intros H.
  pose proof (discover_modules_world root w) as Hd.
  destruct (discover_modules root w) as [[[|m ms]|e] w1]; simpl in Hd; subst w1.
  - unfold raise in H. injection H as _ <-. auto.
  - pose proof (build_registry_dry (m :: ms) root w) as Hb.
    destruct (build_registry (m :: ms) root false w) as [[reg|e] w2];
      simpl in Hb; subst w2.
    + unfold write_registry, wrap_oserror, try_except in H.
      match type of H with
      | context [bind ?a ?k w] => destruct (bind a k w) as [r0 w0] eqn:Hw
      end.
      apply write_replace_frame in Hw as (Hr & _ & He & Ht & Hf).
      destruct Hr as [->|[exc ->]].
      * unfold print, ret in H. simpl in H. injection H as _ <-. simpl. auto.
      * unfold raise in H. injection H as _ <-. auto.
    + injection H as _ <-. auto.
  - injection H as _ <-. auto.
Qed.

(** The theorem on the sample tree: the three modules are where they
    were. *)
Lemma rebuild_registry_once_dry_witness :
  exists reg w',
    @rebuild_registry_once Sample.runtime Sample.root false Sample.world0
    = (Ok reg, w')
    /\ trace w' = []
    /\ Fs.lookup (fs w') ["srv"; "strategies"; "foo.js"]
       = Some (File (Sample.bytes "exports.metadata = 1"))
    /\ Fs.lookup (fs w') ["srv"; "strategies"; "x"; "bar.js"]
       = Some (File (Sample.bytes "exports.metadata = 2")).
Proof.
  destruct (@rebuild_registry_once Sample.runtime Sample.root false Sample.world0)
    as [r w'] eqn:E.
  assert (Er : exists reg, r = Ok reg).
  { apply (f_equal fst) in E. change (fst (r, w')) with r in E.
    rewrite <- E. vm_compute. eauto. }
  destruct Er as [reg ->]. exists reg, w'. split; [reflexivity|].
  destruct (@rebuild_registry_once_dry Sample.runtime _ _ _ _ E) as (Ht & _ & Hf).
  split; [exact Ht|].
  split; (rewrite Hf; [reflexivity| |]; vm_compute; discriminate).
Defined.

(* ------------------------------------------------------------------ *)
(** ** When the usage report is printed *)

(** X27.  After the manifest is written, [main] prints the usage report
    exactly when [read_usage] returns a list that is not empty: without
    a usage source, and with a usage export that is an empty list,
    nothing more is printed and the status is 0, although every
    revision is then without usage. *)
Theorem main_reports_usage {rt : Runtime}
        (argv : list string) (root_arg : string) (write : bool)
        (usage : option string) (usage_output : string)
        (w w1 w2 w3 : world) (root : Path) (reg : registry)
        (entries : option (list pyobj)) :
  parse_argv argv = inl (root_arg, write, usage, usage_output) ->
  ensure_dir root_arg w = (Ok root, w1) ->
  rebuild_registry_once root write w1 = (Ok reg, w2) ->
  read_usage usage (Some usage_output) w2 = (Ok entries, w3) ->
  main argv w
  = match entries with
    | Some (u :: us) =>
        match report_usage (u :: us) reg w3 with
        | (Ok _, w4) => (Ok 0%Z, w4)
        | (Raise (BootstrapError msg), w4) =>
            (Ok 1%Z, mkWorld (fs w4) (stdout w4)
                             (stderr w4 ++ [("bootstrap: " ++ msg)%string])
                             (trace w4))
        | (Raise e, w4) => (Raise e, w4)
        end
    | _ => (Ok 0%Z, w3)
    end.
Proof.
  intros Hp He Hb Hu. unfold rebuild_registry_once in Hb.
  apply bind_ok in Hb as (ms & w5 & Hd & Hb).
  destruct ms as [|m ms]; [discriminate Hb|].
  apply bind_ok in Hb as (reg0 & w6 & Hbr & Hb).
  apply bind_ok in Hb as ([] & w7 & Hwr & Hb).
  apply bind_ok in Hb as ([] & w8 & Hp1 & Hb).
  apply bind_ok in Hb as ([] & w9 & Hp2 & Hb).
  unfold ret in Hb. injection Hb as -> ->.
  unfold main, try_except. rewrite Hp.
  unfold bind at 1. rewrite He.
  unfold bind at 1. rewrite Hd.
  unfold bind at 1. rewrite Hbr.
  unfold bind at 1. rewrite Hwr.
  unfold bind at 1. rewrite Hp1.
  unfold bind at 1. rewrite Hp2.
  unfold bind at 1. rewrite Hu.
  destruct entries as [[|u us]|]; try reflexivity.
  unfold bind.
  destruct (report_usage (u :: us) reg w3) as [[[]|e] w4];
    [reflexivity|now destruct e].
Qed.

(** The theorem on a machine whose usage export is the empty list: two
    lines of output, no report. *)
Lemma main_reports_usage_witness :
  exists reg w2,
    @rebuild_registry_once Sample.idle Sample.root false Sample.world_idle
    = (Ok reg, w2)
    /\ @read_usage Sample.idle (Some "/srv/usage.json") (Some "usage.json") w2
       = (Ok (Some []), w2)
    /\ @main Sample.idle [] Sample.world_idle = (Ok 0%Z, w2)
    /\ stdout w2
       = [ "registry.json generated for 2 strategies under /srv/strategies";
           "filesystem left untouched (pass --write to reorganize)" ].
Proof.
  destruct (@rebuild_registry_once Sample.idle Sample.root false Sample.world_idle)
    as [r w2] eqn:E.
  assert (Er : exists reg, r = Ok reg).
  { apply (f_equal fst) in E. change (fst (r, w2)) with r in E.
    rewrite <- E. vm_compute. eauto. }
  assert (Ew : w2 = snd (@rebuild_registry_once Sample.idle Sample.root false
                           Sample.world_idle)) by now rewrite E.
  assert (Eu : @read_usage Sample.idle (Some "/srv/usage.json") (Some "usage.json") w2
               = (Ok (Some []), w2)).
  { rewrite Ew. vm_compute. reflexivity. }
  assert (Eo : stdout w2
               = [ "registry.json generated for 2 strategies under /srv/strategies";
                   "filesystem left untouched (pass --write to reorganize)" ]).
  { rewrite Ew. vm_compute. reflexivity. }
  destruct Er as [reg ->]. exists reg, w2. split; [reflexivity|].
  split; [exact Eu|]. split; [|exact Eo].
  apply (@main_reports_usage Sample.idle [] "/srv/strategies" false
           (Some "/srv/usage.json") "usage.json"
           Sample.world_idle Sample.world_idle w2 w2 Sample.root reg (Some [])).
  - reflexivity.
  - vm_compute. reflexivity.
  - exact E.
  - exact Eu.
Defined.
